(** * Resgrid to ESO bridge: field mapping, timestamp reconciliation and delivery

    A shallow embedding of the JavaScript sources of the bridge:
    - [priority.js] ([mapPriorityToEsoCode]),
    - [final-with-sheets-fix.js] ([activityEvent], [generateXML], [logCallData]),
    - [src/xml-generator.js] ([generateXML]) and [sheets-logger-new.js]
      ([sheetCallRow]), the single-unit serializer and sheet writer,
    - [src/logger.js] (its exports), [src/retry-util.js] ([withRetry]) and
      [src/sftp-client.js] ([hasFileChanged], [uploadFileToSFTP]).

    JavaScript strings are modelled as [string]; a character stands for one
    code unit below 256.  Absent ([undefined]/[null]) fields are [None]. *)

From Stdlib Require Import ZArith Ascii DecimalString.
From stdpp Require Import gmap strings list.
From Equations Require Import Equations.

Local Open Scope Z_scope.

(** ** JavaScript strings *)

Module JS.

Definition code (c : ascii) : N := N_of_ascii c.

Definition is_upper (c : ascii) : bool := ((65 <=? code c) && (code c <=? 90))%N.
Definition is_lower (c : ascii) : bool := ((97 <=? code c) && (code c <=? 122))%N.
Definition is_digit (c : ascii) : bool := ((48 <=? code c) && (code c <=? 57))%N.

(** The class [[a-zA-Z0-9]] *)
Definition isAlnum (c : ascii) : bool := is_lower c || is_upper c || is_digit c.

(** [toLowerCase] on one code unit.  Code units above 127 are left alone:
    none of them lowers to an ASCII letter, so matching against the ASCII
    keywords of the sources is not affected. *)
Definition lower (c : ascii) : ascii :=
  if is_upper c then ascii_of_N (code c + 32) else c.

Fixpoint toLowerCase (s : string) : string :=
  match s with
  | EmptyString => EmptyString
  | String c s' => String (lower c) (toLowerCase s')
  end.

(** [LineTerminator] code units below 256: LF and CR. *)
Definition is_line_terminator (c : ascii) : bool :=
  ((code c =? 10) || (code c =? 13))%N.

(** [WhiteSpace] and [LineTerminator] code units below 256, as used by
    [trim] and by the class [\s]: TAB, LF, VT, FF, CR, SP, NBSP. *)
Definition is_space (c : ascii) : bool :=
  ((9 <=? code c) && (code c <=? 13) || (code c =? 32) || (code c =? 160))%N.

Fixpoint trimStart (s : string) : string :=
  match s with
  | String c s' => if is_space c then trimStart s' else s
  | EmptyString => EmptyString
  end.

(** [trimEnd] written as a right fold: a white-space character is dropped
    when everything after it has been dropped. *)
Fixpoint trimEnd (s : string) : string :=
  match s with
  | EmptyString => EmptyString
  | String c s' =>
      match trimEnd s' with
      | EmptyString => if is_space c then EmptyString else String c EmptyString
      | t => String c t
      end
  end.

Definition trim (s : string) : string := trimEnd (trimStart s).

(** [s.split(sep)] for a one-character separator: always at least one
    piece. *)
Fixpoint split (sep : ascii) (s : string) : list string :=
  match s with
  | EmptyString => [EmptyString]
  | String c s' =>
      if Ascii.eqb c sep then EmptyString :: split sep s'
      else match split sep s' with
           | p :: ps => String c p :: ps
           | [] => [String c EmptyString]
           end
  end.

(** [parts.join(sep)] *)
Fixpoint join (sep : string) (parts : list string) : string :=
  match parts with
  | [] => EmptyString
  | [p] => p
  | p :: ps => p +:+ sep +:+ join sep ps
  end.

(** [s.replace(/[\r\n]/g, '')] *)
Fixpoint stripLineBreaks (s : string) : string :=
  match s with
  | EmptyString => EmptyString
  | String c s' =>
      if is_line_terminator c then stripLineBreaks s' else String c (stripLineBreaks s')
  end.

(** [s.includes(k)] *)
Fixpoint includes (k s : string) : bool :=
  String.prefix k s ||
  match s with
  | EmptyString => false
  | String _ s' => includes k s'
  end.

(** Every character of the string satisfies [p]. *)
Fixpoint allChars (p : ascii -> bool) (s : string) : bool :=
  match s with
  | EmptyString => true
  | String c s' => p c && allChars p s'
  end.

(** Truthiness of a possibly absent string: [undefined] and [''] are falsy. *)
Definition truthy (o : option string) : bool :=
  match o with
  | Some (String _ _) => true
  | _ => false
  end.

(** [a || b] on possibly absent strings. *)
Definition or_else (a b : option string) : option string :=
  if truthy a then a else b.

(** [a || ''] *)
Definition or_empty (a : option string) : string :=
  match a with
  | Some s => s
  | None => EmptyString
  end.

(** Primitive values met in the [Priority] and [StatusId] fields. *)
Inductive prim : Type :=
| Undefined
| Null
| Num (n : Z)
| Str (s : string).

Definition string_of_Z (n : Z) : string := NilZero.string_of_int (Z.to_int n).

(** [String(v)]; on the values where the sources call [v.toString()]
    (truthy ones) the two agree. *)
Definition toString (v : prim) : string :=
  match v with
  | Undefined => "undefined"
  | Null => "null"
  | Num n => string_of_Z n
  | Str s => s
  end.

Definition truthy_prim (v : prim) : bool :=
  match v with
  | Undefined | Null => false
  | Num n => negb (n =? 0)
  | Str s => truthy (Some s)
  end.

(** *** Properties of object literals

    The lookup tables of the sources are object literals with string
    values; [table[key]] answers an own property or, failing that, what
    the literal inherits from [Object.prototype]. *)

(** The property names of [Object.prototype] under Node.js. *)
Definition objectPrototype : list string :=
  ["constructor"; "__defineGetter__"; "__defineSetter__"; "hasOwnProperty";
   "__lookupGetter__"; "__lookupSetter__"; "isPrototypeOf"; "propertyIsEnumerable";
   "toString"; "valueOf"; "__proto__"; "toLocaleString"].

Definition inherited (key : string) : bool :=
  existsb (String.eqb key) objectPrototype.

(** What a lookup finds: the string of an own property, or the inherited
    member of that name (a function; the prototype object itself for
    [__proto__]). *)
Inductive member : Type :=
| Own (value : string)
| Inherited (key : string).

(** [table[key]]; [None] is [undefined]. *)
Definition getProperty (table : gmap string string) (key : string) : option member :=
  match table !! key with
  | Some value => Some (Own value)
  | None => if inherited key then Some (Inherited key) else None
  end.

(** [m || 'd']: functions and objects are truthy. *)
Definition memberOr (m : option member) (d : string) : member :=
  match m with
  | Some (Own value) => if truthy (Some value) then Own value else Own d
  | Some (Inherited key) => Inherited key
  | None => Own d
  end.

(** [m === 'lit'] *)
Definition memberIs (m : member) (lit : string) : bool :=
  match m with
  | Own value => String.eqb value lit
  | Inherited _ => false
  end.

(** [String(m)], as a template literal and [txt()] of xmlbuilder2 convert
    their argument: the source text Node.js gives a built-in function, and
    [[object Object]] for the prototype object. *)
Definition memberText (m : member) : string :=
  match m with
  | Own value => value
  | Inherited key =>
      if String.eqb key "__proto__" then "[object Object]"
      else "function " +:+ (if String.eqb key "constructor" then "Object" else key)
           +:+ "() { [native code] }"
  end.

End JS.

(** ** Regular expressions

    The fragment of [RegExp] used by the sources, with [test] decided by
    Brzozowski derivatives. *)

Module Regex.

Inductive regex : Type :=
| Void
| Eps
| Cls (p : ascii -> bool)
| Seq (r1 r2 : regex)
| Alt (r1 r2 : regex)
| Star (r : regex).

Definition Opt (r : regex) : regex := Alt r Eps.
Definition Plus (r : regex) : regex := Seq r (Star r).

(** [.] without the [s] flag *)
Definition Dot : regex := Cls (fun c => negb (JS.is_line_terminator c)).

(** A literal character under the [i] flag *)
Definition ChrI (c : ascii) : regex :=
  Cls (fun x => Ascii.eqb (JS.lower x) (JS.lower c)).

(** A literal word under the [i] flag *)
Fixpoint LitI (w : string) : regex :=
  match w with
  | EmptyString => Eps
  | String c w' => Seq (ChrI c) (LitI w')
  end.

Fixpoint nullable (r : regex) : bool :=
  match r with
  | Void => false
  | Eps => true
  | Cls _ => false
  | Seq r1 r2 => nullable r1 && nullable r2
  | Alt r1 r2 => nullable r1 || nullable r2
  | Star _ => true
  end.

Fixpoint deriv (c : ascii) (r : regex) : regex :=
  match r with
  | Void => Void
  | Eps => Void
  | Cls p => if p c then Eps else Void
  | Seq r1 r2 =>
      if nullable r1 then Alt (Seq (deriv c r1) r2) (deriv c r2)
      else Seq (deriv c r1) r2
  | Alt r1 r2 => Alt (deriv c r1) (deriv c r2)
  | Star r1 => Seq (deriv c r1) (Star r1)
  end.

(** [/^r$/.test(s)] *)
Fixpoint full (r : regex) (s : string) : bool :=
  match s with
  | EmptyString => nullable r
  | String c s' => full (deriv c r) s'
  end.

(** Some prefix of [s] matches [r]. *)
Fixpoint here (r : regex) (s : string) : bool :=
  nullable r ||
  match s with
  | EmptyString => false
  | String c s' => here (deriv c r) s'
  end.

(** [/r/.test(s)]: some substring of [s] matches [r]. *)
Fixpoint test (r : regex) (s : string) : bool :=
  here r s ||
  match s with
  | EmptyString => false
  | String _ s' => test r s'
  end.

(** The language of a regular expression. *)
Inductive lang : regex -> string -> Prop :=
| lang_eps : lang Eps EmptyString
| lang_cls p c : p c = true -> lang (Cls p) (String c EmptyString)
| lang_seq r1 r2 s1 s2 : lang r1 s1 -> lang r2 s2 -> lang (Seq r1 r2) (s1 +:+ s2)
| lang_alt_l r1 r2 s : lang r1 s -> lang (Alt r1 r2) s
| lang_alt_r r1 r2 s : lang r2 s -> lang (Alt r1 r2) s
| lang_star_nil r : lang (Star r) EmptyString
| lang_star_cons r s1 s2 : lang r s1 -> lang (Star r) s2 -> lang (Star r) (s1 +:+ s2).

End Regex.

(** ** priority.js *)

Module Priority.
Import JS Regex.

Definition ESO_RESPONSE_LIGHTS_SIRENS : string := "390".
Definition ESO_RESPONSE_NON_LIGHTS_SIRENS : string := "395".
Definition DEFAULT_RESPONSE_MODE : string := ESO_RESPONSE_LIGHTS_SIRENS.

(** [/non.?emergency|non.?urgent|routine|scheduled/i] *)
Definition NON_EMERGENCY_RE : regex :=
  Alt (Seq (LitI "non") (Seq (Opt Dot) (LitI "emergency")))
 (Alt (Seq (LitI "non") (Seq (Opt Dot) (LitI "urgent")))
 (Alt (LitI "routine") (LitI "scheduled"))).

(** [nature] is [Some s] exactly when [typeof nature === 'string']. *)
Definition mapPriorityToEsoCode (priorityId : prim) (nature : option string) : string :=
  let priorityIdStr := toString priorityId in
  if truthy nature && test NON_EMERGENCY_RE (or_empty nature) then
    ESO_RESPONSE_NON_LIGHTS_SIRENS
  else if String.eqb priorityIdStr "1559" then ESO_RESPONSE_NON_LIGHTS_SIRENS
  else if String.eqb priorityIdStr "1560" then ESO_RESPONSE_LIGHTS_SIRENS
  else DEFAULT_RESPONSE_MODE.

End Priority.

(** ** Raw data of the source platform *)

Module Raw.
Import JS.

(** An entry of the [Activity] array of [GetCallExtraData]. *)
Record Activity : Type := mkActivity {
  act_Type : option string;
  act_Name : option string;
  act_StatusId : prim;
  act_Timestamp : option string;
  act_StatusText : option string;
  act_Note : option string;
  act_Location : option string;
  act_Latitude : option string;
  act_Longitude : option string
}.

(** The empty object [{}]: every property is [undefined]. *)
Definition emptyActivity : Activity :=
  mkActivity None None Undefined None None None None None None.

(** An entry of the [Dispatches] array of [GetCallExtraData]. *)
Record Dispatch : Type := mkDispatch {
  disp_Type : option string;
  disp_Name : option string;
  disp_Location : option string;
  disp_EnRouteTime : option string;
  disp_ArrivedTime : option string;
  disp_AtPatientTime : option string;
  disp_ClearedTime : option string
}.

(** The [Priority] property: a primitive, or an object with [Id] and
    [Name]. *)
Inductive priority : Type :=
| PPrim (v : prim)
| PObj (Id Name : prim).

(** A call object.  The same shape serves for the data of [GetCall] and of
    [GetCallExtraData] (the sources read [Dispatches] and [Activity] from
    either); [None] in [Dispatches]/[Activity] stands for a property that is
    missing or not an array. *)
Record Call : Type := mkCall {
  CallId : option string;
  LoggedOn : option string;
  LoggedOnUtc : option string;
  call_Name : option string;
  Nature : option string;
  Note : option string;
  Address : option string;
  call_Type : option string;
  ContactName : option string;
  ContactInfo : option string;
  ExternalId : option string;
  Number : option string;
  Priority : priority;
  Geolocation : option string;
  ClosedOn : option string;
  UnitsCsv : option string;
  EnRouteTime : option string;
  ArrivedTime : option string;
  AtPatientTime : option string;
  ClearedTime : option string;
  UnitEnRouteTime : option string;
  UnitArrivedTime : option string;
  UnitAtPatientTime : option string;
  UnitClearedTime : option string;
  UnitBackInServiceTime : option string;
  BackInServiceTime : option string;
  Dispatches : option (list Dispatch);
  Activity_ : option (list Activity)
}.

(** The empty object [{}]. *)
Definition emptyCall : Call :=
  mkCall None None None None None None None None None None None None
         (PPrim Undefined) None None None None None None None None None None
         None None None None None.

(** Property key of a [Priority] value used as an index
    ([map[call.Priority]]). *)
Definition priorityKey (p : priority) : string :=
  match p with
  | PPrim v => toString v
  | PObj _ _ => "[object Object]"
  end.

Definition truthy_priority (p : priority) : bool :=
  match p with
  | PPrim v => truthy_prim v
  | PObj _ _ => true
  end.

(** [e.StatusId === n] for a number [n] *)
Definition statusIs (n : Z) (v : prim) : bool :=
  match v with
  | Num m => m =? n
  | _ => false
  end.

(** [x === 'lit'] for a possibly absent string *)
Definition strictEq (x : option string) (lit : string) : bool :=
  match x with
  | Some s => String.eqb s lit
  | None => false
  end.

End Raw.

(** ** Documents built with [xmlbuilder2]

    [create(..).ele(name).txt(value).up()...] builds a tree; its
    serialisation is the library's and is not modelled. *)

Module Xml.

#[local] Unset Elimination Schemes.
Inductive node : Type :=
| Element (name : string) (children : list node)
| Text (value : option string).
#[local] Set Elimination Schemes.

(** [.ele(name).txt(value).up()] *)
Definition ele (name : string) (value : option string) : node :=
  Element name [Text value].

Definition name_of (n : node) : string :=
  match n with
  | Element nm _ => nm
  | Text _ => EmptyString
  end.

(** The text of the first child element called [name]. *)
Fixpoint childText (name : string) (children : list node) : option (option string) :=
  match children with
  | [] => None
  | Element nm [Text v] :: rest =>
      if String.eqb nm name then Some v else childText name rest
  | _ :: rest => childText name rest
  end.

Definition field (name : string) (doc : node) : option (option string) :=
  match doc with
  | Element _ children => childText name children
  | Text _ => None
  end.

End Xml.

(** ** final-with-sheets-fix.js *)

Module FinalWithSheets.
Import JS Regex Raw Xml.

(** [stripTags]: [.replace(/<[^>]*>/g, ' ')], written as a scan.  [inTag]
    holds inside a tag whose closing [>] is known to follow. *)
Fixpoint hasGt (s : string) : bool :=
  match s with
  | EmptyString => false
  | String c s' => Ascii.eqb c ">" || hasGt s'
  end.

Fixpoint replaceTags (inTag : bool) (s : string) : string :=
  match s with
  | EmptyString => EmptyString
  | String c s' =>
      if inTag then
        if Ascii.eqb c ">" then String " " (replaceTags false s')
        else replaceTags true s'
      else if Ascii.eqb c "<" && hasGt s' then replaceTags true s'
      else String c (replaceTags false s')
  end.

(** [.replace(/\s+/g, ' ')] *)
Fixpoint collapseSpaces (prevSpace : bool) (s : string) : string :=
  match s with
  | EmptyString => EmptyString
  | String c s' =>
      if is_space c then
        if prevSpace then collapseSpaces true s'
        else String " " (collapseSpaces true s')
      else String c (collapseSpaces false s')
  end.

Definition stripTags (html : option string) : string :=
  trim (collapseSpaces false (replaceTags false (or_empty (or_else html (Some EmptyString))))).

(** [activityEvent(act, statusIdOrRegex)]: the first entry with the given
    [StatusId], or the first whose [StatusText || Type || Note || '']
    matches the expression; [{}] when there is none. *)
Definition activityEvent (act : list Activity) (statusIdOrRegex : Z + regex) : Activity :=
  match statusIdOrRegex with
  | inl n =>
      default emptyActivity (List.find (fun e => statusIs n (act_StatusId e)) act)
  | inr re =>
      default emptyActivity
        (List.find
           (fun e => test re (or_empty (or_else (act_StatusText e)
                                       (or_else (act_Type e) (or_else (act_Note e) (Some EmptyString))))))
           act)
  end.

(** [safeCoords(o)] *)
Definition safeCoords (o : Activity) : string * string :=
  (or_empty (or_else (act_Latitude o) (Some EmptyString)),
   or_empty (or_else (act_Longitude o) (Some EmptyString))).

(** [new Set(allUnits)] spread back into an array: insertion order, an
    element already present is not added again. *)
Definition setAdd (s : list (option string)) (x : option string) : list (option string) :=
  if bool_decide (x ∈ s) then s else s ++ [x].

Definition newSet (l : list (option string)) : list (option string) :=
  fold_left setAdd l [].

(** [activity.filter(a => a.Type === 'Unit').map(a => a.Name)] *)
Definition activityUnits (activity : list Activity) : list (option string) :=
  act_Name <$> List.filter (fun a => strictEq (act_Type a) "Unit") activity.

(** The [forEach] over [call.Dispatches] that pushes the names of the
    dispatches of type ['Unit'] with a truthy [Name]. *)
Definition dispatchUnits (call : Call) : list (option string) :=
  match Dispatches call with
  | Some ds =>
      disp_Name <$> List.filter (fun d => strictEq (disp_Type d) "Unit" && truthy (disp_Name d)) ds
  | None => []
  end.

Definition uniqueUnits (call : Call) (activity : list Activity) : list (option string) :=
  newSet (activityUnits activity ++ dispatchUnits call).

(** [array.join(', ')]: [undefined] elements are written as empty. *)
Definition unitsCsv (call : Call) (activity : list Activity) : string :=
  match uniqueUnits call activity with
  | [] => "No Units"
  | us => join ", " (or_empty <$> us)
  end.

(** First truthy value of a chain [a || b || ... || ''] *)
Fixpoint firstTruthy (l : list (option string)) : string :=
  match l with
  | [] => EmptyString
  | x :: rest => if truthy x then or_empty x else firstTruthy rest
  end.

(** The five lifecycle timestamps. *)
Record Times : Type := mkTimes {
  enRoute : string;
  onScene : string;
  atPatient : string;
  cleared : string;
  backInService : string
}.

(** Timestamps as derived in [generateXML]. *)
Definition generateXML_times (call : Call) (activity : list Activity) : Times :=
  let enRouteEvt := activityEvent activity (inl 5) in
  let onSceneEvt := activityEvent activity (inl 6) in
  let atPatientEvt := activityEvent activity (inl 3) in
  let clearedEvt := activityEvent activity (inl 8) in
  let returningEvt := activityEvent activity (inl 9) in
  let availableEvt := activityEvent activity (inl 2) in
  {| enRoute := firstTruthy [act_Timestamp enRouteEvt];
     onScene := firstTruthy [act_Timestamp onSceneEvt];
     atPatient := firstTruthy [act_Timestamp atPatientEvt; act_Timestamp onSceneEvt];
     cleared := firstTruthy [act_Timestamp clearedEvt; act_Timestamp returningEvt;
                             act_Timestamp availableEvt; ClosedOn call];
     backInService := firstTruthy [act_Timestamp returningEvt; act_Timestamp availableEvt;
                                   act_Timestamp clearedEvt] |}.

(** Timestamps as derived in [logCallData]. *)
Definition logCallData_times (call : Call) (activity : list Activity) : Times :=
  let enRouteEvent := activityEvent activity (inl 5) in
  let onSceneEvent := activityEvent activity (inl 6) in
  let atPatientEvent := activityEvent activity (inl 3) in
  let clearedEvent := activityEvent activity (inl 8) in
  let returningEvent := activityEvent activity (inl 9) in
  let availableEvent := activityEvent activity (inl 2) in
  let backInServiceEvent :=
    if truthy (act_Timestamp returningEvent) then returningEvent else availableEvent in
  {| enRoute := firstTruthy [act_Timestamp enRouteEvent];
     onScene := firstTruthy [act_Timestamp onSceneEvent];
     atPatient := firstTruthy [act_Timestamp atPatientEvent; act_Timestamp onSceneEvent];
     cleared := firstTruthy [act_Timestamp clearedEvent; ClosedOn call];
     backInService := firstTruthy [act_Timestamp backInServiceEvent] |}.

(** [const priorityMap = { '1560': '390', '1559': '395' }]: its own
    properties. *)
Definition priorityMap : gmap string string :=
  <["1560" := "390"]> (<["1559" := "395"]> ∅).

(** [priorityMap[call.Priority] || '395'], as [txt()] writes it. *)
Definition generateXML_responseMode (call : Call) : string :=
  memberText (memberOr (getProperty priorityMap (priorityKey (Priority call))) "395").

(** The response mode of [logCallData]. *)
Definition logCallData_responseMode (call : Call) : string :=
  let responseMode := "395" in
  let responseMode :=
    if truthy (Nature call) && test Priority.NON_EMERGENCY_RE (stripTags (Nature call))
    then "390" else responseMode in
  let responseMode :=
    match Priority call with
    | PPrim (Str "1559") => "390"
    | _ => responseMode
    end in
  responseMode.

(** Patient name as split in [generateXML]. *)
Definition generateXML_name (call : Call) : string * string :=
  let contactName := or_empty (or_else (ContactName call) (Some EmptyString)) in
  if truthy (Some contactName) then
    match split " " (trim contactName) with
    | [p] => (p, EmptyString)
    | p :: ps => (p, join " " ps)
    | [] => (EmptyString, EmptyString)
    end
  else (EmptyString, EmptyString).

(** Patient name as split in [logCallData]. *)
Definition logCallData_name (call : Call) : string * string :=
  if truthy (ContactName call) then
    match split " " (trim (or_empty (ContactName call))) with
    | p :: ps => (p, join " " ps)
    | [] => (EmptyString, EmptyString)
    end
  else (EmptyString, EmptyString).

Section WithAddressParser.

(** [parseAddress] and the identical expression inlined in [logCallData]
    (one regular expression with four capture groups: street, city,
    two-letter state, five-digit zip) are taken as a parameter: from the
    cleaned address to [(a1, city, state, zip)]. *)
Variable parseAddress : string -> string * string * string * string.

Definition GUID : string := "b394de98-a5b7-408d-a1f2-020eddff92b9".

(** [generateXML(call, activity)]: the document handed to the
    serialiser. *)
Definition generateXML (call : Call) (activity : list Activity) : node :=
  let t := generateXML_times call activity in
  let enRouteEvt := activityEvent activity (inl 5) in
  let onSceneEvt := activityEvent activity (inl 6) in
  let dispEvt := if truthy (act_Timestamp enRouteEvt) then enRouteEvt else onSceneEvt in
  let sceneEvt := if truthy (act_Timestamp onSceneEvt) then onSceneEvt else dispEvt in
  let coords := split "," (or_empty (or_else (Geolocation call) (Some EmptyString))) in
  let lat0 := coords !! 0%nat in
  let lng0 := coords !! 1%nat in
  let '(dLat, dLng) := safeCoords dispEvt in
  let '(sLat, sLng) := safeCoords sceneEvt in
  let '(firstName, lastName) := generateXML_name call in
  let units := unitsCsv call activity in
  let cleanAddr := trim (stripLineBreaks (or_empty (or_else (Address call) (Some EmptyString)))) in
  let '(a1, city, state, zip) := parseAddress cleanAddr in
  let nat_ := stripTags (or_else (Nature call) (or_else (call_Name call) (Some EmptyString))) in
  let notes := stripTags (or_else (Note call) (Some EmptyString)) in
  let desc := if truthy (Some notes) then nat_ +:+ " - " +:+ notes else nat_ in
  Element "CadIncident"
    [ ele "Guid" (Some GUID);
      ele "IncidentNumber" (CallId call);
      ele "IncidentOrOnset" (LoggedOn call);
      ele "DispatchNotified" (LoggedOn call);
      ele "ComplaintReportedByDispatch" (call_Type call);
      ele "VehicleDispatchLocation" (Some cleanAddr);
      ele "IncidentAddress1" (Some a1);
      ele "IncidentAddress2" (Some EmptyString);
      ele "IncidentCity" (Some city);
      ele "IncidentState" (Some state);
      ele "IncidentZip" (Some zip);
      ele "IncidentCounty" (Some EmptyString);
      ele "CadDispatchText" (Some nat_);
      ele "EmsUnitCallSign" (Some units);
      ele "UnitNotifiedByDispatch" (Some units);
      ele "Priority" (Some (generateXML_responseMode call));
      ele "ResponseModeToScene" (Some (generateXML_responseMode call));
      ele "CrossStreets" (Some EmptyString);
      ele "CallNature" (call_Name call);
      ele "CallNatureDescription" (Some desc);
      ele "UnitEnRoute" (Some (enRoute t));
      ele "UnitArrivedOnScene" (Some (onScene t));
      ele "UnitAtPatient" (Some (atPatient t));
      ele "UnitCleared" (Some (cleared t));
      ele "UnitBackInService" (Some (backInService t));
      ele "SceneGpsLocationLat" (Some (firstTruthy [Some sLat; lat0]));
      ele "SceneGpsLocationLong" (Some (firstTruthy [Some sLng; lng0]));
      ele "VehicleDispatchGpsLocationLat" (Some (firstTruthy [Some dLat; lat0]));
      ele "VehicleDispatchGpsLocationLong" (Some (firstTruthy [Some dLng; lng0]));
      ele "CallClosedTime" (Some (firstTruthy [ClosedOn call]));
      ele "RunNumber" (Some (firstTruthy [Number call]));
      Element "GeoLocation"
        [ ele "Latitude" (Some (firstTruthy [lat0; Some "0"]));
          ele "Longitude" (Some (firstTruthy [lng0; Some "0"])) ];
      ele "PatientFirstName" (Some firstName);
      ele "PatientLastName" (Some lastName);
      ele "PatientPhone" (Some (firstTruthy [ContactInfo call]));
      ele "PatientDOB" (Some (firstTruthy [ExternalId call])) ].

(** [rowData] of [logCallData(call, activity, dispatches)], in the column
    order of the sheet; [lastUpdated] is [new Date().toISOString()].
    The find-or-append against the sheet that follows is not modelled. *)
Definition logCallData_rowData (call : Call) (activity : list Activity)
    (lastUpdated : string) : list (option string) :=
  let t := logCallData_times call activity in
  let enRouteEvent := activityEvent activity (inl 5) in
  let onSceneEvent := activityEvent activity (inl 6) in
  let unitLocation :=
    trim (firstTruthy [act_Location enRouteEvent; act_Location onSceneEvent]) in
  let addressStr := trim (stripLineBreaks (or_empty (or_else (Address call) (Some EmptyString)))) in
  let '(address, city, state, zip) := parseAddress addressStr in
  let coords :=
    (fun c => if truthy (Some c) then trim c else EmptyString)
      <$> split "," (or_empty (or_else (Geolocation call) (Some EmptyString))) in
  let latitude := coords !! 0%nat in
  let longitude := coords !! 1%nat in
  let '(firstName, lastName) := logCallData_name call in
  [ LoggedOn call;
    CallId call;
    call_Type call;
    Some (stripTags (or_else (Nature call) (Some EmptyString)));
    Some (stripTags (or_else (Note call) (Some EmptyString)));
    Some address;
    Some city;
    Some state;
    Some zip;
    Some EmptyString;
    Some (logCallData_responseMode call);
    Some (unitsCsv call activity);
    Some unitLocation;
    Some (enRoute t);
    Some (onScene t);
    Some (atPatient t);
    Some (cleared t);
    Some (backInService t);
    Some (firstTruthy [latitude]);
    Some (firstTruthy [longitude]);
    Some firstName;
    Some lastName;
    Some (firstTruthy [ContactInfo call]);
    Some (firstTruthy [ExternalId call]);
    Some (firstTruthy [Number call]);
    Some lastUpdated ].

End WithAddressParser.

End FinalWithSheets.

(** ** Input shapes shared by the single-unit serializer and sheet writer *)

Module Shapes.
Import JS Raw.

(** The first argument: [{Data: ..}], [{GetCall: {Data: ..},
    GetCallExtraData: {Data: ..}}], or the call itself. *)
Inductive callInput : Type :=
| Wrapped (data : Call)
| Combined (getCall : Call) (getCallExtraData : option Call)
| Direct (data : Call).

(** The second argument: an object that may carry a [Data] property and
    that is itself read as the extra data otherwise.  The default [{}] is
    [noExtra]. *)
Record extraInput : Type := mkExtra {
  extra_Data : option Call;
  extra_self : Call
}.

Definition noExtra : extraInput := mkExtra None emptyCall.

Definition callGetData (callData : callInput) : Call :=
  match callData with
  | Wrapped d => d
  | Combined d _ => d
  | Direct d => d
  end.

Definition extraGetData (callData : callInput) (extraData : extraInput) : Call :=
  match callData with
  | Wrapped d => default d (extra_Data extraData)
  | Combined _ x => default emptyCall x
  | Direct _ => extra_self extraData
  end.

(** [/^[a-zA-Z0-9]+$/] *)
Definition ALNUM_RE : Regex.regex :=
  Regex.Plus (Regex.Cls isAlnum).

(** [u.length <= 9 && /^[a-zA-Z0-9]+$/.test(u)] *)
Definition validUnitName (u : string) : bool :=
  bool_decide (String.length u ≤ 9)%nat && Regex.full ALNUM_RE u.

(** The address split on commas: [(streetAddress, city, state, zip)]. *)
Definition parseAddress (address : string) : string * string * string * string :=
  if truthy (Some address) then
    let addressParts := trim <$> split "," address in
    let streetAddress := or_empty (addressParts !! 0%nat) in
    if bool_decide (3 ≤ length addressParts)%nat then
      let city := or_empty (addressParts !! 1%nat) in
      if truthy (addressParts !! 2%nat) then
        let stateZipParts :=
          List.filter (fun p => truthy (Some p)) (split " " (or_empty (addressParts !! 2%nat))) in
        (streetAddress, city, or_empty (stateZipParts !! 0%nat), or_empty (stateZipParts !! 1%nat))
      else (streetAddress, city, EmptyString, EmptyString)
    else (streetAddress, EmptyString, EmptyString, EmptyString)
  else (EmptyString, EmptyString, EmptyString, EmptyString).

(** Patient name split on spaces. *)
Definition splitName (contact : option string) : string * string :=
  let contactName := or_empty (or_else contact (Some EmptyString)) in
  if truthy (Some contactName) then
    match split " " (trim contactName) with
    | [p] => (p, EmptyString)
    | p :: ps => (p, join " " ps)
    | [] => (EmptyString, EmptyString)
    end
  else (EmptyString, EmptyString).

(** [Geolocation] split on the comma: both parts when there are exactly
    two. *)
Definition parseGeolocation (g : option string) : string * string :=
  if truthy g then
    match split "," (or_empty g) with
    | [la; lo] => (la, lo)
    | _ => (EmptyString, EmptyString)
    end
  else (EmptyString, EmptyString).

(** Unit name chosen from [UnitsCsv]: the first trimmed piece that is a
    valid name. *)
Definition unitFromCsv (call : Call) : string :=
  if truthy (UnitsCsv call) then
    let unitsList := trim <$> split "," (or_empty (UnitsCsv call)) in
    match List.find validUnitName unitsList with
    | Some validUnit => if truthy (Some validUnit) then validUnit else EmptyString
    | None => EmptyString
    end
  else EmptyString.

(** [extraGetData.Dispatches.filter(..)]: unit dispatches with a valid
    name. *)
Definition validUnits (ds : list Dispatch) : list Dispatch :=
  List.filter
    (fun d => strictEq (disp_Type d) "Unit" && truthy (disp_Name d)
              && validUnitName (or_empty (disp_Name d)))
    ds.

(** Values carried from unit selection into the timestamp steps. *)
Record Unit : Type := mkUnit {
  unitName : string;
  unitLocation : string;
  unitEnRouteTime : string;
  unitArrivedOnSceneTime : string;
  unitAtPatientTime : string;
  unitClearedTime : string;
  unitBackInServiceTime : string
}.

(** [if (x) v = x]: assignment guarded by truthiness. *)
Definition setIf (x : option string) (v : string) : string :=
  if truthy x then or_empty x else v.

(** [if (!v && x) v = x] *)
Definition setIfEmpty (v : string) (x : option string) : string :=
  if negb (truthy (Some v)) && truthy x then or_empty x else v.

(** Unit selection: [UnitsCsv] first, the [Dispatches] array when that
    gave nothing. *)
Definition selectUnit (call extra : Call) : Unit :=
  let u := mkUnit (unitFromCsv call) EmptyString EmptyString EmptyString EmptyString
                  EmptyString EmptyString in
  match Dispatches extra with
  | Some ds =>
      if negb (truthy (Some (unitName u))) then
        match validUnits ds with
        | d :: _ =>
            mkUnit (or_empty (disp_Name d))
                   (or_empty (or_else (disp_Location d) (Some EmptyString)))
                   (setIf (disp_EnRouteTime d) EmptyString)
                   (setIf (disp_ArrivedTime d) EmptyString)
                   (setIf (disp_AtPatientTime d) EmptyString)
                   (setIf (disp_ClearedTime d) EmptyString)
                   EmptyString
        | [] => u
        end
      else u
  | None => u
  end.

(** The names the selection chooses from: the trimmed pieces of
    [UnitsCsv], then the names of the dispatches of type ['Unit']. *)
Definition candidates (call extra : Call) : list string :=
  (if truthy (UnitsCsv call) then trim <$> split "," (or_empty (UnitsCsv call)) else [])
  ++ match Dispatches extra with
     | Some ds =>
         (fun d => or_empty (disp_Name d))
           <$> List.filter (fun d => strictEq (disp_Type d) "Unit" && truthy (disp_Name d)) ds
     | None => []
     end.

Definition backInServiceKeywords : list string :=
  ["returning"; "available"; "cleared"; "in service"; "in quarter"; "complete"].

(** Timestamps read from the [Activity] array for the selected unit. *)
Definition applyActivity (extra : Call) (u : Unit) : Unit :=
  match Activity_ extra with
  | Some acts =>
      let validUnitActivities :=
        List.filter
          (fun a => strictEq (act_Type a) "Unit"
                    && bool_decide (act_Name a = Some (unitName u))
                    && truthy (act_Timestamp a)
                    && truthy_prim (act_StatusId a))
          acts in
      let enRouteActivity := List.find (fun a => statusIs 5 (act_StatusId a)) validUnitActivities in
      let onSceneActivity := List.find (fun a => statusIs 6 (act_StatusId a)) validUnitActivities in
      let backInServiceByKeyword :=
        List.find
          (fun a => truthy (act_StatusText a)
                    && existsb (fun keyword => includes keyword (toLowerCase (or_empty (act_StatusText a))))
                               backInServiceKeywords)
          validUnitActivities in
      let availableActivity := List.find (fun a => statusIs 2 (act_StatusId a)) validUnitActivities in
      let fromFound (o : option Activity) (v : string) : string :=
        match o with
        | Some a => setIf (act_Timestamp a) v
        | None => v
        end in
      mkUnit (unitName u) (unitLocation u)
             (fromFound enRouteActivity (unitEnRouteTime u))
             (fromFound onSceneActivity (unitArrivedOnSceneTime u))
             (unitAtPatientTime u)
             (unitClearedTime u)
             (match backInServiceByKeyword with
              | Some a =>
                  if truthy (act_Timestamp a) then or_empty (act_Timestamp a)
                  else fromFound availableActivity (unitBackInServiceTime u)
              | None => fromFound availableActivity (unitBackInServiceTime u)
              end)
  | None => u
  end.

(** Fallbacks to the timestamps carried by the call itself. *)
Definition applyCallTimes (call : Call) (u : Unit) : Unit :=
  let enRoute := setIfEmpty (setIfEmpty (unitEnRouteTime u) (EnRouteTime call)) (UnitEnRouteTime call) in
  let arrived := setIfEmpty (setIfEmpty (unitArrivedOnSceneTime u) (ArrivedTime call)) (UnitArrivedTime call) in
  let atPatient := setIfEmpty (setIfEmpty (unitAtPatientTime u) (AtPatientTime call)) (UnitAtPatientTime call) in
  let cleared := setIfEmpty (setIfEmpty (unitClearedTime u) (ClearedTime call)) (UnitClearedTime call) in
  let back := setIfEmpty (setIfEmpty (unitBackInServiceTime u) (UnitBackInServiceTime call))
                         (BackInServiceTime call) in
  let back := setIfEmpty back (Some cleared) in
  mkUnit (unitName u) (unitLocation u) enRoute arrived atPatient cleared back.

(** Unit name and lifecycle timestamps of the single-unit variants. *)
Definition deriveUnit (call extra : Call) : Unit :=
  applyCallTimes call (applyActivity extra (selectUnit call extra)).

End Shapes.

(** ** src/xml-generator.js *)

Module XmlGenerator.
Import JS Regex Raw Shapes.

(** Priority id: ["1560"] when missing, [Priority.Id.toString()] for an
    object with a truthy [Id], [Priority.toString()] otherwise. *)
Definition priorityId (call : Call) : string :=
  if truthy_priority (Priority call) then
    match Priority call with
    | PObj Id _ => if truthy_prim Id then toString Id else "[object Object]"
    | PPrim v => toString v
    end
  else "1560".

(** The own properties of [responseModeMap]. *)
Definition responseModeMap : gmap string string :=
  <["1559" := "395"]> (<["1560" := "390"]> ∅).

(** [responseMode], as the template interpolates it. *)
Definition responseMode (call : Call) : string :=
  let nature := or_empty (or_else (Nature call) (Some EmptyString)) in
  let responseMode :=
    if truthy (Some nature) && test Priority.NON_EMERGENCY_RE nature then "395" else "390" in
  if String.eqb responseMode "390" then
    memberText (memberOr (getProperty responseModeMap (priorityId call)) "390")
  else responseMode.

Definition quote : string := String "034" EmptyString.
Definition newline : string := String "010" EmptyString.

(** One line of the template: [  <name>value</name>] *)
Definition line (name value : string) : string :=
  "  <" +:+ name +:+ ">" +:+ value +:+ "</" +:+ name +:+ ">".

Definition header : list string :=
  [ "<?xml version=" +:+ quote +:+ "1.0" +:+ quote +:+ " encoding=" +:+ quote +:+ "UTF-8"
      +:+ quote +:+ "?>";
    "<CadIncident xmlns_xsi=" +:+ quote +:+ "http://www.w3.org/2001/XMLSchema-instance"
      +:+ quote +:+ ">" ].

Section WithDate.

(** [new Date(externalId)]: the date part of its [toISOString()] when
    the date is valid. *)
Variable isoDate : string -> option string.

Definition formattedDOB (call : Call) : string :=
  let externalId := or_empty (or_else (ExternalId call) (Some EmptyString)) in
  if truthy (Some externalId) then default EmptyString (isoDate externalId)
  else EmptyString.

(** The fields of the template, in order, with the values interpolated. *)
Definition fields (callData : callInput) (extraData : extraInput) : list (string * string) :=
  let call := callGetData callData in
  let extra := extraGetData callData extraData in
  let callId := or_empty (or_else (CallId call) (Some EmptyString)) in
  let loggedOn := or_empty (or_else (LoggedOn call) (or_else (LoggedOnUtc call) (Some EmptyString))) in
  let name := or_empty (or_else (call_Name call) (Some EmptyString)) in
  let nature := or_empty (or_else (Nature call) (Some EmptyString)) in
  let note := or_empty (or_else (Note call) (Some EmptyString)) in
  let address := stripLineBreaks (or_empty (or_else (Address call) (Some EmptyString))) in
  let '(patientFirstName, patientLastName) := splitName (ContactName call) in
  let '(streetAddress, city, state, zip) := parseAddress address in
  let '(latitude, longitude) := parseGeolocation (Geolocation call) in
  let u := deriveUnit call extra in
  let callNatureDescription :=
    nature +:+ (if truthy (Some note) then " - " +:+ note else EmptyString) in
  [ ("IncidentNumber", callId);
    ("IncidentOrOnset", loggedOn);
    ("DispatchNotified", loggedOn);
    ("IncidentAddress1", streetAddress);
    ("IncidentCity", city);
    ("IncidentState", state);
    ("IncidentZip", zip);
    ("CadDispatchText", nature);
    ("EmsUnitCallSign", unitName u);
    ("UnitNotifiedByDispatch", loggedOn);
    ("ResponseModeToScene", responseMode call);
    ("CallNature", name);
    ("CallNatureDescription", callNatureDescription);
    ("UnitEnRoute", unitEnRouteTime u);
    ("UnitArrivedOnScene", unitArrivedOnSceneTime u);
    ("UnitAtPatient", unitAtPatientTime u);
    ("UnitCleared", unitClearedTime u);
    ("UnitBackInService", unitBackInServiceTime u);
    ("SceneGpsLocationLat", latitude);
    ("SceneGpsLocationLong", longitude);
    ("PatientFirstName", patientFirstName);
    ("PatientLastName", patientLastName);
    ("PatientDOB", formattedDOB call) ].

(** [generateXML(callData, extraData)]: the template string. *)
Definition generateXML (callData : callInput) (extraData : extraInput) : string :=
  join newline
    (header ++ (uncurry line <$> fields callData extraData) ++ ["</CadIncident>"]).

End WithDate.

End XmlGenerator.

(** ** sheets-logger-new.js *)

Module SheetsLogger.
Import JS Raw Shapes.

(** [priorityId] of [sheetCallRow]: an object is read only when it has a
    truthy [Name]. *)
Definition priorityId (call : Call) : string :=
  if truthy_priority (Priority call) then
    match Priority call with
    | PObj Id Name =>
        if truthy_prim Name then (if truthy_prim Id then toString Id else "1560")
        else "[object Object]"
    | PPrim v => toString v
    end
  else "1560".

Definition priorityText (call : Call) : string :=
  if truthy_priority (Priority call) then
    match Priority call with
    | PObj Id Name =>
        if truthy_prim Name then toString Name else "[object Object]"
    | PPrim v =>
        if String.eqb (toString v) "1560" then "Emergent"
        else if String.eqb (toString v) "1559" then "Non-emergent"
        else toString v
    end
  else EmptyString.

(** The own properties of [responseModeMap]. *)
Definition responseModeMap : gmap string string :=
  <["1560" := "390"]> (<["1559" := "395"]> ∅).

(** [responseModeMap[priorityId] || "390"] *)
Definition responseMode (call : Call) : member :=
  memberOr (getProperty responseModeMap (priorityId call)) "390".

Definition responseModeText (call : Call) : string :=
  if memberIs (responseMode call) "390" then "Lights & Sirens" else "No Lights & Sirens".

(** The code a response-mode label stands for. *)
Definition codeOfLabel (label : string) : option string :=
  if String.eqb label "Lights & Sirens" then Some "390"
  else if String.eqb label "No Lights & Sirens" then Some "395"
  else None.

(** The row appended by [sheetCallRow(callData, extraData)]; [timestamp] is
    [new Date().toISOString()]. *)
Definition sheetCallRow_values (callData : callInput) (extraData : extraInput)
    (timestamp : string) : list string :=
  let call := callGetData callData in
  let extra := extraGetData callData extraData in
  let callId := or_empty (or_else (CallId call) (Some EmptyString)) in
  let callType := or_empty (or_else (call_Type call) (Some EmptyString)) in
  let nature := or_empty (or_else (Nature call) (Some EmptyString)) in
  let note := or_empty (or_else (Note call) (Some EmptyString)) in
  let address := stripLineBreaks (or_empty (or_else (Address call) (Some EmptyString))) in
  let '(_, city, state, zip) := parseAddress address in
  let '(latitude, longitude) := parseGeolocation (Geolocation call) in
  let u := deriveUnit call extra in
  let contactInfo := or_empty (or_else (ContactInfo call) (Some EmptyString)) in
  let externalId := or_empty (or_else (ExternalId call) (Some EmptyString)) in
  let '(patientFirstName, patientLastName) := splitName (ContactName call) in
  [ timestamp; callId; callType; nature; note; address; city; state; zip;
    priorityText call; responseModeText call; unitName u; unitLocation u;
    unitEnRouteTime u; unitArrivedOnSceneTime u; unitAtPatientTime u;
    unitClearedTime u; unitBackInServiceTime u; latitude; longitude;
    patientFirstName; patientLastName; contactInfo; externalId ].

End SheetsLogger.

(** ** src/logger.js *)

Module Logger.

(** An object is seen through the names of its properties that hold
    functions: calling any other property throws a [TypeError]. *)

(** [enhancedLogger] *)
Definition enhancedLogger : list string :=
  ["info"; "warn"; "error"; "debug"; "log"].

(** [module.exports = { logger: enhancedLogger, legacyLog }]: of its two
    properties, [logger] holds an object and [legacyLog] a function. *)
Definition moduleExports : list string :=
  ["legacyLog"].

End Logger.

(** ** src/retry-util.js *)

Module RetryUtil.

(** The numbers of the delay computation.  The options are integers below
    [2^53] in magnitude, so they and their products with a power of two
    are exact; a product of magnitude [2^1024] or more is infinite. *)
Inductive number : Type :=
| Finite (z : Z)
| PosInfinity
| NegInfinity
| NaN.

Definition overflow : Z := 2 ^ 1024.

(** [Math.pow(2, n)] for a retry count [n >= 0] *)
Definition pow2 (n : Z) : number :=
  if n <? 1024 then Finite (2 ^ n) else PosInfinity.

(** [a * b] *)
Definition times (a : Z) (b : number) : number :=
  match b with
  | Finite q =>
      if Z.abs (a * q) <? overflow then Finite (a * q)
      else if 0 <? a * q then PosInfinity else NegInfinity
  | PosInfinity => if a =? 0 then NaN else if 0 <? a then PosInfinity else NegInfinity
  | NegInfinity => if a =? 0 then NaN else if 0 <? a then NegInfinity else PosInfinity
  | NaN => NaN
  end.

(** [Math.min(a, m)] *)
Definition minWith (a : number) (m : Z) : number :=
  match a with
  | Finite z => Finite (Z.min z m)
  | PosInfinity => Finite m
  | NegInfinity => NegInfinity
  | NaN => NaN
  end.

(** The options of [withRetry], after defaults. *)
Record options (E : Type) : Type := mkOptions {
  maxRetries : Z;
  initialDelay : Z;
  maxDelay : Z;
  exponential : bool;
  shouldRetry : E -> bool
}.
Arguments mkOptions {E}.
Arguments maxRetries {E}.
Arguments initialDelay {E}.
Arguments maxDelay {E}.
Arguments exponential {E}.
Arguments shouldRetry {E}.

(** Defaults of the destructuring: 3 retries, 1000 ms, 30000 ms,
    exponential, always retry. *)
Definition defaults (E : Type) : options E :=
  mkOptions 3 1000 30000 true (fun _ => true).

(** What the wrapper does besides logging: each call of [fn] and each
    [setTimeout] with its delay argument, in order. *)
Inductive event : Type :=
| Attempt
| Sleep (delay : number).

(** A settled promise: resolved with a value, or rejected with an error
    ([None] for [undefined]). *)
Inductive outcome (A E : Type) : Type :=
| Resolved (a : A)
| Rejected (e : option E).
Arguments Resolved {A E}.
Arguments Rejected {A E}.

Section WithRetry.
Context {W A E : Type}.

(** The object the module-level name [logger] is bound to. *)
Variable logger : list string.

(** The [TypeError] with the given message, as a thrown value. *)
Variable typeError : string -> E.

(** [fn]: an operation on the outside world [W] that returns or throws. *)
Variable fn : W -> (A + E) * W.
Variable opts : options E.

(** [logger.method(...)] goes through. *)
Definition callable (method : string) : bool :=
  existsb (String.eqb method) logger.

(** [delay] of the [catch] block at a given [retryCount]. *)
Definition delay (retryCount : Z) : number :=
  if exponential opts then minWith (times (initialDelay opts) (pow2 retryCount)) (maxDelay opts)
  else Finite (initialDelay opts).

(** The [try] block: the log line of a retry, then [return await fn()].
    What it throws goes to [catch]. *)
Definition attempt (retryCount : Z) (w : W) : (A + E) * W * list event :=
  if (0 <? retryCount) && negb (callable "info")
  then (inr (typeError "logger.info is not a function"), w, [])
  else let '(result, w') := fn w in (result, w', [Attempt]).

(** The [while (retryCount <= maxRetries)] loop; [throw lastError] after
    it. *)
Equations? loop (retryCount : Z) (lastError : option E) (w : W) (trace : list event)
  : outcome A E * W * list event
  by wf (Z.to_nat (maxRetries opts + 1 - retryCount)) lt :=
loop retryCount lastError w trace with Z_le_gt_dec retryCount (maxRetries opts) := {
  | left Hle with attempt retryCount w := {
      | (inl a, w', tried) => (Resolved a, w', trace ++ tried)
      | (inr error, w', tried) =>
          if (retryCount >=? maxRetries opts) || negb (shouldRetry opts error)
          then
            if callable "error" then (Rejected (Some error), w', trace ++ tried)
            else (Rejected (Some (typeError "logger.error is not a function")), w',
                  trace ++ tried)
          else
            if callable "warn"
            then loop (retryCount + 1) (Some error) w'
                      (trace ++ tried ++ [Sleep (delay retryCount)])
            else (Rejected (Some (typeError "logger.warn is not a function")), w',
                  trace ++ tried) };
  | right _ => (Rejected lastError, w, trace) }.
Proof. lia. Qed.

(** [withRetry(fn, options)] for a given binding of [logger]. *)
Definition withRetryUsing (w : W) : outcome A E * W * list event :=
  loop 0 None w [].

End WithRetry.

(** [const logger = require('./logger')]: the module object itself. *)
Definition logger : list string := Logger.moduleExports.

(** [withRetry(fn, options)] *)
Definition withRetry {W A E : Type} (typeError : string -> E) (fn : W -> (A + E) * W)
    (opts : options E) (w : W) : outcome A E * W * list event :=
  withRetryUsing logger typeError fn opts w.

(** The trace of a run in which the attempts at retry counts
    [rc, ..., rc + n] all fail: [n] failures followed by a wait, then the
    last failure. *)
Fixpoint failingRun (delayAt : Z -> number) (n : nat) (rc : Z) : list event :=
  match n with
  | O => [Attempt]
  | S n' => Attempt :: Sleep (delayAt rc) :: failingRun delayAt n' (rc + 1)
  end.

Definition attempts (trace : list event) : nat :=
  length (List.filter (fun ev => match ev with Attempt => true | Sleep _ => false end) trace).

Fixpoint delays (trace : list event) : list number :=
  match trace with
  | [] => []
  | Attempt :: rest => delays rest
  | Sleep d :: rest => d :: delays rest
  end.

End RetryUtil.

(** ** src/sftp-client.js *)

Module SftpClient.
Import JS RetryUtil.

Definition nonRetryableErrors : list string :=
  ["authentication"; "permission denied"; "invalid credentials"; "authorization";
   "access denied"].

(** [shouldRetry] of the upload, on the error's message. *)
Definition uploadShouldRetry (message : string) : bool :=
  negb (existsb (fun phrase => includes phrase (toLowerCase message)) nonRetryableErrors).

Definition uploadOptions : options string :=
  mkOptions 5 3000 60000 true uploadShouldRetry.

(** [`${filePath}:${remoteFilePath}`] *)
Definition cacheKey (filePath remoteFilePath : string) : string :=
  filePath +:+ ":" +:+ remoteFilePath.

Section WithWorld.

(** The server side of the transfer. *)
Variable World : Type.

(** [calculateFileFingerprint(filePath)]: the SHA-256 digest of the
    file, or [None] when reading it fails (the promise rejects). *)
Variable calculateFileFingerprint : string -> option string.

(** The body handed to [withRetry] (connect, create the directory, put,
    disconnect): it returns [true] or throws an error, kept as its
    message. *)
Variable transfer : string -> string -> World -> (bool + string) * World.

(** [hasFileChanged(filePath, remoteFilePath)] on the module-level map
    [fileFingerprints]. *)
Definition hasFileChanged (filePath remoteFilePath : string)
    (fileFingerprints : gmap string string) : bool * gmap string string :=
  match calculateFileFingerprint filePath with
  | Some newFingerprint =>
      let key := cacheKey filePath remoteFilePath in
      let oldFingerprint := fileFingerprints !! key in
      let fileFingerprints := <[key := newFingerprint]> fileFingerprints in
      if negb (truthy oldFingerprint) then (true, fileFingerprints)
      else (negb (String.eqb newFingerprint (or_empty oldFingerprint)), fileFingerprints)
  | None => (true, fileFingerprints)
  end.

(** [uploadFileToSFTP(localFilePath, remoteFilePath)]: the settled
    promise, the cache, the world and what the retry wrapper did. *)
Definition uploadFileToSFTP (localFilePath remoteFilePath : string)
    (fileFingerprints : gmap string string) (w : World)
  : outcome bool string * gmap string string * World * list event :=
  let '(hasChanged, fileFingerprints) :=
    hasFileChanged localFilePath remoteFilePath fileFingerprints in
  if negb hasChanged then (Resolved false, fileFingerprints, w, [])
  else
    let '(result, w', trace) :=
      withRetry (fun message => message) (transfer localFilePath remoteFilePath)
                uploadOptions w in
    (result, fileFingerprints, w', trace).

End WithWorld.

End SftpClient.

(** ** The classification rule in words

    The response classification as the specification words it, to be
    compared with [Priority.mapPriorityToEsoCode], and the reading of the
    regular expression of the source. *)

Module Classification.
Import JS.

Definition keywords : list string :=
  ["non-emergency"; "non emergency"; "non-urgent"; "non urgent"; "routine"; "scheduled"].

(** The nature contains one of the listed keywords, whatever the case. *)
Definition containsKeyword (nature : string) : bool :=
  existsb (fun kw => includes kw (toLowerCase nature)) keywords.

(** Keyword first, then the priority id: 1559 is non-emergency, anything
    else emergency. *)
Definition classify (priorityId : prim) (nature : option string) : string :=
  match nature with
  | Some s =>
      if containsKeyword s then "395"
      else if String.eqb (toString priorityId) "1559" then "395" else "390"
  | None => if String.eqb (toString priorityId) "1559" then "395" else "390"
  end.

(** Equal up to ASCII case. *)
Definition ieq (s w : string) : Prop := toLowerCase s = toLowerCase w.

(** Nothing, or one character that is not a line terminator. *)
Definition gap (g : string) : Prop :=
  g = EmptyString \/ exists c, g = String c EmptyString /\ is_line_terminator c = false.

(** ["non"], at most one character, then ["emergency"] or ["urgent"]; or
    ["routine"]; or ["scheduled"]; in any case. *)
Definition nonEmergencyWord (w : string) : Prop :=
  (exists a g b, w = a +:+ g +:+ b /\ ieq a "non" /\ gap g
                 /\ (ieq b "emergency" \/ ieq b "urgent"))
  \/ ieq w "routine" \/ ieq w "scheduled".

(** The nature is a string that contains such a word. *)
Definition nonEmergencyNature (nature : option string) : Prop :=
  exists s pre w post, nature = Some s /\ s = pre +:+ w +:+ post /\ nonEmergencyWord w.

End Classification.

(** ** Reading the activity log *)

Module Cascade.
Import JS Raw.

(** [ts] is the non-empty timestamp of the first entry of [act] whose
    status id is [n]. *)
Definition firstStamp (n : Z) (act : list Activity) (ts : string) : Prop :=
  exists pre e post,
    act = pre ++ e :: post
    /\ Forall (fun x => statusIs n (act_StatusId x) = false) pre
    /\ statusIs n (act_StatusId e) = true
    /\ act_Timestamp e = Some ts
    /\ ts <> EmptyString.

(** No entry with status id [n] comes first with a non-empty timestamp. *)
Definition noStamp (n : Z) (act : list Activity) : Prop :=
  forall ts, ~ firstStamp n act ts.

(** Some entry of [act] has status id [n]. *)
Definition hasStatus (n : Z) (act : list Activity) : bool :=
  existsb (fun e => statusIs n (act_StatusId e)) act.

End Cascade.

(** ** Positions in a roster *)

Module Roster.

(** [l.indexOf(x)]: the position of the first occurrence. *)
Fixpoint indexOf (x : option string) (l : list (option string)) : option nat :=
  match l with
  | [] => None
  | y :: l' => if decide (y = x) then Some 0%nat else S <$> indexOf x l'
  end.

(** Both occur, and [x] occurs first before [y] does. *)
Definition before (x y : option string) (l : list (option string)) : Prop :=
  exists p q, indexOf x l = Some p /\ indexOf y l = Some q /\ (p < q)%nat.

End Roster.

(** ** Escaping, in the words of the specification *)

Module Escaping.

(** The five special characters of XML replaced by their entities. *)
Fixpoint xmlEscape (s : string) : string :=
  match s with
  | EmptyString => EmptyString
  | String c s' =>
      (if Ascii.eqb c "&" then "&amp;"
       else if Ascii.eqb c "<" then "&lt;"
       else if Ascii.eqb c ">" then "&gt;"
       else if Ascii.eqb c "034" then "&quot;"
       else if Ascii.eqb c "'" then "&apos;"
       else String c EmptyString) +:+ xmlEscape s'
  end.

End Escaping.

(** ** Sample inputs *)

Module Samples.
Import JS Raw.

(** A call with the given id, nature, priority, closing time and
    dispatches; every other property is absent. *)
Definition call (callId nature : option string) (p : priority)
    (closedOn : option string) (dispatches : option (list Dispatch)) : Call :=
  mkCall callId None None None nature None None None None None None None
         p None closedOn None None None None None None None None
         None None None dispatches None.

(** Extra data with the given dispatches and activity. *)
Definition extra (dispatches : option (list Dispatch)) (activity : option (list Activity)) : Call :=
  mkCall None None None None None None None None None None None None
         (PPrim Undefined) None None None None None None None None None None
         None None None dispatches activity.

(** An activity entry with a type, a name, a status id and a timestamp. *)
Definition entry (type name : string) (statusId : Z) (timestamp : string) : Activity :=
  mkActivity (Some type) (Some name) (Num statusId) (Some timestamp) None None None None None.

(** A dispatch entry with a type and a name. *)
Definition dispatch (type name : string) : Dispatch :=
  mkDispatch (Some type) (Some name) None None None None None.

(** The end-to-end incident of the specification: an emergency priority
    and a nature without keywords. *)
Definition personDown : Call :=
  call (Some "198513") (Some "PERSON DOWN") (PPrim (Str "1560")) None (Some []).

(** A routine transfer logged without a priority. *)
Definition routineTransfer : Call :=
  call (Some "198514") (Some "Routine transfer") (PPrim Undefined) None None.

(** The cascade of the specification: en route, on scene, returning. *)
Definition cascade (t1 t2 t3 : string) : list Activity :=
  [entry "Unit" "STN1" 5 t1; entry "Unit" "STN1" 6 t2; entry "Unit" "STN1" 8 t3].

(** The same cascade handed to the single-unit variants, with the unit
    dispatched. *)
Definition cascadeExtra (t1 t2 t3 : string) : Call :=
  extra (Some [dispatch "Unit" "STN1"]) (Some (cascade t1 t2 t3)).

(** A unit that went back to quarters (status 9) before the call was
    closed. *)
Definition returned : list Activity :=
  [entry "Unit" "STN1" 9 "2025-05-05T19:30:00Z"].

(** A unit that became available (status 0). *)
Definition available0 : list Activity :=
  [entry "Unit" "STN1" 0 "2025-05-05T19:45:00Z"].

Definition closedCall : Call :=
  call (Some "198515") (Some "FALL") (PPrim (Str "1560")) (Some "2025-05-05T20:00:00Z") None.

(** A unit with activity that is also in the dispatches, next to a unit
    that was only dispatched and a person. *)
Definition sharedUnitLog : list Activity :=
  [entry "Unit" "STN1" 5 "2025-05-06T10:45:16"; entry "Personnel" "Jane Doe" 2 "2025-05-06T10:46:00";
   entry "Unit" "STN1" 6 "2025-05-06T10:52:34"].

Definition sharedUnitCall : Call :=
  call (Some "198516") (Some "FALL") (PPrim (Str "1560")) None
       (Some [dispatch "Unit" "M2"; dispatch "Unit" "STN1"; dispatch "Personnel" "Jane Doe"]).

(** A call whose nature holds characters that are markup in XML. *)
Definition markupCall : Call :=
  call (Some "198517") (Some "Fall & head injury <minor>") (PPrim (Str "1560")) None None.

(** Units named with a hyphen or a space, or longer than nine
    characters. *)
Definition hyphenatedUnits : Call :=
  mkCall (Some "198518") None None None (Some "FALL") None None None None None None None
         (PPrim (Str "1560")) None None (Some "MEDIC-1, Engine 51, AMBULANCE12") None None
         None None None None None None None None
         (Some [dispatch "Unit" "STN-1"]) None.

(** A server that times out on every attempt; the world counts the
    attempts it has seen. *)
Definition alwaysTimeout : nat -> (bool + string) * nat :=
  fun n => (inr "ETIMEDOUT", S n).

Definition sampleDigest : string :=
  "2c26b46b68ffc68ff99b453c1d30413413422d706483bfa0f98a5e886266e7ae".

(** A status change of a person, not of a unit. *)
Definition personnelLog : list Activity :=
  [entry "Personnel" "Jane Doe" 5 "2025-05-06T10:45:16"].

End Samples.

(** ** src/sftp-client.js: clearing the cache *)

Module FingerprintCache.
Import JS SftpClient.

(** [clearFingerprintCache(filePath)]: with a truthy [filePath], the keys
    that start with [filePath + ':'] are collected and deleted; otherwise
    the whole map is cleared. *)
Definition clearFingerprintCache (filePath : option string)
    (fileFingerprints : gmap string string) : gmap string string :=
  if truthy filePath then
    let keysToRemove :=
      List.filter (fun key => String.prefix (or_empty filePath +:+ ":") key)
                  (map_to_list fileFingerprints).*1 in
    foldr delete fileFingerprints keysToRemove
  else ∅.

End FingerprintCache.

(** ** final-with-sheets-fix.js: [uploadToSFTP] *)

Module LegacyUpload.
Import RetryUtil.

(** What [uploadToSFTP] does around the transfer: attempt [i], the wait
    before the next attempt, and the [sftp.end()] whose errors are
    ignored. *)
Inductive step : Type :=
| Try (i : Z)
| Wait (ms : Z)
| EndQuietly.

Section WithSftp.
Context {W E : Type}.

(** The [try] block: connect, create the directory when missing, put, end.
    It completes or throws. *)
Variable tryBody : W -> (unit + E) * W.

(** [try { await sftp.end() } catch (closeError) { }] *)
Variable endQuietly : W -> W.

(** The body of [for (let i = 1; i <= 3; i++)], over the values [i] takes;
    [return false] after the loop. *)
Fixpoint attemptEach (indices : list Z) (w : W) (trace : list step)
  : outcome bool E * W * list step :=
  match indices with
  | [] => (Resolved false, w, trace)
  | i :: rest =>
      match tryBody w with
      | (inl _, w') => (Resolved true, w', trace ++ [Try i])
      | (inr error, w') =>
          if i =? 3 then (Rejected (Some error), w', trace ++ [Try i])
          else attemptEach rest (endQuietly w') (trace ++ [Try i; Wait (i * 5000); EndQuietly])
      end
  end.

Definition uploadToSFTP (w : W) : outcome bool E * W * list step :=
  attemptEach [1; 2; 3] w [].

End WithSftp.

End LegacyUpload.

(** ** final-with-sheets-fix.js: finding the row of a call *)

Module SheetUpsert.

(** The scan [for (let i = 1; i < rows.length; i++)] from index [i] on:
    the first row whose second cell [=== call.CallId]. *)
Fixpoint scanRows (callId : option string) (rows : list (list string)) (i : Z) : Z :=
  match rows with
  | [] => -1
  | row :: rest =>
      if bool_decide (row !! 1%nat = callId) then i else scanRows callId rest (i + 1)
  end.

(** [existingRowIndex] after the scan; row 0, the header, is skipped. *)
Definition existingRowIndex (callId : option string) (rows : list (list string)) : Z :=
  match rows with
  | [] => -1
  | _ :: rest => scanRows callId rest 1
  end.

(** A write to the sheet: [values.update] of the 1-based row, or
    [values.append]. *)
Inductive write : Type :=
| Update (rowNumber : Z)
| Append.

(** The writes [logCallData] issues for one row.  [configured] is
    [sheetsClient && config.sheets.sheetId]: without it the function
    returns at once.  [lookup] is the answer of [values.get] ([None] when
    it throws), [firstWriteOk] whether the update or append that follows
    succeeds; a failure of either falls back to one more append. *)
Definition writes (configured : bool) (callId : option string)
    (lookup : option (list (list string))) (firstWriteOk : bool) : list write :=
  if negb configured then []
  else
    match lookup with
    | Some rows =>
        let first :=
          if 0 <? existingRowIndex callId rows then Update (existingRowIndex callId rows + 1)
          else Append in
        if firstWriteOk then [first] else [first; Append]
    | None => [Append]
    end.

End SheetUpsert.

(** ** Shapes of text *)

Module TextShape.
Import JS FinalWithSheets.

(** No [<] is followed, anywhere later, by a [>]: the text holds no
    complete tag. *)
Fixpoint noTag (s : string) : bool :=
  match s with
  | EmptyString => true
  | String c s' => negb (Ascii.eqb c "<" && hasGt s') && noTag s'
  end.

(** Every white-space character is a plain space and no two of them are
    adjacent; with [prev] the text does not start with one either. *)
Fixpoint collapsed (prev : bool) (s : string) : bool :=
  match s with
  | EmptyString => true
  | String c s' =>
      if is_space c then Ascii.eqb c " " && negb prev && collapsed true s'
      else collapsed false s'
  end.

(** The first character is white space. *)
Definition headSpace (s : string) : bool :=
  match s with
  | String c _ => is_space c
  | EmptyString => false
  end.

(** The last character is white space. *)
Fixpoint lastSpace (s : string) : bool :=
  match s with
  | EmptyString => false
  | String c EmptyString => is_space c
  | String _ s' => lastSpace s'
  end.

(** The character does not occur. *)
Fixpoint lacks (x : ascii) (s : string) : bool :=
  match s with
  | EmptyString => true
  | String c s' => negb (Ascii.eqb c x) && lacks x s'
  end.

(** No white-space character occurs. *)
Fixpoint noSpace (s : string) : bool :=
  match s with
  | EmptyString => true
  | String c s' => negb (is_space c) && noSpace s'
  end.

End TextShape.

(** ** Lookup tables *)

Module Lookups.
Import JS.

(** A table with the two entries 1559 to 395 and 1560 to 390: what a
    lookup in it finds. *)
Definition twoEntries (table : gmap string string) : Prop :=
  forall key,
    getProperty table key =
    if String.eqb key "1559" then Some (Own "395")
    else if String.eqb key "1560" then Some (Own "390")
    else if inherited key then Some (Inherited key) else None.

End Lookups.

(** * Properties *)

(** ** Strings *)

Module StringFacts.
Import JS.

Lemma app_cons c s t : String c s +:+ t = String c (s +:+ t).
Proof. reflexivity. Qed.

Lemma app_nil_l s : EmptyString +:+ s = s.
Proof. reflexivity. Qed.

Lemma app_nil_r s : s +:+ EmptyString = s.
Proof. induction s as [|c s IH]; [reflexivity|]. by rewrite app_cons, IH. Qed.

Lemma app_assoc s t u : (s +:+ t) +:+ u = s +:+ (t +:+ u).
Proof. induction s as [|c s IH]; [reflexivity|]. by rewrite !app_cons, IH. Qed.

Lemma app_eq_nil s t : s +:+ t = EmptyString -> s = EmptyString /\ t = EmptyString.
Proof. destruct s; [by rewrite app_nil_l|by rewrite app_cons]. Qed.

Lemma app_eq_cons s t c u :
  s +:+ t = String c u ->
  (s = EmptyString /\ t = String c u) \/ (exists s', s = String c s' /\ u = s' +:+ t).
Proof.
  destruct s as [|d s]; [by left|].
  rewrite app_cons. intros [= -> <-]. right. by eexists.
Qed.

Lemma toLowerCase_app s t : toLowerCase (s +:+ t) = toLowerCase s +:+ toLowerCase t.
Proof. induction s as [|c s IH]; [reflexivity|]. rewrite app_cons. simpl. by rewrite IH. Qed.

(** A split of the lowered string comes from a split of the string. *)
Lemma toLowerCase_split s a b :
  toLowerCase s = a +:+ b ->
  exists a' b', s = a' +:+ b' /\ toLowerCase a' = a /\ toLowerCase b' = b.
Proof.
  revert a. induction s as [|c s IH]; intros a H; simpl in H.
  - symmetry in H. apply app_eq_nil in H as [-> ->]. by exists EmptyString, EmptyString.
  - symmetry in H. apply app_eq_cons in H as [[-> Hb]|(a1 & -> & Hs)].
    + exists EmptyString, (String c s). by rewrite Hb.
    + destruct (IH a1 Hs) as (a' & b' & -> & <- & <-).
      by exists (String c a'), b'.
Qed.

Lemma lower_idem c : lower (lower c) = lower c.
Proof. by destruct c as [[] [] [] [] [] [] [] []]. Qed.

Lemma toLowerCase_idem s : toLowerCase (toLowerCase s) = toLowerCase s.
Proof. induction s as [|c s IH]; [reflexivity|]. simpl. by rewrite lower_idem, IH. Qed.

Lemma prefix_app k s : String.prefix k s = true <-> exists t, s = k +:+ t.
Proof.
  revert s. induction k as [|c k IH]; intros s.
  - split; [intros _; by exists s|intros _; by destruct s].
  - destruct s as [|d s]; simpl.
    + split; [done|intros [t Ht]; by rewrite app_cons in Ht].
    + destruct (ascii_dec c d) as [-> |Hne].
      * rewrite IH. split; intros [t Ht]; exists t.
        -- by rewrite Ht.
        -- rewrite app_cons in Ht. by injection Ht.
      * split; [done|]. intros [t Ht]. rewrite app_cons in Ht. by injection Ht.
Qed.

(** [includes] finds exactly the strings that contain the key. *)
Lemma includes_spec k s :
  includes k s = true <-> exists pre post, s = pre +:+ k +:+ post.
Proof.
  induction s as [|c s IH].
  - cbn [includes]. rewrite orb_false_r, prefix_app. split.
    + intros [t Ht]. by exists EmptyString, t.
    + intros (pre & post & H). symmetry in H.
      apply app_eq_nil in H as [-> H]. apply app_eq_nil in H as [-> ->]. by exists EmptyString.
  - cbn [includes]. rewrite orb_true_iff, prefix_app, IH. split.
    + intros [[t Ht]|(pre & post & Ht)].
      * by exists EmptyString, t.
      * exists (String c pre), post. by rewrite Ht.
    + intros (pre & post & H). destruct pre as [|d pre].
      * left. by exists post.
      * right. rewrite app_cons in H. injection H as _ ->. by exists pre, post.
Qed.

End StringFacts.

(** ** The derivative matcher decides the language *)

Module RegexFacts.
Import JS Regex StringFacts.

Lemma lang_void_inv s : lang Void s <-> False.
Proof. split; [inversion 1|done]. Qed.

Lemma lang_eps_inv s : lang Eps s <-> s = EmptyString.
Proof. split; [by inversion 1|intros ->; constructor]. Qed.

Lemma lang_cls_inv p s : lang (Cls p) s <-> exists c, s = String c EmptyString /\ p c = true.
Proof.
  split.
  - inversion 1; subst. by eexists.
  - intros (c & -> & H). by constructor.
Qed.

Lemma lang_seq_inv r1 r2 s :
  lang (Seq r1 r2) s <-> exists s1 s2, s = s1 +:+ s2 /\ lang r1 s1 /\ lang r2 s2.
Proof.
  split.
  - inversion 1; subst. by eexists _, _.
  - intros (s1 & s2 & -> & H1 & H2). by constructor.
Qed.

Lemma lang_alt_inv r1 r2 s : lang (Alt r1 r2) s <-> lang r1 s \/ lang r2 s.
Proof.
  split.
  - inversion 1; subst; [by left|by right].
  - intros [H|H]; [by apply lang_alt_l|by apply lang_alt_r].
Qed.

Lemma nullable_lang r : nullable r = true <-> lang r EmptyString.
Proof.
  induction r as [| |p|r1 IH1 r2 IH2|r1 IH1 r2 IH2|r IH]; simpl.
  - by rewrite lang_void_inv.
  - by rewrite lang_eps_inv.
  - rewrite lang_cls_inv. split; [done|by intros (c & ? & _)].
  - rewrite andb_true_iff, IH1, IH2, lang_seq_inv. split.
    + intros [H1 H2]. by exists EmptyString, EmptyString.
    + intros (s1 & s2 & E & H1 & H2). symmetry in E.
      apply app_eq_nil in E as [-> ->]. by split.
  - by rewrite orb_true_iff, IH1, IH2, lang_alt_inv.
  - split; [constructor|done].
Qed.

(** A non-empty word of [Star r] starts with a non-empty word of [r]. *)
Lemma lang_star_cons_inv r c s :
  lang (Star r) (String c s) ->
  exists s1 s2, s = s1 +:+ s2 /\ lang r (String c s1) /\ lang (Star r) s2.
Proof.
  intros H. remember (Star r) as r' eqn:Hr. remember (String c s) as w eqn:Hw.
  revert c s Hw. induction H as [| | | | | |r0 s1 s2 H1 _ H2 IH2]; try discriminate.
  injection Hr as ->. intros c s Hw.
  destruct s1 as [|d s1].
  - rewrite app_nil_l in Hw. by apply IH2.
  - rewrite app_cons in Hw. injection Hw as -> <-. by exists s1, s2.
Qed.

Lemma lang_seq_cons_inv r1 r2 c s :
  lang (Seq r1 r2) (String c s) <->
  (exists s1 s2, s = s1 +:+ s2 /\ lang r1 (String c s1) /\ lang r2 s2)
  \/ (lang r1 EmptyString /\ lang r2 (String c s)).
Proof.
  rewrite lang_seq_inv. split.
  - intros (s1 & s2 & E & H1 & H2). symmetry in E.
    apply app_eq_cons in E as [[-> ->]|(s1' & -> & ->)]; [by right|].
    left. by exists s1', s2.
  - intros [(s1 & s2 & -> & H1 & H2)|[H1 H2]].
    + by exists (String c s1), s2.
    + by exists EmptyString, (String c s).
Qed.

Lemma deriv_lang c r s : lang (deriv c r) s <-> lang r (String c s).
Proof.
  revert s. induction r as [| |p|r1 IH1 r2 IH2|r1 IH1 r2 IH2|r IH]; intros s; simpl.
  - by rewrite !lang_void_inv.
  - rewrite lang_void_inv, lang_eps_inv. done.
  - rewrite lang_cls_inv. destruct (p c) eqn:Hp.
    + rewrite lang_eps_inv. split.
      * intros ->. by exists c.
      * by intros (d & [= -> ->] & _).
    + rewrite lang_void_inv. split; [done|]. intros (d & [= -> ->] & ?). congruence.
  - assert (Hseq : lang (Seq (deriv c r1) r2) s <->
                   exists s1 s2, s = s1 +:+ s2 /\ lang r1 (String c s1) /\ lang r2 s2).
    { rewrite lang_seq_inv. split; intros (s1 & s2 & -> & H1 & H2); exists s1, s2;
        (split; [done|]); (split; [by apply IH1|done]). }
    rewrite lang_seq_cons_inv. destruct (nullable r1) eqn:Hn.
    + apply nullable_lang in Hn. rewrite lang_alt_inv, Hseq, IH2. tauto.
    + rewrite Hseq. split; [by left|]. intros [H|[H _]]; [done|].
      apply nullable_lang in H. congruence.
  - by rewrite !lang_alt_inv, IH1, IH2.
  - rewrite lang_seq_inv. split.
    + intros (s1 & s2 & -> & H1 & H2). rewrite <- app_cons.
      constructor; [by apply IH|done].
    + intros H. apply lang_star_cons_inv in H as (s1 & s2 & -> & H1 & H2).
      exists s1, s2. split; [done|]. split; [by apply IH|done].
Qed.

Theorem full_lang r s : full r s = true <-> lang r s.
Proof.
  revert r. induction s as [|c s IH]; intros r; simpl.
  - apply nullable_lang.
  - by rewrite IH, deriv_lang.
Qed.

Theorem here_lang r s :
  here r s = true <-> exists s1 s2, s = s1 +:+ s2 /\ lang r s1.
Proof.
  revert r. induction s as [|c s IH]; intros r; cbn [here]; rewrite orb_true_iff, nullable_lang.
  - split.
    + intros [H|H]; [|done]. by exists EmptyString, EmptyString.
    + intros (s1 & s2 & E & H). symmetry in E. apply app_eq_nil in E as [-> _]. by left.
  - rewrite IH. split.
    + intros [H|(s1 & s2 & -> & H)].
      * by exists EmptyString, (String c s).
      * exists (String c s1), s2. split; [done|by apply deriv_lang].
    + intros (s1 & s2 & E & H). destruct s1 as [|d s1]; [by left|].
      rewrite app_cons in E. injection E as <- ->. right.
      exists s1, s2. split; [done|by apply deriv_lang].
Qed.

Theorem test_lang r s :
  test r s = true <-> exists pre mid post, s = pre +:+ mid +:+ post /\ lang r mid.
Proof.
  induction s as [|c s IH]; cbn [test]; rewrite orb_true_iff, here_lang.
  - split.
    + intros [(s1 & s2 & E & H)|H]; [|done]. by exists EmptyString, s1, s2.
    + intros (pre & mid & post & E & H). left. symmetry in E.
      apply app_eq_nil in E as [-> E]. by exists mid, post.
  - rewrite IH. split.
    + intros [(s1 & s2 & E & H)|(pre & mid & post & -> & H)].
      * by exists EmptyString, s1, s2.
      * by exists (String c pre), mid, post.
    + intros (pre & mid & post & E & H). destruct pre as [|d pre].
      * left. by exists mid, post.
      * right. rewrite app_cons in E. injection E as _ ->. by exists pre, mid, post.
Qed.

(** Words of a literal under the [i] flag: equal up to ASCII case. *)
Lemma lang_LitI w s : lang (LitI w) s <-> toLowerCase s = toLowerCase w.
Proof.
  revert s. induction w as [|c w IH]; intros s; simpl.
  - rewrite lang_eps_inv. by destruct s.
  - rewrite lang_seq_inv. split.
    + intros (s1 & s2 & -> & H1 & H2). apply lang_cls_inv in H1 as (d & -> & Hd).
      rewrite app_cons. simpl. apply Ascii.eqb_eq in Hd. rewrite Hd. f_equal. by apply IH.
    + destruct s as [|d s]; [done|]. simpl. intros [= Hd Hs].
      exists (String d EmptyString), s. split; [done|]. split; [|by apply IH].
      apply lang_cls_inv. exists d. split; [done|]. by apply Ascii.eqb_eq.
Qed.

(** Words of [Plus (Cls p)]: non-empty, every character in the class. *)
Lemma lang_star_cls p s : lang (Star (Cls p)) s <-> allChars p s = true.
Proof.
  induction s as [|c s IH]; simpl.
  - split; [done|constructor].
  - rewrite andb_true_iff, <- IH. split.
    + intros H. apply lang_star_cons_inv in H as (s1 & s2 & -> & H1 & H2).
      apply lang_cls_inv in H1 as (d & [= -> ->] & Hp). by rewrite app_nil_l.
    + intros [Hp H]. change (String c s) with (String c EmptyString +:+ s).
      constructor; [by constructor|done].
Qed.

Lemma full_plus_cls p s :
  full (Plus (Cls p)) s = true <-> s <> EmptyString /\ allChars p s = true.
Proof.
  rewrite full_lang. unfold Plus. rewrite lang_seq_inv. split.
  - intros (s1 & s2 & -> & H1 & H2). apply lang_cls_inv in H1 as (c & -> & Hp).
    apply lang_star_cls in H2. rewrite app_cons, app_nil_l. simpl. by rewrite Hp, H2.
  - intros [Hne H]. destruct s as [|c s]; [done|]. simpl in H.
    apply andb_true_iff in H as [Hp H]. exists (String c EmptyString), s.
    split; [done|]. split; [by constructor|by apply lang_star_cls].
Qed.

End RegexFacts.

(** ** Response classification ([priority.js], [src/xml-generator.js]) *)

Module LookupFacts.
Import JS Lookups.

Lemma inherited_true key : inherited key = true <-> In key objectPrototype.
Proof.
  unfold inherited. rewrite existsb_exists. split.
  - intros (k & Hk & E). by apply String.eqb_eq in E as ->.
  - intros Hk. exists key. split; [done|]. apply String.eqb_refl.
Qed.

Lemma inherited_false key : inherited key = false <-> ~ In key objectPrototype.
Proof. rewrite <- inherited_true. by destruct (inherited key). Qed.

(** The text of an inherited member is none of the two codes. *)
Lemma memberText_inherited key :
  memberText (Inherited key) <> "390" /\ memberText (Inherited key) <> "395".
Proof.
  unfold memberText. destruct (String.eqb key "__proto__"); [done|].
  by destruct (String.eqb key "constructor").
Qed.

Lemma getProperty_xml : twoEntries XmlGenerator.responseModeMap.
Proof.
  intros key. unfold getProperty, XmlGenerator.responseModeMap.
  destruct (String.eqb_spec key "1559") as [-> |H59]; [reflexivity|].
  rewrite lookup_insert_ne by done.
  destruct (String.eqb_spec key "1560") as [-> |H60]; [reflexivity|].
  by rewrite lookup_insert_ne, lookup_empty by done.
Qed.

Lemma getProperty_sheet : twoEntries SheetsLogger.responseModeMap.
Proof.
  intros key. unfold getProperty, SheetsLogger.responseModeMap.
  destruct (String.eqb_spec key "1559") as [-> |H59]; [reflexivity|].
  destruct (String.eqb_spec key "1560") as [-> |H60]; [reflexivity|].
  by rewrite !lookup_insert_ne, lookup_empty by done.
Qed.

Lemma getProperty_priorityMap : twoEntries FinalWithSheets.priorityMap.
Proof.
  intros key. unfold getProperty, FinalWithSheets.priorityMap.
  destruct (String.eqb_spec key "1559") as [-> |H59]; [reflexivity|].
  destruct (String.eqb_spec key "1560") as [-> |H60]; [reflexivity|].
  by rewrite !lookup_insert_ne, lookup_empty by done.
Qed.

End LookupFacts.

Module ClassificationFacts.
Import JS Regex StringFacts RegexFacts Classification Priority.

Lemma is_line_terminator_lower c : is_line_terminator (lower c) = is_line_terminator c.
Proof. by destruct c as [[] [] [] [] [] [] [] []]. Qed.

Lemma lang_opt_dot g : lang (Opt Dot) g <-> gap g.
Proof.
  unfold Opt, Dot, gap. rewrite lang_alt_inv, lang_cls_inv, lang_eps_inv. split.
  - intros [(c & -> & H)| ->]; [right|by left]. exists c. split; [done|].
    by apply negb_true_iff.
  - intros [-> |(c & -> & H)]; [by right|left]. exists c. split; [done|].
    by apply negb_true_iff.
Qed.

Lemma lang_non w x :
  lang (Seq (LitI "non") (Seq (Opt Dot) (LitI x))) w <->
  exists a g b, w = a +:+ g +:+ b /\ ieq a "non" /\ gap g /\ ieq b x.
Proof.
  rewrite lang_seq_inv. split.
  - intros (a & t & -> & Ha & Ht). apply lang_seq_inv in Ht as (g & b & -> & Hg & Hb).
    exists a, g, b. split; [done|]. split; [by apply lang_LitI|].
    split; [by apply lang_opt_dot|by apply lang_LitI].
  - intros (a & g & b & -> & Ha & Hg & Hb). exists a, (g +:+ b).
    split; [done|]. split; [by apply lang_LitI|]. apply lang_seq_inv.
    exists g, b. split; [done|]. split; [by apply lang_opt_dot|by apply lang_LitI].
Qed.

(** The words of the regular expression of the source. *)
Lemma lang_NON_EMERGENCY_RE w : lang NON_EMERGENCY_RE w <-> nonEmergencyWord w.
Proof.
  unfold NON_EMERGENCY_RE, nonEmergencyWord.
  rewrite !lang_alt_inv, !lang_non, !lang_LitI. unfold ieq. split.
  - intros [(a & g & b & ? & ? & ? & ?)|[(a & g & b & ? & ? & ? & ?)|[?|?]]].
    + left. exists a, g, b. auto.
    + left. exists a, g, b. auto.
    + right. by left.
    + right. by right.
  - intros [(a & g & b & ? & ? & ? & [?|?])|[?|?]].
    + left. exists a, g, b. auto.
    + right. left. exists a, g, b. auto.
    + right. right. by left.
    + right. right. by right.
Qed.

Lemma test_NON_EMERGENCY_RE nature :
  truthy nature && test NON_EMERGENCY_RE (or_empty nature) = true <-> nonEmergencyNature nature.
Proof.
  unfold nonEmergencyNature. split.
  - intros H. apply andb_true_iff in H as [Ht H]. destruct nature as [s|]; [|done].
    apply test_lang in H as (pre & w & post & E & Hw). simpl in E.
    exists s, pre, w, post. split; [done|]. split; [done|]. by apply lang_NON_EMERGENCY_RE.
  - intros (s & pre & w & post & -> & E & Hw). apply andb_true_iff. split.
    + subst s. destruct Hw as [(a & g & b & -> & Ha & _)|[Hw|Hw]].
      * destruct a; [discriminate Ha|]. by destruct pre.
      * destruct w; [discriminate Hw|]. by destruct pre.
      * destruct w; [discriminate Hw|]. by destruct pre.
    + simpl. apply test_lang. exists pre, w, post. split; [done|].
      by apply lang_NON_EMERGENCY_RE.
Qed.

Lemma toLowerCase_singleton g c :
  toLowerCase g = String c EmptyString -> exists d, g = String d EmptyString /\ lower d = c.
Proof. destruct g as [|d [|e g]]; try done. simpl. intros [= <-]. by exists d. Qed.

(** A word that lowers to ["non" ++ [c] ++ x], [c] no line terminator. *)
Lemma nonEmergencyWord_sep (c : ascii) (x w : string) :
  is_line_terminator c = false ->
  x = "emergency" \/ x = "urgent" ->
  toLowerCase w = "non" +:+ String c EmptyString +:+ x ->
  nonEmergencyWord w.
Proof.
  intros Hc Hx Hw.
  apply toLowerCase_split in Hw as (a & t & -> & Ha & Ht).
  apply toLowerCase_split in Ht as (g & b & -> & Hg & Hb).
  apply toLowerCase_singleton in Hg as (d & -> & Hd).
  left. exists a, (String d EmptyString), b. split; [done|]. split; [done|]. split.
  - right. exists d. split; [done|]. by rewrite <- is_line_terminator_lower, Hd.
  - unfold ieq. rewrite Hb. destruct Hx as [-> | ->]; [by left|by right].
Qed.

(** Each listed keyword, in any case, is such a word. *)
Lemma keyword_nonEmergencyWord kw w :
  In kw keywords -> toLowerCase w = kw -> nonEmergencyWord w.
Proof.
  unfold keywords. simpl. intros [<-|[<-|[<-|[<-|[<-|[<-|[]]]]]]] Hw.
  - apply (nonEmergencyWord_sep "-" "emergency"); auto.
  - apply (nonEmergencyWord_sep " " "emergency"); auto.
  - apply (nonEmergencyWord_sep "-" "urgent"); auto.
  - apply (nonEmergencyWord_sep " " "urgent"); auto.
  - right. by left.
  - right. by right.
Qed.

Lemma keyword_nonEmergencyNature kw s :
  In kw keywords -> includes kw (toLowerCase s) = true -> nonEmergencyNature (Some s).
Proof.
  intros Hkw H. apply includes_spec in H as (pre & post & H).
  apply toLowerCase_split in H as (pre' & t & -> & _ & Ht).
  apply toLowerCase_split in Ht as (w & post' & -> & Hw & _).
  exists (pre' +:+ w +:+ post'), pre', w, post'. split; [done|]. split; [done|].
  by apply (keyword_nonEmergencyWord kw).
Qed.

(** The single-unit serializer computes the same classification, from its
    own reading of the priority id. *)
Lemma XmlGenerator_responseMode_eq call :
  nonEmergencyNature (Raw.Nature call) \/ ~ In (XmlGenerator.priorityId call) objectPrototype ->
  XmlGenerator.responseMode call
  = mapPriorityToEsoCode (Str (XmlGenerator.priorityId call)) (Raw.Nature call).
Proof.
  intros Hcase. unfold XmlGenerator.responseMode, mapPriorityToEsoCode.
  cbn [toString].
  set (pid := XmlGenerator.priorityId call) in *.
  assert (Hn : truthy (Some (or_empty (or_else (Raw.Nature call) (Some EmptyString))))
               && test NON_EMERGENCY_RE (or_empty (or_else (Raw.Nature call) (Some EmptyString)))
               = truthy (Raw.Nature call) && test NON_EMERGENCY_RE (or_empty (Raw.Nature call))).
  { by destruct (Raw.Nature call) as [[|c n]|]. }
  rewrite Hn.
  destruct (truthy (Raw.Nature call) && test NON_EMERGENCY_RE (or_empty (Raw.Nature call)))
    eqn:E; [reflexivity|].
  destruct Hcase as [Hne|Hown].
  { apply test_NON_EMERGENCY_RE in Hne. congruence. }
  cbn [String.eqb Ascii.eqb Bool.eqb].
  rewrite LookupFacts.getProperty_xml.
  destruct (String.eqb pid "1559"); [reflexivity|].
  destruct (String.eqb pid "1560"); [reflexivity|].
  by rewrite (proj2 (LookupFacts.inherited_false pid) Hown).
Qed.

End ClassificationFacts.

(** ** Where the derived values land in the two outputs *)

Module OutputFacts.
Import JS Raw Xml FinalWithSheets.

Ltac split_pairs :=
  repeat match goal with
         | |- context [match ?e with pair _ _ => _ end] => destruct e
         end.

(** The elements of the document of [generateXML] that carry derived
    values. *)
Lemma generateXML_fields parseAddress call activity :
  let doc := generateXML parseAddress call activity in
  let t := generateXML_times call activity in
  field "ResponseModeToScene" doc = Some (Some (generateXML_responseMode call))
  /\ field "EmsUnitCallSign" doc = Some (Some (unitsCsv call activity))
  /\ field "UnitEnRoute" doc = Some (Some (enRoute t))
  /\ field "UnitArrivedOnScene" doc = Some (Some (onScene t))
  /\ field "UnitAtPatient" doc = Some (Some (atPatient t))
  /\ field "UnitCleared" doc = Some (Some (cleared t))
  /\ field "UnitBackInService" doc = Some (Some (backInService t)).
Proof. cbn zeta. unfold generateXML. split_pairs. repeat split. Qed.

(** The columns of the row of [logCallData] that carry derived values:
    K (Response Mode), L (Unit Name), N to R (the five times). *)
Lemma logCallData_columns parseAddress call activity lastUpdated :
  let row := logCallData_rowData parseAddress call activity lastUpdated in
  let t := logCallData_times call activity in
  row !! 10%nat = Some (Some (logCallData_responseMode call))
  /\ row !! 11%nat = Some (Some (unitsCsv call activity))
  /\ row !! 13%nat = Some (Some (enRoute t))
  /\ row !! 14%nat = Some (Some (onScene t))
  /\ row !! 15%nat = Some (Some (atPatient t))
  /\ row !! 16%nat = Some (Some (cleared t))
  /\ row !! 17%nat = Some (Some (backInService t)).
Proof. cbn zeta. unfold logCallData_rowData. split_pairs. repeat split. Qed.

End OutputFacts.

(** ** Claims on the response classification *)

Section ResponseMode.
Import JS Raw Classification.

(** C1: the response-mode code of the XML document and the one of the
    sheet row differ on the same input.  In [final-with-sheets-fix.js] an
    emergency call (priority 1560, nature without keyword) is written as
    390 in [ResponseModeToScene] and as 395 in the "Response Mode" column;
    in the single-unit pair a routine transfer without priority is 395 in
    the XML and "Lights & Sirens" (390) in the sheet. *)
Theorem C1_response_mode_differs_across_sinks :
  (forall parseAddress lastUpdated,
      Xml.field "ResponseModeToScene"
        (FinalWithSheets.generateXML parseAddress Samples.personDown []) = Some (Some "390")
      /\ FinalWithSheets.logCallData_rowData parseAddress Samples.personDown [] lastUpdated
         !! 10%nat = Some (Some "395"))
  /\ (forall isoDate timestamp,
      XmlGenerator.fields isoDate (Shapes.Direct Samples.routineTransfer) Shapes.noExtra
        !! 10%nat = Some ("ResponseModeToScene", "395")
      /\ SheetsLogger.sheetCallRow_values (Shapes.Direct Samples.routineTransfer)
           Shapes.noExtra timestamp !! 10%nat = Some "Lights & Sirens"
      /\ SheetsLogger.codeOfLabel "Lights & Sirens" = Some "390").
Proof.
  split.
  - intros parseAddress lastUpdated. split.
    + by destruct (OutputFacts.generateXML_fields parseAddress Samples.personDown []) as [-> _].
    + by destruct (OutputFacts.logCallData_columns parseAddress Samples.personDown []
                     lastUpdated) as [-> _].
  - intros isoDate timestamp. repeat split; reflexivity.
Qed.

(** C2, as stated, fails: a nature that holds none of the six keywords
    can still be classified by its text. *)
Lemma C2_counterexample :
  containsKeyword "NONEMERGENCY transfer" = false
  /\ classify (Str "1560") (Some "NONEMERGENCY transfer") = "390"
  /\ Priority.mapPriorityToEsoCode (Str "1560") (Some "NONEMERGENCY transfer") = "395".
Proof. repeat split; vm_compute; reflexivity. Qed.

(** C2 (amended): [mapPriorityToEsoCode] answers 395 exactly when the
    nature is a string containing, in any case, "non" followed by at most
    one character (no line terminator) and "emergency" or "urgent", or
    containing "routine" or "scheduled", or when the priority id reads
    1559; it answers 390 otherwise.  Each of the six listed keywords is
    such a word, and the single-unit serializer computes the same
    function of its priority id whenever the nature decides or the id is
    not the name of a property that object literals inherit. *)
Theorem C2_response_classification (priorityId : prim) (nature : option string) :
  let code := Priority.mapPriorityToEsoCode priorityId nature in
  (code = "395" <-> nonEmergencyNature nature \/ toString priorityId = "1559")
  /\ (code = "390" <-> ~ nonEmergencyNature nature /\ toString priorityId <> "1559")
  /\ (forall s kw, nature = Some s -> In kw keywords ->
                   includes kw (toLowerCase s) = true -> nonEmergencyNature nature)
  /\ (forall call,
        nonEmergencyNature (Nature call)
        \/ ~ In (XmlGenerator.priorityId call) objectPrototype ->
        XmlGenerator.responseMode call
        = Priority.mapPriorityToEsoCode (Str (XmlGenerator.priorityId call)) (Nature call)).
Proof.
  cbn zeta. unfold Priority.mapPriorityToEsoCode.
  pose proof (ClassificationFacts.test_NON_EMERGENCY_RE nature) as Ht.
  destruct (truthy nature && Regex.test Priority.NON_EMERGENCY_RE (or_empty nature)) eqn:E.
  - assert (Hn : nonEmergencyNature nature) by by apply Ht.
    split; [|split; [|split]].
    + split; [by left|done].
    + split; [done|]. by intros [H _].
    + intros s kw -> Hkw Hinc. by apply (ClassificationFacts.keyword_nonEmergencyNature kw).
    + apply ClassificationFacts.XmlGenerator_responseMode_eq.
  - assert (Hn : ~ nonEmergencyNature nature).
    { intros H. apply Ht in H. congruence. }
    split; [|split; [|split]].
    + destruct (String.eqb_spec (toString priorityId) "1559") as [Hp|Hp].
      * split; [by right|done].
      * destruct (String.eqb (toString priorityId) "1560");
          (split; [done|]); by intros [H|H].
    + destruct (String.eqb_spec (toString priorityId) "1559") as [Hp|Hp].
      * split; [done|]. by intros [_ H].
      * destruct (String.eqb (toString priorityId) "1560"); by split.
    + intros s kw -> Hkw Hinc. by apply (ClassificationFacts.keyword_nonEmergencyNature kw).
    + apply ClassificationFacts.XmlGenerator_responseMode_eq.
Qed.

(** The precedence example of the specification: the keyword wins over an
    emergency priority. *)
Lemma C2_response_classification_witness :
  Priority.mapPriorityToEsoCode (Num 1560) (Some "Routine transport, non-emergency") = "395".
Proof.
  destruct (C2_response_classification (Num 1560) (Some "Routine transport, non-emergency"))
    as (H395 & _ & Hkw & _).
  apply H395. left. apply (Hkw "Routine transport, non-emergency" "routine").
  - reflexivity.
  - simpl. tauto.
  - vm_compute. reflexivity.
Defined.

End ResponseMode.

(** ** The timestamp cascade of [final-with-sheets-fix.js] *)

Module CascadeFacts.
Import JS Raw FinalWithSheets Cascade.

Lemma find_split {A} (P : A -> bool) l e :
  List.find P l = Some e ->
  exists pre post, l = pre ++ e :: post /\ Forall (fun x => P x = false) pre /\ P e = true.
Proof.
  induction l as [|x l IH]; [done|]. simpl. destruct (P x) eqn:Hx.
  - intros [= ->]. by exists [], l.
  - intros H. destruct (IH H) as (pre & post & -> & Hpre & He).
    exists (x :: pre), post. split; [done|]. split; [by constructor|done].
Qed.

Lemma find_first {A} (P : A -> bool) pre e post :
  Forall (fun x => P x = false) pre -> P e = true ->
  List.find P (pre ++ e :: post) = Some e.
Proof.
  induction 1 as [|x pre Hx _ IH]; intros He; simpl.
  - by rewrite He.
  - rewrite Hx. by apply IH.
Qed.

Lemma activityEvent_firstStamp n act ts :
  firstStamp n act ts -> act_Timestamp (activityEvent act (inl n)) = Some ts.
Proof.
  intros (pre & e & post & -> & Hpre & He & Hts & _). unfold activityEvent.
  by rewrite (find_first (fun e => statusIs n (act_StatusId e)) pre e post Hpre He).
Qed.

Lemma activityEvent_noStamp n act :
  noStamp n act -> truthy (act_Timestamp (activityEvent act (inl n))) = false.
Proof.
  intros Hno. unfold activityEvent.
  destruct (List.find _ act) as [e|] eqn:Hf; [|done]. simpl.
  apply find_split in Hf as (pre & post & -> & Hpre & He).
  destruct (act_Timestamp e) as [[|c ts]|] eqn:Hts; [done| |done].
  exfalso. apply (Hno (String c ts)). by exists pre, e, post.
Qed.

Lemma hasStatus_noStamp n act : hasStatus n act = false -> noStamp n act.
Proof.
  intros H ts (pre & e & post & -> & _ & He & _). unfold hasStatus in H.
  rewrite existsb_app in H. simpl in H. rewrite He in H.
  by rewrite orb_true_r in H.
Qed.

Lemma firstTruthy_stamp ts rest :
  ts <> EmptyString -> firstTruthy (Some ts :: rest) = ts.
Proof. by destruct ts. Qed.

Lemma firstTruthy_skip x rest : truthy x = false -> firstTruthy (x :: rest) = firstTruthy rest.
Proof. simpl. by intros ->. Qed.

End CascadeFacts.

(** ** Claims on the lifecycle timestamps *)

Section Timestamps.
Import JS Raw FinalWithSheets Cascade CascadeFacts.

(** C3: on the cascade of the specification, [generateXML] derives the
    five timestamps as claimed, while [logCallData] leaves the
    back-in-service time empty (it looks for status 9 or 2 only), and the
    single-unit variants derive neither at-patient, cleared nor
    back-in-service from it. *)
Theorem C3_cascade_back_in_service_differs (call : Call) parseAddress lastUpdated :
  let act := Samples.cascade "T1" "T2" "T3" in
  generateXML_times call act = mkTimes "T1" "T2" "T2" "T3" "T3"
  /\ logCallData_times call act = mkTimes "T1" "T2" "T2" "T3" ""
  /\ Xml.field "UnitBackInService" (generateXML parseAddress call act) = Some (Some "T3")
  /\ logCallData_rowData parseAddress call act lastUpdated !! 17%nat = Some (Some "")
  /\ Shapes.deriveUnit emptyCall (Samples.cascadeExtra "T1" "T2" "T3")
     = Shapes.mkUnit "STN1" "" "T1" "T2" "" "" "".
Proof.
  cbn zeta. split; [reflexivity|]. split; [reflexivity|]. split; [|split].
  - by destruct (OutputFacts.generateXML_fields parseAddress call
                   (Samples.cascade "T1" "T2" "T3")) as (_ & _ & _ & _ & _ & _ & ->).
  - by destruct (OutputFacts.logCallData_columns parseAddress call
                   (Samples.cascade "T1" "T2" "T3") lastUpdated)
      as (_ & _ & _ & _ & _ & _ & ->).
  - vm_compute. reflexivity.
Qed.

(** C4, as stated, fails: a status-9 entry supplies the cleared time ahead
    of the closing time although no entry has status 8, 0 or 2, and a
    status-0 entry never supplies it. *)
Lemma C4_counterexample :
  (hasStatus 8 Samples.returned = false
   /\ hasStatus 0 Samples.returned = false
   /\ hasStatus 2 Samples.returned = false
   /\ ClosedOn Samples.closedCall = Some "2025-05-05T20:00:00Z"
   /\ cleared (generateXML_times Samples.closedCall Samples.returned) = "2025-05-05T19:30:00Z"
   /\ backInService (generateXML_times Samples.closedCall Samples.returned)
      = "2025-05-05T19:30:00Z")
  /\ (hasStatus 8 Samples.available0 = false
      /\ firstStamp 0 Samples.available0 "2025-05-05T19:45:00Z"
      /\ cleared (generateXML_times Samples.closedCall Samples.available0)
         = "2025-05-05T20:00:00Z").
Proof.
  repeat split; try reflexivity.
  exists [], (Samples.entry "Unit" "STN1" 0 "2025-05-05T19:45:00Z"), [].
  repeat split; [constructor|done].
Qed.

(** C4 (amended): in [generateXML] the cleared time is the non-empty
    timestamp of the first entry with status 8; failing that, of the first
    entry with status 9; failing that, of the first entry with status 2;
    failing those, the call's [ClosedOn]; else empty.  When none of the
    three statuses gives a timestamp, both [generateXML] and [logCallData]
    take [ClosedOn] as cleared time (empty when absent) and leave
    back-in-service empty. *)
Theorem C4_cleared_cascade (call : Call) (act : list Activity) :
  let x := generateXML_times call act in
  let l := logCallData_times call act in
  (forall ts, firstStamp 8 act ts -> cleared x = ts)
  /\ (noStamp 8 act -> forall ts, firstStamp 9 act ts -> cleared x = ts)
  /\ (noStamp 8 act -> noStamp 9 act -> forall ts, firstStamp 2 act ts -> cleared x = ts)
  /\ (noStamp 8 act -> noStamp 9 act -> noStamp 2 act ->
      cleared x = firstTruthy [ClosedOn call] /\ backInService x = ""
      /\ cleared l = firstTruthy [ClosedOn call] /\ backInService l = "").
Proof.
  cbn zeta. unfold generateXML_times, logCallData_times. cbn [cleared backInService].
  split; [|split; [|split]].
  - intros ts H. rewrite (activityEvent_firstStamp _ _ _ H).
    apply firstTruthy_stamp. by destruct H as (? & ? & ? & _ & _ & _ & _ & ?).
  - intros H8 ts H. rewrite (firstTruthy_skip _ _ (activityEvent_noStamp _ _ H8)).
    rewrite (activityEvent_firstStamp _ _ _ H).
    apply firstTruthy_stamp. by destruct H as (? & ? & ? & _ & _ & _ & _ & ?).
  - intros H8 H9 ts H. rewrite (firstTruthy_skip _ _ (activityEvent_noStamp _ _ H8)).
    rewrite (firstTruthy_skip _ _ (activityEvent_noStamp _ _ H9)).
    rewrite (activityEvent_firstStamp _ _ _ H).
    apply firstTruthy_stamp. by destruct H as (? & ? & ? & _ & _ & _ & _ & ?).
  - intros H8 H9 H2.
    pose proof (activityEvent_noStamp _ _ H8) as E8.
    pose proof (activityEvent_noStamp _ _ H9) as E9.
    pose proof (activityEvent_noStamp _ _ H2) as E2.
    rewrite E9. rewrite !(firstTruthy_skip _ _ E8), !(firstTruthy_skip _ _ E9),
      !(firstTruthy_skip _ _ E2).
    repeat split; try done. by rewrite (firstTruthy_skip _ _ E8).
Qed.

(** The fallback example of the specification: no entry at all, a closing
    time on the call. *)
Lemma C4_cleared_cascade_witness :
  cleared (generateXML_times Samples.closedCall []) = "2025-05-05T20:00:00Z"
  /\ backInService (generateXML_times Samples.closedCall []) = ""
  /\ cleared (logCallData_times Samples.closedCall []) = "2025-05-05T20:00:00Z"
  /\ backInService (logCallData_times Samples.closedCall []) = "".
Proof.
  destruct (C4_cleared_cascade Samples.closedCall []) as (_ & _ & _ & H).
  apply H; apply hasStatus_noStamp; reflexivity.
Defined.

(** C9: [activityEvent] looks at the status id alone, so an entry of type
    "Personnel" supplies the en-route time in both outputs of
    [final-with-sheets-fix.js]; the single-unit variants, which keep only
    the entries of type "Unit" named as the selected unit, derive nothing
    from it. *)
Theorem C9_non_unit_entry_supplies_timestamp (call : Call) parseAddress lastUpdated :
  Forall (fun e => act_Type e <> Some "Unit") Samples.personnelLog
  /\ enRoute (generateXML_times call Samples.personnelLog) = "2025-05-06T10:45:16"
  /\ Xml.field "UnitEnRoute" (generateXML parseAddress call Samples.personnelLog)
     = Some (Some "2025-05-06T10:45:16")
  /\ logCallData_rowData parseAddress call Samples.personnelLog lastUpdated !! 13%nat
     = Some (Some "2025-05-06T10:45:16")
  /\ Shapes.unitEnRouteTime
       (Shapes.deriveUnit emptyCall (Samples.extra None (Some Samples.personnelLog))) = "".
Proof.
  split; [by repeat constructor|]. split; [reflexivity|]. split; [|split].
  - by destruct (OutputFacts.generateXML_fields parseAddress call Samples.personnelLog)
      as (_ & _ & -> & _).
  - by destruct (OutputFacts.logCallData_columns parseAddress call Samples.personnelLog
                   lastUpdated) as (_ & _ & -> & _).
  - vm_compute. reflexivity.
Qed.

End Timestamps.

(** ** The unit roster *)

Module RosterFacts.
Import JS Raw FinalWithSheets Roster.

Lemma indexOf_None x l : indexOf x l = None <-> x ∉ l.
Proof.
  induction l as [|y l IH]; simpl.
  - split; [intros _; apply not_elem_of_nil|done].
  - rewrite not_elem_of_cons. destruct (decide (y = x)) as [->|Hne].
    + split; [done|]. by intros [? _].
    + rewrite fmap_None, IH. split; [by split|by intros [_ ?]].
Qed.

Lemma indexOf_Some x l i : indexOf x l = Some i -> x ∈ l.
Proof.
  intros H. destruct (decide (x ∈ l)) as [|Hn]; [done|].
  apply indexOf_None in Hn. congruence.
Qed.

Lemma indexOf_elem x l : x ∈ l -> exists i, indexOf x l = Some i.
Proof.
  intros H. destruct (indexOf x l) as [i|] eqn:E; [by exists i|].
  by apply indexOf_None in E.
Qed.

Lemma indexOf_lt x l i : indexOf x l = Some i -> (i < length l)%nat.
Proof.
  revert i. induction l as [|y l IH]; intros i; simpl; [done|].
  destruct (decide (y = x)).
  - intros [= <-]. lia.
  - destruct (indexOf x l) as [j|]; [|done]. intros [= <-].
    specialize (IH j eq_refl). lia.
Qed.

Lemma indexOf_app x l1 l2 :
  indexOf x (l1 ++ l2) =
  match indexOf x l1 with
  | Some i => Some i
  | None => (fun j => length l1 + j)%nat <$> indexOf x l2
  end.
Proof.
  induction l1 as [|y l1 IH]; simpl.
  - by destruct (indexOf x l2).
  - destruct (decide (y = x)); [done|]. rewrite IH.
    destruct (indexOf x l1); [done|]. by destruct (indexOf x l2).
Qed.

(** First-occurrence order in a concatenation. *)
Lemma before_app x y l1 l2 :
  before x y (l1 ++ l2) <->
  before x y l1 \/ ((x ∈ l1) /\ (y ∉ l1) /\ (y ∈ l2))
  \/ ((x ∉ l1) /\ (y ∉ l1) /\ before x y l2).
Proof.
  unfold before. rewrite !indexOf_app.
  destruct (indexOf x l1) as [p1|] eqn:Ex; destruct (indexOf y l1) as [q1|] eqn:Ey.
  - split.
    + intros (p & q & [= <-] & [= <-] & Hlt). left. by exists p1, q1.
    + intros [(p & q & [= <-] & [= <-] & Hlt)|[(_ & Hy & _)|(Hx & _)]].
      * by exists p1, q1.
      * apply indexOf_None in Hy. congruence.
      * apply indexOf_None in Hx. congruence.
  - split.
    + intros (p & q & [= <-] & Hq & Hlt). right. left.
      split; [by eapply indexOf_Some|]. split; [by apply indexOf_None|].
      destruct (indexOf y l2) as [j|] eqn:Ej; [|done]. by eapply indexOf_Some.
    + intros [(p & q & _ & [=] & _)|[(_ & _ & Hy)|(Hx & _)]].
      * apply indexOf_elem in Hy as [j Hj]. rewrite Hj.
        exists p1, (length l1 + j)%nat. split; [done|]. split; [done|].
        apply indexOf_lt in Ex. lia.
      * apply indexOf_None in Hx. congruence.
  - split.
    + intros (p & q & Hp & [= <-] & Hlt).
      destruct (indexOf x l2) as [j|]; [|done]. injection Hp as <-.
      apply indexOf_lt in Ey. lia.
    + intros [(p & q & [=] & _)|[(Hx & _)|(_ & Hy & _)]].
      * apply indexOf_None in Ex. done.
      * apply indexOf_None in Hy. congruence.
  - split.
    + intros (p & q & Hp & Hq & Hlt). right. right.
      split; [by apply indexOf_None|]. split; [by apply indexOf_None|].
      destruct (indexOf x l2) as [i|]; [|done].
      destruct (indexOf y l2) as [j|]; [|done].
      injection Hp as <-. injection Hq as <-. exists i, j. repeat split. lia.
    + intros [(p & q & [=] & _)|[(Hx & _)|(_ & _ & (i & j & -> & -> & Hlt))]].
      * apply indexOf_None in Ex. done.
      * exists (length l1 + i)%nat, (length l1 + j)%nat. repeat split. lia.
Qed.

Lemma before_cons_ne x y z l : z <> x -> z <> y -> before x y (z :: l) <-> before x y l.
Proof.
  intros Hx Hy. unfold before. simpl.
  destruct (decide (z = x)); [done|]. destruct (decide (z = y)); [done|].
  split.
  - intros (p & q & Hp & Hq & Hlt).
    destruct (indexOf x l) as [i|]; [|done]. destruct (indexOf y l) as [j|]; [|done].
    injection Hp as <-. injection Hq as <-. exists i, j. repeat split. lia.
  - intros (i & j & -> & -> & Hlt). exists (S i), (S j). repeat split. lia.
Qed.

Lemma setAdd_elem s x y : y ∈ setAdd s x <-> y ∈ s \/ y = x.
Proof.
  unfold setAdd. case_bool_decide as H.
  - split; [by left|]. by intros [?| ->].
  - rewrite elem_of_app, list_elem_of_singleton. done.
Qed.

Lemma setAdd_NoDup s x : NoDup s -> NoDup (setAdd s x).
Proof.
  intros Hs. unfold setAdd. case_bool_decide as H; [done|].
  apply NoDup_app. split; [done|]. split.
  - intros y Hy ->%list_elem_of_singleton. done.
  - apply NoDup_singleton.
Qed.

Lemma fold_setAdd_NoDup l acc : NoDup acc -> NoDup (fold_left setAdd l acc).
Proof.
  revert acc. induction l as [|x l IH]; intros acc Hacc; simpl; [done|].
  by apply IH, setAdd_NoDup.
Qed.

Lemma fold_setAdd_elem l acc y : y ∈ fold_left setAdd l acc <-> y ∈ acc \/ y ∈ l.
Proof.
  revert acc. induction l as [|x l IH]; intros acc; simpl.
  - split; [by left|]. intros [?|H]; [done|]. by apply not_elem_of_nil in H.
  - rewrite IH, setAdd_elem, elem_of_cons. tauto.
Qed.

(** Adding an element already present does not move first occurrences. *)
Lemma before_insert_dup x y z acc l :
  z ∈ acc -> before x y (acc ++ z :: l) <-> before x y (acc ++ l).
Proof.
  intros Hz. rewrite !before_app.
  assert (Hy : y ∉ acc -> (y ∈ z :: l <-> y ∈ l)).
  { intros Hn. rewrite elem_of_cons. split; [|by right]. intros [->|?]; done. }
  assert (Hb : x ∉ acc -> y ∉ acc -> (before x y (z :: l) <-> before x y l)).
  { intros Hx Hn. apply before_cons_ne; intros ->; done. }
  tauto.
Qed.

Lemma fold_setAdd_before l acc x y :
  before x y (fold_left setAdd l acc) <-> before x y (acc ++ l).
Proof.
  revert acc. induction l as [|z l IH]; intros acc; simpl.
  - by rewrite app_nil_r.
  - rewrite IH. unfold setAdd. case_bool_decide as H.
    + symmetry. by apply before_insert_dup.
    + by rewrite <- app_assoc.
Qed.

Lemma activityUnits_elem act x :
  x ∈ activityUnits act <->
  exists a, a ∈ act /\ act_Type a = Some "Unit" /\ act_Name a = x.
Proof.
  unfold activityUnits. rewrite list_elem_of_fmap. split.
  - intros (a & -> & Ha). apply list_elem_of_In, filter_In in Ha as [Ha Ht].
    exists a. split; [by apply list_elem_of_In|]. split; [|done].
    destruct (act_Type a) as [t|]; [|done]. simpl in Ht. by apply String.eqb_eq in Ht as ->.
  - intros (a & Ha & Ht & <-). exists a. split; [done|].
    apply list_elem_of_In, filter_In. split; [by apply list_elem_of_In|]. by rewrite Ht.
Qed.

Lemma dispatchUnits_elem call x :
  x ∈ dispatchUnits call <->
  exists ds d, Dispatches call = Some ds /\ d ∈ ds /\ disp_Type d = Some "Unit"
               /\ disp_Name d = x /\ truthy x = true.
Proof.
  unfold dispatchUnits. destruct (Dispatches call) as [ds|].
  - rewrite list_elem_of_fmap. split.
    + intros (d & -> & Hd). apply list_elem_of_In, filter_In in Hd as [Hd Ht].
      apply andb_true_iff in Ht as [Ht Hn].
      exists ds, d. split; [done|]. split; [by apply list_elem_of_In|].
      split; [|done]. destruct (disp_Type d) as [t|]; [|done]. simpl in Ht.
      by apply String.eqb_eq in Ht as ->.
    + intros (ds' & d & [= <-] & Hd & Ht & <- & Hn). exists d. split; [done|].
      apply list_elem_of_In, filter_In. split; [by apply list_elem_of_In|].
      by rewrite Ht, Hn.
  - split; [by intros ?%not_elem_of_nil|]. by intros (? & ? & [=] & _).
Qed.

End RosterFacts.

(** ** Claim on the unit roster *)

Section UnitRoster.
Import JS Raw FinalWithSheets Roster RosterFacts.

(** C5: the roster computed in [generateXML] and in [logCallData] holds
    every name of the concatenation (names of the activity entries of type
    "Unit", then names of the dispatches of type "Unit") exactly once, in
    the order of first occurrence; names of entries of another type take
    no part. *)
Theorem C5_unit_roster (call : Call) (activity : list Activity) :
  let names := activityUnits activity ++ dispatchUnits call in
  let roster := uniqueUnits call activity in
  NoDup roster
  /\ (forall x, x ∈ roster <-> x ∈ names)
  /\ (forall x y, before x y roster <-> before x y names)
  /\ (forall x, x ∈ names <->
        (exists a, a ∈ activity /\ act_Type a = Some "Unit" /\ act_Name a = x)
        \/ (exists ds d, Dispatches call = Some ds /\ d ∈ ds /\ disp_Type d = Some "Unit"
                         /\ disp_Name d = x /\ truthy x = true))
  /\ (forall parseAddress lastUpdated,
        Xml.field "EmsUnitCallSign" (generateXML parseAddress call activity)
        = Some (Some (unitsCsv call activity))
        /\ logCallData_rowData parseAddress call activity lastUpdated !! 11%nat
           = Some (Some (unitsCsv call activity))).
Proof.
  cbn zeta. unfold uniqueUnits, newSet. split; [|split; [|split; [|split]]].
  - apply fold_setAdd_NoDup, NoDup_nil_2.
  - intros x. rewrite fold_setAdd_elem. split; [|by right].
    intros [H|H]; [by apply not_elem_of_nil in H|done].
  - intros x y. by rewrite fold_setAdd_before.
  - intros x. by rewrite elem_of_app, activityUnits_elem, dispatchUnits_elem.
  - intros parseAddress lastUpdated. split.
    + by destruct (OutputFacts.generateXML_fields parseAddress call activity) as (_ & -> & _).
    + by destruct (OutputFacts.logCallData_columns parseAddress call activity lastUpdated)
        as (_ & -> & _).
Qed.

(** A unit named in both sources appears once, where it first occurred. *)
Example roster_shared_unit :
  uniqueUnits Samples.sharedUnitCall Samples.sharedUnitLog = [Some "STN1"; Some "M2"]
  /\ unitsCsv Samples.sharedUnitCall Samples.sharedUnitLog = "STN1, M2".
Proof. split; vm_compute; reflexivity. Qed.

End UnitRoster.

(** ** Unit selection of the single-unit variants *)

Module SelectionFacts.
Import JS Raw Shapes RegexFacts.

Lemma validUnitName_spec u :
  validUnitName u = true <->
  (String.length u <= 9)%nat /\ u <> EmptyString /\ allChars isAlnum u = true.
Proof.
  unfold validUnitName, ALNUM_RE.
  rewrite andb_true_iff, bool_decide_eq_true, full_plus_cls. tauto.
Qed.

Lemma deriveUnit_name call extra :
  unitName (deriveUnit call extra) = unitName (selectUnit call extra).
Proof.
  unfold deriveUnit, applyCallTimes, applyActivity.
  by destruct (Activity_ extra).
Qed.

Lemma unitFromCsv_cases call :
  unitFromCsv call = EmptyString
  \/ (validUnitName (unitFromCsv call) = true
      /\ truthy (UnitsCsv call) = true
      /\ unitFromCsv call ∈ trim <$> split "," (or_empty (UnitsCsv call))).
Proof.
  unfold unitFromCsv. destruct (truthy (UnitsCsv call)) eqn:Ht; [|by left].
  destruct (List.find _ _) as [v|] eqn:Hf; [|by left].
  apply find_some in Hf as [Hin Hv].
  destruct v as [|c v]; [by left|]. right. simpl.
  split; [done|]. split; [done|]. by apply list_elem_of_In.
Qed.

Lemma validUnits_head ds d rest :
  validUnits ds = d :: rest ->
  d ∈ ds /\ disp_Type d = Some "Unit" /\ truthy (disp_Name d) = true
  /\ validUnitName (or_empty (disp_Name d)) = true.
Proof.
  intros H. assert (Hin : In d (validUnits ds)) by (rewrite H; by left).
  unfold validUnits in Hin. apply filter_In in Hin as [Hin Hp].
  apply andb_true_iff in Hp as [Hp Hv]. apply andb_true_iff in Hp as [Ht Hn].
  split; [by apply list_elem_of_In|]. split; [|done].
  destruct (disp_Type d) as [t|]; [|done]. simpl in Ht. by apply String.eqb_eq in Ht as ->.
Qed.

(** The selected name is empty, or a valid candidate. *)
Lemma selectUnit_cases call extra :
  let u := unitName (selectUnit call extra) in
  u = EmptyString \/ (validUnitName u = true /\ u ∈ candidates call extra).
Proof.
  cbn zeta. unfold selectUnit, candidates.
  destruct (unitFromCsv_cases call) as [Hcsv|(Hv & Ht & Hin)].
  - rewrite Hcsv. destruct (Dispatches extra) as [ds|]; [|by left]. simpl.
    destruct (validUnits ds) as [|d rest] eqn:Hvu; [by left|].
    apply validUnits_head in Hvu as (Hd & Hty & Hn & Hv). right. simpl.
    split; [done|]. apply elem_of_app. right. apply list_elem_of_fmap.
    exists d. split; [done|]. apply list_elem_of_In, filter_In.
    split; [by apply list_elem_of_In|]. by rewrite Hty, Hn.
  - assert (Hne : truthy (Some (unitFromCsv call)) = true).
    { destruct (unitFromCsv call); [by vm_compute in Hv|done]. }
    right. rewrite Ht.
    assert (Hu : unitName
              (match Dispatches extra with
               | Some ds =>
                   if negb (truthy (Some (unitName (mkUnit (unitFromCsv call) "" "" "" "" "" ""))))
                   then match validUnits ds with
                        | d :: _ =>
                            mkUnit (or_empty (disp_Name d))
                              (or_empty (or_else (disp_Location d) (Some EmptyString)))
                              (setIf (disp_EnRouteTime d) EmptyString)
                              (setIf (disp_ArrivedTime d) EmptyString)
                              (setIf (disp_AtPatientTime d) EmptyString)
                              (setIf (disp_ClearedTime d) EmptyString) EmptyString
                        | [] => mkUnit (unitFromCsv call) "" "" "" "" "" ""
                        end
                   else mkUnit (unitFromCsv call) "" "" "" "" "" ""
               | None => mkUnit (unitFromCsv call) "" "" "" "" "" ""
               end) = unitFromCsv call).
    { destruct (Dispatches extra); [|done]. cbn [unitName]. by rewrite Hne. }
    rewrite Hu. split; [done|]. apply elem_of_app. by left.
Qed.

End SelectionFacts.

(** ** Claims on the single-unit serializer and sheet writer *)

Section SingleUnit.
Import JS Raw Shapes SelectionFacts.

(** C10: the unit written to [EmsUnitCallSign] and to the "Unit Name"
    column is either empty or a candidate of at most 9 characters made of
    ASCII letters and digits only; when every candidate fails that test
    the field is empty. *)
Theorem C10_unit_name_filter (callData : callInput) (extraData : extraInput) :
  let call := callGetData callData in
  let extra := extraGetData callData extraData in
  let u := unitName (deriveUnit call extra) in
  (u <> "" ->
     (String.length u <= 9)%nat /\ allChars isAlnum u = true /\ u ∈ candidates call extra)
  /\ ((forall c, c ∈ candidates call extra ->
                 ~ ((String.length c <= 9)%nat /\ allChars isAlnum c = true)) ->
      u = "")
  /\ (forall isoDate,
        XmlGenerator.fields isoDate callData extraData !! 8%nat = Some ("EmsUnitCallSign", u))
  /\ (forall timestamp,
        SheetsLogger.sheetCallRow_values callData extraData timestamp !! 11%nat = Some u).
Proof.
  cbn zeta. rewrite deriveUnit_name.
  pose proof (selectUnit_cases (callGetData callData) (extraGetData callData extraData)) as H.
  cbn zeta in H. split; [|split; [|split]].
  - intros Hne. destruct H as [H|[Hv Hc]]; [done|].
    apply validUnitName_spec in Hv as (Hlen & _ & Hall). done.
  - intros Hall. destruct H as [H|[Hv Hc]]; [done|].
    apply validUnitName_spec in Hv as (Hlen & _ & Halnum).
    exfalso. by apply (Hall _ Hc).
  - intros isoDate. unfold XmlGenerator.fields. OutputFacts.split_pairs.
    cbn [lookup list_lookup]. by rewrite deriveUnit_name.
  - intros timestamp. unfold SheetsLogger.sheetCallRow_values. OutputFacts.split_pairs.
    cbn [lookup list_lookup]. by rewrite deriveUnit_name.
Qed.

(** Hyphenated, spaced and long names are dropped: the unit field is
    empty. *)
Lemma C10_unit_name_filter_witness :
  unitName (deriveUnit Samples.hyphenatedUnits Samples.hyphenatedUnits) = "".
Proof.
  destruct (C10_unit_name_filter (Direct Samples.hyphenatedUnits)
              (mkExtra None Samples.hyphenatedUnits)) as (_ & H & _).
  apply H. intros c Hc [Hlen Hall].
  apply list_elem_of_In in Hc. vm_compute in Hc.
  destruct Hc as [<-|[<-|[<-|[<-|[]]]]]; vm_compute in Hall, Hlen; try discriminate; lia.
Defined.

(** C6: the template of [src/xml-generator.js] interpolates the values as
    they are.  A nature with [&] and [<] is written unescaped, so the
    output is not well-formed. *)
Theorem C6_markup_not_escaped (isoDate : string -> option string) :
  let xml := XmlGenerator.generateXML isoDate (Direct Samples.markupCall) noExtra in
  XmlGenerator.fields isoDate (Direct Samples.markupCall) noExtra !! 7%nat
    = Some ("CadDispatchText", "Fall & head injury <minor>")
  /\ includes "<CadDispatchText>Fall & head injury <minor></CadDispatchText>" xml = true
  /\ Escaping.xmlEscape "Fall & head injury <minor>" = "Fall &amp; head injury &lt;minor&gt;"
  /\ includes "Fall &amp; head injury &lt;minor&gt;" xml = false.
Proof. cbn zeta. repeat split; vm_compute; reflexivity. Qed.

End SingleUnit.

(** ** The retry loop *)

Module RetryFacts.
Import RetryUtil.

Section Loop.
Context {W A E : Type} (logger : list string) (typeError : string -> E)
        (fn : W -> (A + E) * W) (opts : options E).

(** One turn of the [while] loop. *)
Lemma loop_step retryCount lastError w trace :
  loop logger typeError fn opts retryCount lastError w trace =
  if retryCount <=? maxRetries opts then
    match attempt logger typeError fn retryCount w with
    | (inl a, w', tried) => (Resolved a, w', trace ++ tried)
    | (inr error, w', tried) =>
        if (retryCount >=? maxRetries opts) || negb (shouldRetry opts error)
        then
          if callable logger "error" then (Rejected (Some error), w', trace ++ tried)
          else (Rejected (Some (typeError "logger.error is not a function")), w',
                trace ++ tried)
        else
          if callable logger "warn"
          then loop logger typeError fn opts (retryCount + 1) (Some error) w'
                    (trace ++ tried ++ [Sleep (delay opts retryCount)])
          else (Rejected (Some (typeError "logger.warn is not a function")), w',
                trace ++ tried)
    end
  else (Rejected lastError, w, trace).
Proof.
  rewrite loop_equation_1.
  destruct (Z_le_gt_dec retryCount (maxRetries opts)) as [Hle|Hgt].
  - rewrite loop_clause_1_equation_1.
    destruct (attempt logger typeError fn retryCount w) as [[[a|error] w'] tried]; simp loop;
      by rewrite (proj2 (Z.leb_le _ _) Hle).
  - rewrite loop_clause_1_equation_2.
    by rewrite (proj2 (Z.leb_gt _ _)) by lia.
Qed.

(** With a logger that has the three methods the [try] block is the call
    of [fn]. *)
Lemma attempt_logged retryCount w :
  callable logger "info" = true ->
  attempt logger typeError fn retryCount w = ((fn w).1, (fn w).2, [Attempt]).
Proof.
  intros Hinfo. unfold attempt. rewrite Hinfo, andb_false_r. by destruct (fn w).
Qed.

Hypothesis has_info : callable logger "info" = true.
Hypothesis has_warn : callable logger "warn" = true.
Hypothesis has_error : callable logger "error" = true.
Hypothesis always_fails :
  forall w, exists e, (fn w).1 = inr e /\ shouldRetry opts e = true.

(** [n] retries are left and every attempt fails: [fn] runs [n + 1] times,
    each on the world the run before left. *)
Lemma loop_all_fail n retryCount lastError w trace :
  retryCount + Z.of_nat n = maxRetries opts ->
  loop logger typeError fn opts retryCount lastError w trace
  = (Rejected (Some (match (fn (Nat.iter n (fun w => (fn w).2) w)).1 with
                     | inr e => e
                     | inl _ => typeError EmptyString
                     end)),
     Nat.iter (S n) (fun w => (fn w).2) w,
     trace ++ failingRun (delay opts) n retryCount).
Proof.
  revert retryCount lastError w trace.
  induction n as [|n IH]; intros rc lastError w trace Hrc; rewrite loop_step;
    rewrite attempt_logged by done;
    destruct (always_fails w) as (e & He & Hretry);
    rewrite (proj2 (Z.leb_le _ _)) by lia; rewrite He, Hretry; simpl negb;
    rewrite orb_false_r.
  - rewrite (proj2 (Z.geb_le _ _)) by lia. rewrite has_error. simpl. by rewrite He.
  - destruct (rc >=? maxRetries opts) eqn:Hge.
    { apply Z.geb_le in Hge. lia. }
    assert (Hit : forall k, Nat.iter k (fun w0 => (fn w0).2) (fn w).2
                            = Nat.iter (S k) (fun w0 => (fn w0).2) w).
    { intros k. symmetry. apply (Nat.iter_succ_r k (fun w0 : W => (fn w0).2) w). }
    rewrite has_warn, IH, !Hit by lia. f_equal. by rewrite <- app_assoc.
Qed.

End Loop.

(** Bound to the module object, the wrapper calls [fn] once: it hands on
    what [fn] resolves to, and a failure ends in the [TypeError] of the
    first log call of the [catch] block. *)
Lemma withRetry_once {W A E : Type} (typeError : string -> E) (fn : W -> (A + E) * W)
    (opts : options E) (w : W) :
  0 <= maxRetries opts ->
  withRetry typeError fn opts w =
  match fn w with
  | (inl a, w') => (Resolved a, w', [Attempt])
  | (inr error, w') =>
      (Rejected (Some (typeError
         (if (0 >=? maxRetries opts) || negb (shouldRetry opts error)
          then "logger.error is not a function"
          else "logger.warn is not a function"))), w', [Attempt])
  end.
Proof.
  intros Hmax. unfold withRetry, withRetryUsing. rewrite loop_step.
  rewrite (proj2 (Z.leb_le _ _)) by lia. unfold attempt.
  change (0 <? 0) with false. cbn [andb].
  change (callable logger "error") with false.
  change (callable logger "warn") with false.
  destruct (fn w) as [[a|error] w']; [done|].
  by destruct ((0 >=? maxRetries opts) || negb (shouldRetry opts error)).
Qed.

Lemma attempts_app t1 t2 : attempts (t1 ++ t2) = (attempts t1 + attempts t2)%nat.
Proof. unfold attempts. by rewrite List.filter_app, length_app. Qed.

Lemma attempts_failingRun d n rc : attempts (failingRun d n rc) = S n.
Proof.
  revert rc. induction n as [|n IH]; intros rc; [done|].
  change (failingRun d (S n) rc) with ([Attempt; Sleep (d rc)] ++ failingRun d n (rc + 1)).
  by rewrite attempts_app, IH.
Qed.

Lemma delays_failingRun d n rc :
  delays (failingRun d n rc) = (fun k => d (rc + Z.of_nat k)) <$> seq 0 n.
Proof.
  revert rc. induction n as [|n IH]; intros rc; [done|].
  simpl. rewrite Z.add_0_r. f_equal. rewrite IH, <- seq_shift, <- list_fmap_compose.
  apply list_fmap_ext. intros _ k _. simpl. f_equal. lia.
Qed.

(** With a positive initial delay and a cap below the overflow threshold
    the delay is the integer formula: no infinity or NaN is met. *)
Lemma delay_exact {E} (opts : options E) k :
  exponential opts = true -> 0 < initialDelay opts -> maxDelay opts < overflow -> 0 <= k ->
  delay opts k = Finite (Z.min (initialDelay opts * 2 ^ k) (maxDelay opts)).
Proof.
  intros Hexp Hinit Hcap Hk. unfold delay, pow2. rewrite Hexp.
  assert (Hpow : 0 < 2 ^ k) by (apply Z.pow_pos_nonneg; lia).
  destruct (k <? 1024) eqn:Hsmall.
  - cbn [times]. destruct (Z.abs (initialDelay opts * 2 ^ k) <? overflow) eqn:Hov; [done|].
    apply Z.ltb_ge in Hov. rewrite Z.abs_eq in Hov by nia.
    rewrite (proj2 (Z.ltb_lt _ _)) by nia. cbn [minWith]. f_equal. lia.
  - apply Z.ltb_ge in Hsmall. cbn [times].
    rewrite (proj2 (Z.eqb_neq _ _)) by lia. rewrite (proj2 (Z.ltb_lt _ _)) by lia.
    cbn [minWith]. f_equal.
    assert (overflow <= 2 ^ k).
    { unfold overflow. apply Z.pow_le_mono_r; lia. }
    nia.
Qed.

(** The integer formula does not shrink from one retry to the next. *)
Lemma backoff_mono (initial cap k : Z) :
  0 <= initial -> 0 <= k ->
  Z.min (initial * 2 ^ k) cap <= Z.min (initial * 2 ^ (k + 1)) cap.
Proof.
  intros Hi Hk. apply Z.min_le_compat_r. rewrite Z.pow_add_r by lia.
  assert (0 < 2 ^ k) by (apply Z.pow_pos_nonneg; lia). nia.
Qed.

End RetryFacts.

(** ** The fingerprint cache *)

Module CacheFacts.
Import JS RetryUtil SftpClient.

(** Whenever the fingerprint can be computed, the cache holds it after the
    call, whatever the transfer did. *)
Lemma uploadFileToSFTP_cache World fingerprint transfer localFilePath remoteFilePath
    (fileFingerprints : gmap string string) (w : World) h :
  fingerprint localFilePath = Some h ->
  (uploadFileToSFTP World fingerprint transfer localFilePath remoteFilePath
     fileFingerprints w).1.1.2 !! cacheKey localFilePath remoteFilePath = Some h.
Proof.
  intros Hh. unfold uploadFileToSFTP, hasFileChanged. rewrite Hh.
  destruct (negb (truthy _)).
  - simpl. destruct (withRetry _ _ _ _) as [[r w'] t]. simpl. apply lookup_insert_eq.
  - destruct (negb (String.eqb _ _)); simpl.
    + destruct (withRetry _ _ _ _) as [[r w'] t]. simpl. apply lookup_insert_eq.
    + apply lookup_insert_eq.
Qed.

End CacheFacts.

(** ** Claims on the delivery wrapper *)

Section Delivery.
Import JS RetryUtil SftpClient RetryFacts.

(** C7: the upload is not retried.  [retry-util.js] binds [logger] to the
    module object of [logger.js], which has no [warn] or [error] method,
    so the first log call of the [catch] block throws.  Against a server
    that times out on every attempt - an error the upload may retry, with
    five retries allowed - the transfer runs once, no wait is made, and
    the promise rejects with the [TypeError] instead of the time-out. *)
Theorem C7_upload_attempted_once :
  let run :=
    uploadFileToSFTP nat (fun _ => Some Samples.sampleDigest) (fun _ _ => Samples.alwaysTimeout)
      "incident_198513.xml" "/incoming/incident_198513.xml" ∅ 0%nat in
  (forall n, Samples.alwaysTimeout n = (inr "ETIMEDOUT", S n))
  /\ uploadShouldRetry "ETIMEDOUT" = true
  /\ maxRetries uploadOptions + 1 = 6
  /\ run.1.2 = 1%nat
  /\ attempts run.2 = 1%nat
  /\ delays run.2 = []
  /\ run.1.1.1 = Rejected (Some "logger.warn is not a function").
Proof. cbn zeta. repeat split; vm_compute; reflexivity. Qed.

(** C8: [hasFileChanged] stores the new fingerprint before the transfer
    is tried.  After an upload that was rejected the cache entry, absent
    before, holds the digest of the file, and the next call for the same
    file is answered "unchanged" without any transfer. *)
Theorem C8_cache_changed_on_failed_upload :
  let fingerprint := fun _ : string => Some Samples.sampleDigest in
  let transfer := fun _ _ : string => Samples.alwaysTimeout in
  let localFile := "incident_198513.xml" in
  let remoteFile := "/incoming/incident_198513.xml" in
  let first := uploadFileToSFTP nat fingerprint transfer localFile remoteFile ∅ 0%nat in
  let second :=
    uploadFileToSFTP nat fingerprint transfer localFile remoteFile first.1.1.2 first.1.2 in
  (∅ : gmap string string) !! cacheKey localFile remoteFile = None
  /\ (exists error, first.1.1.1 = Rejected error)
  /\ first.1.1.2 !! cacheKey localFile remoteFile = Some Samples.sampleDigest
  /\ second.1.1.1 = Resolved false
  /\ second.2 = []
  /\ second.1.2 = first.1.2.
Proof.
  cbn zeta. split; [done|]. split.
  - eexists. vm_compute. reflexivity.
  - repeat split; vm_compute; reflexivity.
Qed.

End Delivery.

(** * Further properties of the delivery wrapper *)

Section DeliveryExtras.
Import JS RetryUtil SftpClient RetryFacts FingerprintCache.

(** X1: as bound in the repository, [withRetry] never retries.  With
    [maxRetries >= 0] it calls the operation exactly once: it resolves
    with what the operation resolves to, and when the operation throws it
    rejects, without a wait, with the [TypeError] of the log call it
    reaches first ([logger.error] when no retry is due, [logger.warn]
    otherwise) - never with the operation's own error.  With a negative
    [maxRetries] the operation is not called and the promise rejects with
    [undefined]. *)
Theorem X1_withRetry_never_retries {W A E : Type} (typeError : string -> E)
    (fn : W -> (A + E) * W) (opts : options E) (w : W) :
  (0 <= maxRetries opts ->
   withRetry typeError fn opts w =
   match fn w with
   | (inl a, w') => (Resolved a, w', [Attempt])
   | (inr error, w') =>
       (Rejected (Some (typeError
          (if (0 >=? maxRetries opts) || negb (shouldRetry opts error)
           then "logger.error is not a function"
           else "logger.warn is not a function"))), w', [Attempt])
   end)
  /\ (maxRetries opts < 0 -> withRetry typeError fn opts w = (Rejected None, w, [])).
Proof.
  split; [apply withRetry_once|].
  intros Hneg. unfold withRetry, withRetryUsing. rewrite loop_step.
  by rewrite (proj2 (Z.leb_gt _ _)) by lia.
Qed.

(** A server that always times out is asked once. *)
Lemma X1_withRetry_never_retries_witness :
  withRetry (fun message => message) Samples.alwaysTimeout uploadOptions 0%nat
  = (Rejected (Some "logger.warn is not a function"), 1%nat, [Attempt]).
Proof.
  destruct (X1_withRetry_never_retries (fun message => message) Samples.alwaysTimeout
              uploadOptions 0%nat) as [H _].
  rewrite H; [reflexivity|]. simpl. lia.
Defined.

(** X2: what the loop of [withRetry] does once [logger] is the logger
    object that [logger.js] exports under that name (as the sibling
    modules bind it).  When every attempt fails with an error that may be
    retried, the operation runs [maxRetries + 1] times, each time on the
    world the run before left, a wait follows each failure but the last,
    and the promise rejects with the last error.  With exponential
    backoff, a positive initial delay and a cap below [2^1024] the waits
    are [min(initialDelay * 2^k, maxDelay)], none longer than the cap and
    none shorter than the one before. *)
Theorem X2_retry_bound_with_logger_object {W A E : Type} (typeError : string -> E)
    (fn : W -> (A + E) * W) (opts : options E) (w : W) :
  0 <= maxRetries opts ->
  (forall w, exists e, (fn w).1 = inr e /\ shouldRetry opts e = true) ->
  let n := Z.to_nat (maxRetries opts) in
  let run := withRetryUsing Logger.enhancedLogger typeError fn opts w in
  run.1.2 = Nat.iter (S n) (fun w => (fn w).2) w
  /\ (exists e, run.1.1 = Rejected (Some e)
                /\ (fn (Nat.iter n (fun w => (fn w).2) w)).1 = inr e)
  /\ run.2 = failingRun (delay opts) n 0
  /\ attempts run.2 = S n
  /\ (exponential opts = true -> 0 < initialDelay opts -> maxDelay opts < overflow ->
      delays run.2
      = (fun k : nat => Finite (Z.min (initialDelay opts * 2 ^ Z.of_nat k) (maxDelay opts)))
          <$> seq 0 n
      /\ (forall i d, delays run.2 !! i = Some d ->
            exists z, d = Finite z /\ z <= maxDelay opts)
      /\ (forall i z1 z2, delays run.2 !! i = Some (Finite z1) ->
            delays run.2 !! S i = Some (Finite z2) -> z1 <= z2)).
Proof.
  intros Hmax Hfail. cbn zeta. unfold withRetryUsing.
  rewrite (loop_all_fail Logger.enhancedLogger typeError fn opts eq_refl eq_refl eq_refl
             Hfail (Z.to_nat (maxRetries opts)) 0 None w []) by lia.
  cbn [fst snd app].
  set (n := Z.to_nat (maxRetries opts)).
  split; [done|]. split; [|split; [done|split; [apply attempts_failingRun|]]].
  - destruct (Hfail (Nat.iter n (fun w => (fn w).2) w)) as (e & He & _).
    exists e. by rewrite He.
  - intros Hexp Hinit Hcap.
    assert (Hdelays : delays (failingRun (delay opts) n 0)
              = (fun k : nat => Finite (Z.min (initialDelay opts * 2 ^ Z.of_nat k)
                                              (maxDelay opts))) <$> seq 0 n).
    { rewrite delays_failingRun. apply list_fmap_ext. intros _ k _.
      rewrite Z.add_0_l. apply delay_exact; [done|done|done|lia]. }
    rewrite Hdelays. split; [done|]. split.
    + intros i d. rewrite list_lookup_fmap.
      destruct (seq 0 n !! i) as [k|]; [|done]. intros [= <-].
      eexists. split; [done|]. lia.
    + intros i z1 z2. rewrite !list_lookup_fmap.
      destruct (seq 0 n !! i) as [k1|] eqn:E1; [|done].
      destruct (seq 0 n !! S i) as [k2|] eqn:E2; [|done].
      apply lookup_seq in E1 as [-> _]. apply lookup_seq in E2 as [-> _].
      intros [= <-] [= <-]. cbn [Nat.add].
      replace (Z.of_nat (S i)) with (Z.of_nat i + 1) by lia.
      apply backoff_mono; lia.
Qed.

(** With the options of the upload: six runs, waits of 3, 6, 12, 24 and
    48 seconds. *)
Lemma X2_retry_bound_with_logger_object_witness :
  let run :=
    withRetryUsing Logger.enhancedLogger (fun message => message) Samples.alwaysTimeout
      uploadOptions 0%nat in
  run.1.2 = 6%nat
  /\ delays run.2 = [Finite 3000; Finite 6000; Finite 12000; Finite 24000; Finite 48000].
Proof.
  destruct (X2_retry_bound_with_logger_object (fun message => message) Samples.alwaysTimeout
              uploadOptions 0%nat) as (Hw & _ & _ & _ & Hd).
  - simpl. lia.
  - intros w. exists "ETIMEDOUT". split; [reflexivity|]. vm_compute. reflexivity.
  - split; [exact Hw|].
    destruct Hd as [Hd _]; [reflexivity|simpl; lia|reflexivity|]. exact Hd.
Defined.

(** X3: [uploadFileToSFTP] of a file that counts as changed runs the
    transfer exactly once.  It resolves with what the transfer returned;
    when the transfer throws, whatever the error, it makes no second
    attempt and no wait, and rejects with the [TypeError] of a log call:
    of [logger.error] when the message holds a non-retryable phrase, of
    [logger.warn] otherwise. *)
Theorem X3_upload_single_attempt (World : Type)
    (fingerprint : string -> option string)
    (transfer : string -> string -> World -> (bool + string) * World)
    (localFilePath remoteFilePath : string) (cache : gmap string string) (w : World) :
  (hasFileChanged fingerprint localFilePath remoteFilePath cache).1 = true ->
  uploadFileToSFTP World fingerprint transfer localFilePath remoteFilePath cache w
  = match transfer localFilePath remoteFilePath w with
    | (inl sent, w') =>
        (Resolved sent, (hasFileChanged fingerprint localFilePath remoteFilePath cache).2,
         w', [Attempt])
    | (inr message, w') =>
        (Rejected (Some (if uploadShouldRetry message
                         then "logger.warn is not a function"
                         else "logger.error is not a function")),
         (hasFileChanged fingerprint localFilePath remoteFilePath cache).2, w', [Attempt])
    end.
Proof.
  intros Hchanged. unfold uploadFileToSFTP.
  destruct (hasFileChanged _ _ _ _) as [changed cache'] eqn:Hhfc.
  simpl in Hchanged. subst changed. simpl negb. cbv iota.
  rewrite withRetry_once by (simpl; lia).
  destruct (transfer localFilePath remoteFilePath w) as [[sent|message] w']; [done|].
  cbn [uploadOptions maxRetries shouldRetry]. change (0 >=? 5) with false. cbn [orb].
  by destruct (uploadShouldRetry message).
Qed.

(** A refused login is tried once, and the refusal is lost. *)
Lemma X3_upload_single_attempt_witness :
  uploadFileToSFTP nat (fun _ => Some Samples.sampleDigest)
    (fun _ _ n => (inr "Permission denied (publickey)", S n))
    "incident_198513.xml" "/incoming/incident_198513.xml" ∅ 0%nat
  = (Rejected (Some "logger.error is not a function"),
     (hasFileChanged (fun _ => Some Samples.sampleDigest)
        "incident_198513.xml" "/incoming/incident_198513.xml" ∅).2, 1%nat, [Attempt]).
Proof.
  rewrite (X3_upload_single_attempt nat (fun _ => Some Samples.sampleDigest)
             (fun _ _ n => (inr "Permission denied (publickey)", S n))
             "incident_198513.xml" "/incoming/incident_198513.xml" ∅ 0%nat).
  - reflexivity.
  - vm_compute. reflexivity.
Defined.

(** X4: once [uploadFileToSFTP] has been called for a file whose digest is
    not empty, a second call for the same file and destination with
    unchanged content makes no transfer attempt, resolves to [false]
    ("unchanged") and leaves cache and server as they were - whether or not
    the first call managed to upload. *)
Theorem X4_upload_twice_skips_second (World : Type)
    (fingerprint : string -> option string)
    (transfer : string -> string -> World -> (bool + string) * World)
    (localFilePath remoteFilePath digest : string) (cache : gmap string string) (w : World) :
  fingerprint localFilePath = Some digest ->
  digest <> "" ->
  let first :=
    uploadFileToSFTP World fingerprint transfer localFilePath remoteFilePath cache w in
  uploadFileToSFTP World fingerprint transfer localFilePath remoteFilePath
    first.1.1.2 first.1.2
  = (Resolved false, first.1.1.2, first.1.2, []).
Proof.
  intros Hfp Hne. cbn zeta.
  pose proof (CacheFacts.uploadFileToSFTP_cache World fingerprint transfer localFilePath
                remoteFilePath cache w digest Hfp) as Hcache.
  destruct (uploadFileToSFTP World fingerprint transfer localFilePath remoteFilePath cache w)
    as [[[r c] w1] t]. simpl in *.
  assert (Ht : truthy (Some digest) = true) by (by destruct digest).
  unfold uploadFileToSFTP, hasFileChanged. rewrite Hfp, Hcache, Ht.
  cbn [or_empty negb]. rewrite String.eqb_refl. cbn [negb].
  by rewrite insert_id.
Qed.

Lemma X4_upload_twice_skips_second_witness :
  let first :=
    uploadFileToSFTP nat (fun _ => Some Samples.sampleDigest) (fun _ _ => Samples.alwaysTimeout)
      "incident_198513.xml" "/incoming/incident_198513.xml" ∅ 0%nat in
  uploadFileToSFTP nat (fun _ => Some Samples.sampleDigest) (fun _ _ => Samples.alwaysTimeout)
    "incident_198513.xml" "/incoming/incident_198513.xml" first.1.1.2 first.1.2
  = (Resolved false, first.1.1.2, first.1.2, []).
Proof.
  apply (X4_upload_twice_skips_second nat (fun _ => Some Samples.sampleDigest)
           (fun _ _ => Samples.alwaysTimeout) "incident_198513.xml"
           "/incoming/incident_198513.xml" Samples.sampleDigest ∅ 0%nat).
  - reflexivity.
  - discriminate.
Defined.

(** X5: [hasFileChanged] touches one cache entry only, the one of its
    (file, destination) key; and when the fingerprint cannot be computed it
    answers "changed" and leaves the cache alone. *)
Theorem X5_hasFileChanged_frame (fingerprint : string -> option string)
    (filePath remoteFilePath : string) (cache : gmap string string) :
  (forall key, key <> cacheKey filePath remoteFilePath ->
     (hasFileChanged fingerprint filePath remoteFilePath cache).2 !! key = cache !! key)
  /\ (fingerprint filePath = None ->
      hasFileChanged fingerprint filePath remoteFilePath cache = (true, cache))
  /\ (forall digest, fingerprint filePath = Some digest ->
      (hasFileChanged fingerprint filePath remoteFilePath cache).2
        !! cacheKey filePath remoteFilePath = Some digest
      /\ ((hasFileChanged fingerprint filePath remoteFilePath cache).1 = false <->
          cache !! cacheKey filePath remoteFilePath = Some digest /\ digest <> "")).
Proof.
  unfold hasFileChanged. split; [|split].
  - intros key Hkey. destruct (fingerprint filePath) as [d|]; [|done].
    destruct (negb (truthy _)); simpl; by rewrite lookup_insert_ne.
  - by intros ->.
  - intros digest ->. split.
    + destruct (negb (truthy _)); simpl; apply lookup_insert_eq.
    + destruct (cache !! cacheKey filePath remoteFilePath) as [[|c old]|] eqn:Hold; simpl.
      * split; [done|]. by intros [[= <-] ?].
      * rewrite negb_false_iff, String.eqb_eq. split.
        -- intros ->. split; [done|]. done.
        -- by intros [[= ->] _].
      * split; [done|]. by intros [? _].
Qed.

Lemma X5_hasFileChanged_frame_witness :
  hasFileChanged (fun _ => None) "incident_198513.xml" "/incoming/incident_198513.xml" ∅
  = (true, ∅).
Proof.
  destruct (X5_hasFileChanged_frame (fun _ => None) "incident_198513.xml"
              "/incoming/incident_198513.xml" ∅) as (_ & H & _).
  by apply H.
Defined.

(** X6: after [clearFingerprintCache(filePath)] with a non-empty path no
    entry of that file is left, so the next [hasFileChanged] for it answers
    "changed" for every destination, while every key that does not start
    with [filePath + ':'] keeps its entry; without a path (or with the
    empty one) the whole cache is emptied. *)
Theorem X6_clearFingerprintCache (filePath : option string) (cache : gmap string string) :
  (truthy filePath = true ->
     (forall remote, clearFingerprintCache filePath cache
                       !! cacheKey (or_empty filePath) remote = None)
     /\ (forall fingerprint remote,
           (hasFileChanged fingerprint (or_empty filePath) remote
              (clearFingerprintCache filePath cache)).1 = true)
     /\ (forall key, String.prefix (or_empty filePath +:+ ":") key = false ->
           clearFingerprintCache filePath cache !! key = cache !! key))
  /\ (truthy filePath = false -> clearFingerprintCache filePath cache = ∅).
Proof.
  unfold clearFingerprintCache. split.
  - intros Ht. rewrite Ht.
    assert (Hgone : forall remote,
      foldr delete cache
        (List.filter (fun key => String.prefix (or_empty filePath +:+ ":") key)
                     (map_to_list cache).*1)
        !! cacheKey (or_empty filePath) remote = None).
    { intros remote.
      destruct (cache !! cacheKey (or_empty filePath) remote) as [v|] eqn:Hv.
      - apply lookup_foldr_delete. apply list_elem_of_In, filter_In. split.
        + apply list_elem_of_In, list_elem_of_fmap.
          exists (cacheKey (or_empty filePath) remote, v). split; [done|].
          by apply elem_of_map_to_list.
        + apply StringFacts.prefix_app. exists remote. unfold cacheKey.
          by rewrite StringFacts.app_assoc.
      - destruct (foldr delete cache _ !! cacheKey (or_empty filePath) remote) eqn:Hd; [|done].
        apply lookup_foldr_delete_Some in Hd as [_ Hd]. congruence. }
    split; [done|]. split.
    + intros fingerprint remote. unfold hasFileChanged.
      destruct (fingerprint (or_empty filePath)); [|done]. by rewrite Hgone.
    + intros key Hkey. apply lookup_foldr_delete_not_elem_of.
      intros Hin. apply list_elem_of_In, filter_In in Hin as [_ Hp]. congruence.
  - by intros ->.
Qed.

Lemma X6_clearFingerprintCache_witness :
  (forall remote,
      clearFingerprintCache (Some "incident_198513.xml")
        (<[cacheKey "incident_198513.xml" "/incoming/incident_198513.xml" := Samples.sampleDigest]> ∅)
        !! cacheKey "incident_198513.xml" remote = None)
  /\ clearFingerprintCache None
       (<[cacheKey "incident_198513.xml" "/incoming/incident_198513.xml" := Samples.sampleDigest]> ∅)
     = ∅.
Proof.
  split.
  - intros remote.
    destruct (X6_clearFingerprintCache (Some "incident_198513.xml")
      (<[cacheKey "incident_198513.xml" "/incoming/incident_198513.xml" := Samples.sampleDigest]> ∅))
      as [H _].
    destruct (H eq_refl) as [Hgone _]. apply Hgone.
  - destruct (X6_clearFingerprintCache None
      (<[cacheKey "incident_198513.xml" "/incoming/incident_198513.xml" := Samples.sampleDigest]> ∅))
      as [_ H].
    by apply H.
Defined.

End DeliveryExtras.

(** * Further properties of [final-with-sheets-fix.js] *)

Module SheetFacts.
Import SheetUpsert.

Lemma scanRows_spec callId rows i :
  0 <= i ->
  (scanRows callId rows i = -1
   /\ forall k row, rows !! k = Some row -> row !! 1%nat <> callId)
  \/ (exists k row,
        scanRows callId rows i = i + Z.of_nat k
        /\ rows !! k = Some row /\ row !! 1%nat = callId
        /\ forall k' row', (k' < k)%nat -> rows !! k' = Some row' -> row' !! 1%nat <> callId).
Proof.
  revert i. induction rows as [|r rows IH]; intros i Hi; simpl.
  - left. split; [done|]. intros k row H. by rewrite lookup_nil in H.
  - case_bool_decide as Hr.
    + right. exists 0%nat, r. split; [lia|]. split; [done|]. split; [done|]. lia.
    + destruct (IH (i + 1)) as [[Hs Hall]|(k & row & Hs & Hk & Hrow & Hbefore)]; [lia|..].
      * left. split; [done|]. intros [|k] row H; simpl in H.
        -- by injection H as <-.
        -- by apply (Hall k).
      * right. exists (S k), row. split; [lia|]. split; [done|]. split; [done|].
        intros [|k'] row' Hlt H; simpl in H.
        -- by injection H as <-.
        -- apply (Hbefore k'); [lia|done].
Qed.

Lemma existingRowIndex_spec (callId : option string) (rows : list (list string)) :
  (existingRowIndex callId rows = -1
   /\ forall j row, (1 <= j)%nat -> rows !! j = Some row -> row !! 1%nat <> callId)
  \/ (exists j row,
        existingRowIndex callId rows = Z.of_nat j /\ (1 <= j)%nat
        /\ rows !! j = Some row /\ row !! 1%nat = callId
        /\ forall j' row', (1 <= j' < j)%nat -> rows !! j' = Some row' ->
                           row' !! 1%nat <> callId).
Proof.
  destruct rows as [|header rows]; simpl.
  - left. split; [done|]. intros j row _ H. by rewrite lookup_nil in H.
  - destruct (scanRows_spec callId rows 1)
      as [[Hs Hall]|(k & row & Hs & Hk & Hrow & Hbefore)]; [lia|..].
    + left. split; [done|]. intros [|j] row Hj H; [lia|]. by apply (Hall j).
    + right. exists (S k), row. split; [lia|]. split; [lia|]. split; [done|].
      split; [done|]. intros [|j'] row' Hj H; [lia|]. apply (Hbefore j'); [lia|done].
Qed.

End SheetFacts.

Section FinalWithSheetsExtras.
Import JS Raw FinalWithSheets RetryUtil LegacyUpload SheetUpsert.

(** X7: [uploadToSFTP] of [final-with-sheets-fix.js] is decided by the
    outcomes of at most three runs of its [try] block, each on the world
    the one before left after the quiet close.  The first run that
    completes resolves the promise to [true] and ends the loop; a failed
    first or second run is followed by a wait of 5 s or 10 s and the quiet
    close; a failed third run rejects with its error, with no wait and no
    close.  The kind of error is never looked at and the promise never
    resolves to [false]. *)
Theorem X7_uploadToSFTP_three_attempts {W E : Type} (tryBody : W -> (unit + E) * W)
    (endQuietly : W -> W) (w : W) :
  let run := uploadToSFTP tryBody endQuietly w in
  run.1.1 <> Resolved false
  /\ match tryBody w with
     | (inl _, w1) => run = (Resolved true, w1, [Try 1])
     | (inr _, w1) =>
         match tryBody (endQuietly w1) with
         | (inl _, w2) => run = (Resolved true, w2, [Try 1; Wait 5000; EndQuietly; Try 2])
         | (inr _, w2) =>
             match tryBody (endQuietly w2) with
             | (inl _, w3) =>
                 run = (Resolved true, w3,
                        [Try 1; Wait 5000; EndQuietly; Try 2; Wait 10000; EndQuietly; Try 3])
             | (inr e3, w3) =>
                 run = (Rejected (Some e3), w3,
                        [Try 1; Wait 5000; EndQuietly; Try 2; Wait 10000; EndQuietly; Try 3])
             end
         end
     end.
Proof.
  cbn zeta. unfold uploadToSFTP. cbn [attemptEach].
  destruct (tryBody w) as [[u1|e1] w1]; [by split|].
  cbn [Z.eqb Pos.eqb].
  destruct (tryBody (endQuietly w1)) as [[u2|e2] w2]; [by split|].
  cbn [Z.eqb Pos.eqb].
  by destruct (tryBody (endQuietly w2)) as [[u3|e3] w3].
Qed.

(** X8: the row found for a call is never the header row.  The scan of
    [logCallData] answers -1 when no row after the first has the call id in
    its second cell, and otherwise the index (at least 1) of the first such
    row. *)
Theorem X8_existingRowIndex_first_match (callId : option string) (rows : list (list string)) :
  (existingRowIndex callId rows = -1
   /\ forall j row, (1 <= j)%nat -> rows !! j = Some row -> row !! 1%nat <> callId)
  \/ (exists j row,
        existingRowIndex callId rows = Z.of_nat j /\ (1 <= j)%nat
        /\ rows !! j = Some row /\ row !! 1%nat = callId
        /\ forall j' row', (1 <= j' < j)%nat -> rows !! j' = Some row' ->
                           row' !! 1%nat <> callId).
Proof. apply SheetFacts.existingRowIndex_spec. Qed.

(** X9: without a Sheets client or a sheet id [logCallData] writes
    nothing.  With both it never gives up on a row: it issues at least one
    write, an append being the last resort whenever the lookup or the first
    write fails.  Row [n] is updated only when [n >= 2] and that row of the
    sheet holds the call id in column B. *)
Theorem X9_writes_when_configured (configured : bool) (callId : option string)
    (lookup : option (list (list string))) (firstWriteOk : bool) :
  (configured = false -> writes configured callId lookup firstWriteOk = [])
  /\ (configured = true ->
      writes configured callId lookup firstWriteOk <> []
      /\ (lookup = None \/ firstWriteOk = false ->
          last (writes configured callId lookup firstWriteOk) = Some Append))
  /\ (forall n, In (Update n) (writes configured callId lookup firstWriteOk) ->
        configured = true
        /\ exists rows row,
             lookup = Some rows /\ 2 <= n
             /\ rows !! Z.to_nat (n - 1) = Some row /\ row !! 1%nat = callId).
Proof.
  unfold writes. split; [by intros ->|]. split.
  - intros ->. cbn [negb]. split.
    + destruct lookup; [|done]. by destruct firstWriteOk.
    + intros [-> | ->]; [done|]. by destruct lookup.
  - intros n Hin. destruct configured; [|done]. split; [done|]. cbn [negb] in Hin.
    destruct lookup as [rows|]; [|by destruct Hin as [?|[]]].
    assert (Hfirst : (if 0 <? existingRowIndex callId rows
                      then Update (existingRowIndex callId rows + 1) else Append) = Update n).
    { destruct firstWriteOk; simpl in Hin.
      - by destruct Hin as [?|[]].
      - by destruct Hin as [?|[?|[]]]. }
    destruct (0 <? existingRowIndex callId rows) eqn:Hpos; [|done].
    injection Hfirst as <-. apply Z.ltb_lt in Hpos.
    destruct (SheetFacts.existingRowIndex_spec callId rows)
      as [[Hs _]|(j & row & Hs & Hj & Hrow & Hcell & _)]; [lia|].
    exists rows, row. split; [done|]. split; [lia|]. split; [|done].
    rewrite Hs. by replace (Z.to_nat (Z.of_nat j + 1 - 1)) with j by lia.
Qed.

Lemma X9_writes_when_configured_witness :
  writes true (Some "198513") None true <> []
  /\ last (writes true (Some "198513") None true) = Some Append.
Proof.
  destruct (X9_writes_when_configured true (Some "198513") None true) as (_ & H & _).
  destruct (H eq_refl) as [Hne Hlast]. split; [exact Hne|]. apply Hlast. by left.
Defined.

End FinalWithSheetsExtras.

(** * Further properties of the text helpers *)

Module TextFacts.
Import JS FinalWithSheets TextShape StringFacts.

Lemma space_not_angle c :
  is_space c = true -> Ascii.eqb c ">" = false /\ Ascii.eqb c "<" = false.
Proof. destruct c as [[] [] [] [] [] [] [] []]; by vm_compute. Qed.

Lemma hasGt_replaceTags b s : hasGt s = false -> hasGt (replaceTags b s) = false.
Proof.
  revert b. induction s as [|c s IH]; intros b H; [done|]. simpl in H.
  apply orb_false_iff in H as [Hc Hs]. simpl. rewrite Hc.
  destruct b; [by apply IH|].
  destruct (Ascii.eqb c "<" && hasGt s); [by apply IH|].
  simpl. by rewrite Hc, IH.
Qed.

Lemma noTag_replaceTags b s : noTag (replaceTags b s) = true.
Proof.
  revert b. induction s as [|c s IH]; intros b; [done|]. simpl.
  destruct b.
  - destruct (Ascii.eqb c ">"); [|apply IH]. simpl. apply IH.
  - destruct (Ascii.eqb c "<" && hasGt s) eqn:Hopen; [apply IH|].
    simpl. rewrite IH, andb_true_r. apply negb_true_iff.
    apply andb_false_iff in Hopen as [Hc|Hg]; [by rewrite Hc|].
    by rewrite (hasGt_replaceTags false s Hg), andb_false_r.
Qed.

Lemma replaceTags_noTag s : noTag s = true -> replaceTags false s = s.
Proof.
  induction s as [|c s IH]; [done|]. simpl. intros H.
  apply andb_true_iff in H as [Hc Hs]. apply negb_true_iff in Hc.
  by rewrite Hc, IH.
Qed.

Lemma hasGt_collapseSpaces b s : hasGt (collapseSpaces b s) = hasGt s.
Proof.
  revert b. induction s as [|c s IH]; intros b; [done|]. simpl.
  destruct (is_space c) eqn:Hsp.
  - destruct (space_not_angle c Hsp) as [-> _]. simpl.
    destruct b; [apply IH|]. simpl. apply IH.
  - simpl. by rewrite IH.
Qed.

Lemma noTag_collapseSpaces b s : noTag s = true -> noTag (collapseSpaces b s) = true.
Proof.
  revert b. induction s as [|c s IH]; intros b H; [done|]. simpl in *.
  apply andb_true_iff in H as [Hc Hs].
  destruct (is_space c) eqn:Hsp.
  - destruct b; [by apply IH|]. simpl. by apply IH.
  - simpl. rewrite hasGt_collapseSpaces, Hc. by apply IH.
Qed.

Lemma noTag_trimStart s : noTag s = true -> noTag (trimStart s) = true.
Proof.
  induction s as [|c s IH]; [done|]. intros H. simpl.
  destruct (is_space c); [|done]. simpl in H. apply andb_true_iff in H as [_ Hs]. by apply IH.
Qed.

Lemma trimEnd_cons c s :
  trimEnd (String c s) =
  match trimEnd s with
  | EmptyString => if is_space c then EmptyString else String c EmptyString
  | t => String c t
  end.
Proof. reflexivity. Qed.

Lemma hasGt_trimEnd s : hasGt (trimEnd s) = hasGt s.
Proof.
  induction s as [|c s IH]; [done|]. rewrite trimEnd_cons.
  cbn [hasGt]. rewrite <- IH. destruct (trimEnd s) as [|d t].
  - destruct (is_space c) eqn:Hsp; [|done]. by destruct (space_not_angle c Hsp) as [-> _].
  - done.
Qed.

Lemma noTag_cons c s : noTag (String c s) = negb (Ascii.eqb c "<" && hasGt s) && noTag s.
Proof. reflexivity. Qed.

Lemma noTag_trimEnd s : noTag s = true -> noTag (trimEnd s) = true.
Proof.
  induction s as [|c s IH]; [done|]. rewrite noTag_cons. intros H.
  apply andb_true_iff in H as [Hc Hs]. specialize (IH Hs).
  rewrite trimEnd_cons. rewrite <- hasGt_trimEnd in Hc.
  destruct (trimEnd s) as [|d t].
  - destruct (is_space c); [done|]. simpl. by rewrite andb_false_r.
  - by rewrite noTag_cons, Hc, IH.
Qed.

Lemma collapsed_collapseSpaces b s : collapsed b (collapseSpaces b s) = true.
Proof.
  revert b. induction s as [|c s IH]; intros b; [done|]. simpl.
  destruct (is_space c) eqn:Hsp.
  - destruct b; [apply IH|]. simpl. apply IH.
  - simpl. rewrite Hsp. apply IH.
Qed.

Lemma collapseSpaces_collapsed b s : collapsed b s = true -> collapseSpaces b s = s.
Proof.
  revert b. induction s as [|c s IH]; intros b H; [done|]. simpl in *.
  destruct (is_space c).
  - apply andb_true_iff in H as [H Hs]. apply andb_true_iff in H as [Hc Hb].
    apply Ascii.eqb_eq in Hc as ->. apply negb_true_iff in Hb as ->. by rewrite IH.
  - by rewrite IH.
Qed.

Lemma collapsed_weaken s : collapsed true s = true -> collapsed false s = true.
Proof.
  destruct s as [|c s]; [done|]. simpl. destruct (is_space c); [|done].
  by rewrite andb_false_r.
Qed.

Lemma collapsed_trimStart b s : collapsed b s = true -> collapsed false (trimStart s) = true.
Proof.
  revert b. induction s as [|c s IH]; intros b H; [done|]. simpl in *.
  destruct (is_space c) eqn:Hsp.
  - apply andb_true_iff in H as [_ Hs]. by apply (IH true).
  - simpl. by rewrite Hsp.
Qed.

Lemma collapsed_cons b c s :
  collapsed b (String c s) =
  if is_space c then Ascii.eqb c " " && negb b && collapsed true s else collapsed false s.
Proof. reflexivity. Qed.

Lemma collapsed_trimEnd b s : collapsed b s = true -> collapsed b (trimEnd s) = true.
Proof.
  revert b. induction s as [|c s IH]; intros b H; [done|]. rewrite trimEnd_cons.
  rewrite collapsed_cons in H. destruct (is_space c) eqn:Hsp.
  - apply andb_true_iff in H as [H Hs]. specialize (IH true Hs).
    destruct (trimEnd s) as [|d t]; [done|]. by rewrite collapsed_cons, Hsp, H, IH.
  - specialize (IH false H).
    destruct (trimEnd s) as [|d t]; rewrite collapsed_cons, Hsp; done.
Qed.

Lemma headSpace_trimStart s : headSpace (trimStart s) = false.
Proof.
  induction s as [|c s IH]; [done|]. simpl. destruct (is_space c) eqn:Hsp; [done|].
  simpl. done.
Qed.

Lemma headSpace_trimEnd s : headSpace s = false -> headSpace (trimEnd s) = false.
Proof.
  destruct s as [|c s]; [done|]. simpl. intros Hc. rewrite Hc.
  by destruct (trimEnd s).
Qed.

Lemma lastSpace_trimEnd s : lastSpace (trimEnd s) = false.
Proof.
  induction s as [|c s IH]; [done|]. rewrite trimEnd_cons.
  destruct (trimEnd s) as [|d t].
  - by destruct (is_space c) eqn:Hsp; simpl.
  - done.
Qed.

Lemma trimStart_id s : headSpace s = false -> trimStart s = s.
Proof. destruct s as [|c s]; [done|]. simpl. by intros ->. Qed.

Lemma trimEnd_id s : lastSpace s = false -> trimEnd s = s.
Proof.
  induction s as [|c s IH]; [done|]. intros H. rewrite trimEnd_cons.
  destruct s as [|d s].
  - simpl in *. by rewrite H.
  - rewrite IH by done. done.
Qed.

Lemma trim_id s : headSpace s = false -> lastSpace s = false -> trim s = s.
Proof. intros Hh Hl. unfold trim. by rewrite trimStart_id, trimEnd_id. Qed.

(** What [trim] leaves. *)
Lemma trim_shape s : headSpace (trim s) = false /\ lastSpace (trim s) = false.
Proof.
  unfold trim. split; [|apply lastSpace_trimEnd].
  apply headSpace_trimEnd, headSpace_trimStart.
Qed.

Lemma stripTags_shape html :
  headSpace (stripTags html) = false /\ lastSpace (stripTags html) = false
  /\ collapsed false (stripTags html) = true /\ noTag (stripTags html) = true.
Proof.
  unfold stripTags. destruct (trim_shape (collapseSpaces false
    (replaceTags false (or_empty (or_else html (Some EmptyString)))))) as [Hh Hl].
  split; [done|]. split; [done|]. split.
  - unfold trim. apply collapsed_trimEnd, (collapsed_trimStart false),
      collapsed_collapseSpaces.
  - unfold trim. apply noTag_trimEnd, noTag_trimStart, noTag_collapseSpaces,
      noTag_replaceTags.
Qed.

Lemma stripTags_fixed s :
  headSpace s = false -> lastSpace s = false -> collapsed false s = true -> noTag s = true ->
  stripTags (Some s) = s.
Proof.
  intros Hh Hl Hc Ht. unfold stripTags.
  assert (E : or_empty (or_else (Some s) (Some EmptyString)) = s) by (by destruct s).
  rewrite E, replaceTags_noTag, collapseSpaces_collapsed by done. by apply trim_id.
Qed.

(** [split] and [join] *)

Lemma split_nonempty sep s : split sep s <> [].
Proof.
  destruct s as [|c s]; [done|]. simpl.
  destruct (Ascii.eqb c sep); [done|]. by destruct (split sep s).
Qed.

Lemma join_cons sep p q ps : join sep (p :: q :: ps) = p +:+ sep +:+ join sep (q :: ps).
Proof. reflexivity. Qed.

Lemma join_split sep s : join (String sep EmptyString) (split sep s) = s.
Proof.
  induction s as [|c s IH]; [done|]. simpl.
  destruct (Ascii.eqb_spec c sep) as [->|Hne].
  - pose proof (split_nonempty sep s) as Hs.
    destruct (split sep s) as [|q ps]; [done|]. rewrite join_cons, IH. done.
  - pose proof (split_nonempty sep s) as Hs.
    destruct (split sep s) as [|q ps]; [done|].
    destruct ps as [|r ps].
    + simpl in *. by rewrite IH.
    + rewrite join_cons in *. rewrite app_cons. by rewrite IH.
Qed.

Lemma split_head_lacks sep s p ps : split sep s = p :: ps -> lacks sep p = true.
Proof.
  revert p ps. induction s as [|c s IH]; intros p ps; simpl.
  - by intros [= <- <-].
  - destruct (Ascii.eqb c sep) eqn:Hc.
    + by intros [= <- <-].
    + destruct (split sep s) as [|q qs] eqn:Hs.
      * intros [= <- <-]. simpl. by rewrite Hc.
      * intros [= <- <-]. simpl. rewrite Hc. simpl. by apply (IH q qs).
Qed.

Lemma split_lacks sep s : lacks sep s = true -> split sep s = [s].
Proof.
  induction s as [|c s IH]; [done|]. simpl. intros H.
  apply andb_true_iff in H as [Hc Hs]. apply negb_true_iff in Hc. by rewrite Hc, IH.
Qed.

Lemma split_app sep a b :
  lacks sep a = true -> split sep (a +:+ String sep b) = a :: split sep b.
Proof.
  induction a as [|c a IH]; intros H.
  - change (EmptyString +:+ String sep b) with (String sep b).
    simpl. by rewrite Ascii.eqb_refl.
  - simpl in H. apply andb_true_iff in H as [Hc Ha]. apply negb_true_iff in Hc.
    rewrite app_cons. simpl. by rewrite Hc, IH.
Qed.

End TextFacts.

Section TextExtras.
Import JS Raw FinalWithSheets TextShape TextFacts.

(** X10: the text [stripTags] returns has no leading or trailing white
    space, holds single plain spaces as its only white space, and contains
    no [<] that is followed by a [>] - no complete tag survives. *)
Theorem X10_stripTags_normalised (html : option string) :
  headSpace (stripTags html) = false
  /\ lastSpace (stripTags html) = false
  /\ collapsed false (stripTags html) = true
  /\ noTag (stripTags html) = true.
Proof. apply stripTags_shape. Qed.

(** X11: [stripTags] leaves alone a text that is already in that shape, so
    applying it twice is the same as applying it once. *)
Theorem X11_stripTags_idempotent (html : option string) :
  stripTags (Some (stripTags html)) = stripTags html
  /\ (forall s, headSpace s = false -> lastSpace s = false -> collapsed false s = true ->
                noTag s = true -> stripTags (Some s) = s).
Proof.
  split; [|apply stripTags_fixed].
  destruct (stripTags_shape html) as (Hh & Hl & Hc & Ht). by apply stripTags_fixed.
Qed.

Lemma X11_stripTags_idempotent_witness : stripTags (Some "PERSON DOWN") = "PERSON DOWN".
Proof.
  destruct (X11_stripTags_idempotent None) as [_ H]. apply H; reflexivity.
Defined.

End TextExtras.

(** * Further properties of the parsers *)

Module ParserFacts.
Import JS Raw Shapes TextShape TextFacts StringFacts.

Lemma split_all_lack sep s : Forall (fun p => lacks sep p = true) (split sep s).
Proof.
  induction s as [|c s IH]; simpl; [by repeat constructor|].
  destruct (Ascii.eqb c sep) eqn:Hc; [by constructor|].
  destruct (split sep s) as [|q qs]; simpl.
  - repeat constructor. simpl. by rewrite Hc.
  - inversion IH as [|? ? Hq Hqs]; subst. constructor; [|done]. simpl. by rewrite Hc.
Qed.

Lemma noSpace_lacks s : noSpace s = true -> lacks " " s = true.
Proof.
  induction s as [|c s IH]; [done|]. simpl. intros H.
  apply andb_true_iff in H as [Hc Hs]. rewrite IH, andb_true_r by done.
  apply negb_true_iff. destruct (Ascii.eqb_spec c " ") as [->|]; [by vm_compute in Hc|done].
Qed.

Lemma noSpace_lastSpace s : noSpace s = true -> lastSpace s = false.
Proof.
  induction s as [|c s IH]; [done|]. simpl. intros H.
  apply andb_true_iff in H as [Hc Hs]. apply negb_true_iff in Hc.
  destruct s; [done|]. by apply IH.
Qed.

Lemma lastSpace_app a b : b <> EmptyString -> lastSpace (a +:+ b) = lastSpace b.
Proof.
  intros Hb. induction a as [|c a IH]; [done|]. rewrite app_cons.
  destruct (a +:+ b) as [|d t] eqn:E.
  - apply app_eq_nil in E as [_ ->]. done.
  - done.
Qed.

Lemma truthy_app_r a b : b <> EmptyString -> truthy (Some (a +:+ b)) = true.
Proof. intros Hb. destruct a; [by destruct b|done]. Qed.

Lemma splitName_spec contact :
  lacks " " (splitName contact).1 = true
  /\ (truthy contact = true ->
      ((splitName contact).2 = EmptyString /\ trim (or_empty contact) = (splitName contact).1)
      \/ trim (or_empty contact) = (splitName contact).1 +:+ " " +:+ (splitName contact).2)
  /\ (truthy contact = false -> splitName contact = (EmptyString, EmptyString)).
Proof.
  unfold splitName. destruct contact as [[|c s]|]; [by repeat split| |by repeat split].
  cbn [or_else truthy or_empty].
  pose proof (join_split " " (trim (String c s))) as Hj.
  pose proof (split_head_lacks " " (trim (String c s))) as Hl.
  pose proof (split_nonempty " " (trim (String c s))) as Hn.
  destruct (split " " (trim (String c s))) as [|p [|q qs]]; [done|..].
  - simpl in Hj. split; [by apply (Hl p [])|]. split; [|done]. intros _. by left.
  - rewrite join_cons in Hj. split; [by apply (Hl p (q :: qs))|]. split; [|done].
    intros _. by right.
Qed.

Lemma names_agree call :
  FinalWithSheets.generateXML_name call = splitName (ContactName call)
  /\ FinalWithSheets.logCallData_name call = splitName (ContactName call).
Proof.
  split; [reflexivity|]. unfold FinalWithSheets.logCallData_name, splitName.
  destruct (ContactName call) as [[|c s]|]; [done| |done].
  cbn [or_else truthy or_empty].
  by destruct (split " " (trim (String c s))) as [|p [|q qs]].
Qed.

Lemma parseGeolocation_pair la lo :
  lacks "," la = true -> lacks "," lo = true ->
  parseGeolocation (Some (la +:+ "," +:+ lo)) = (la, lo).
Proof.
  intros Hla Hlo. unfold parseGeolocation.
  rewrite truthy_app_r by done. cbn [or_empty].
  change (la +:+ "," +:+ lo) with (la +:+ String "," lo).
  by rewrite split_app, split_lacks.
Qed.

Lemma parseGeolocation_inv g la lo :
  parseGeolocation g = (la, lo) -> (la, lo) <> (EmptyString, EmptyString) ->
  g = Some (la +:+ "," +:+ lo) /\ lacks "," la = true /\ lacks "," lo = true.
Proof.
  unfold parseGeolocation. destruct g as [s|]; [|by intros [= <- <-]].
  destruct (truthy (Some s)); [|by intros [= <- <-]]. cbn [or_empty].
  pose proof (join_split "," s) as Hj. pose proof (split_all_lack "," s) as Hl.
  destruct (split "," s) as [|a [|b [|c rest]]]; try by intros [= <- <-].
  intros [= <- <-] _. rewrite join_cons in Hj. simpl in Hj.
  inversion Hl as [|? ? Ha Hl']; subst. inversion Hl' as [|? ? Hb _]; subst.
  done.
Qed.

Lemma parseAddress_parts address p0 p1 p2 rest state zip :
  truthy (Some address) = true ->
  split "," address = p0 :: p1 :: p2 :: rest ->
  trim p2 = state +:+ " " +:+ zip ->
  noSpace state = true -> noSpace zip = true ->
  state <> EmptyString -> zip <> EmptyString ->
  parseAddress address = (trim p0, trim p1, state, zip).
Proof.
  intros Ht Hsplit Hp2 Hs Hz Hsne Hzne. unfold parseAddress.
  rewrite Ht, Hsplit. cbn [fmap list_fmap length lookup list_lookup or_empty].
  rewrite bool_decide_eq_true_2 by lia. rewrite Hp2.
  rewrite truthy_app_r by done.
  change (state +:+ " " +:+ zip) with (state +:+ String " " zip).
  rewrite split_app by (by apply noSpace_lacks).
  rewrite split_lacks by (by apply noSpace_lacks).
  destruct state as [|c1 s1]; [done|]. destruct zip as [|c2 z2]; [done|]. reflexivity.
Qed.

Lemma trim_state_zip state zip :
  noSpace state = true -> noSpace zip = true ->
  state <> EmptyString -> zip <> EmptyString ->
  trim (" " +:+ state +:+ " " +:+ zip) = state +:+ " " +:+ zip.
Proof.
  intros Hs Hz Hsne Hzne. unfold trim.
  change (trimStart (" " +:+ state +:+ " " +:+ zip)) with (trimStart (state +:+ " " +:+ zip)).
  rewrite trimStart_id.
  - apply trimEnd_id. rewrite lastSpace_app.
    + rewrite lastSpace_app by done. by apply noSpace_lastSpace.
    + by destruct zip.
  - destruct state as [|c s]; [done|]. simpl in *.
    apply andb_true_iff in Hs as [Hc _]. by apply negb_true_iff.
Qed.

Lemma lacks_app x a b : lacks x (a +:+ b) = lacks x a && lacks x b.
Proof.
  induction a as [|c a IH]; [done|]. rewrite app_cons. cbn [lacks].
  by rewrite IH, andb_assoc.
Qed.

Lemma lacks_third state zip :
  lacks "," state = true -> lacks "," zip = true ->
  lacks "," (" " +:+ state +:+ " " +:+ zip) = true.
Proof. intros Hs Hz. by rewrite !lacks_app, Hs, Hz. Qed.

End ParserFacts.

Section ParserExtras.
Import JS Raw Shapes TextShape TextFacts ParserFacts.

(** X12: the three name splitters (of [generateXML] and [logCallData] in
    [final-with-sheets-fix.js] and of the single-unit variants) compute the
    same pair; the first name never contains a space, and first and last
    name put back together with one space give the trimmed contact name, so
    nothing of the name is lost. *)
Theorem X12_name_split_lossless (call : Call) :
  let name := splitName (ContactName call) in
  FinalWithSheets.generateXML_name call = name
  /\ FinalWithSheets.logCallData_name call = name
  /\ lacks " " name.1 = true
  /\ (truthy (ContactName call) = true ->
      (name.2 = "" /\ trim (or_empty (ContactName call)) = name.1)
      \/ trim (or_empty (ContactName call)) = name.1 +:+ " " +:+ name.2)
  /\ (truthy (ContactName call) = false -> name = ("", "")).
Proof.
  cbn zeta. destruct (names_agree call) as [Hx Hl].
  destruct (splitName_spec (ContactName call)) as (H1 & H2 & H3). by repeat split.
Qed.

Lemma X12_name_split_lossless_witness :
  trim " Mary Ann  Smith " = "Mary" +:+ " " +:+ "Ann  Smith".
Proof.
  destruct (X12_name_split_lossless
              (mkCall None None None None None None None None (Some " Mary Ann  Smith ")
                 None None None (PPrim JS.Undefined) None None None None None None None None
                 None None None None None None None))
    as (_ & _ & _ & H & _).
  destruct (H eq_refl) as [[H2 _]|H2]; [discriminate H2|exact H2].
Defined.

(** X13: [Geolocation] is read only when it has exactly one comma: a
    latitude and a longitude without commas joined by one comma come back
    unchanged (untrimmed), and whenever the parser returns anything but two
    empty strings the input was exactly [lat,lon]. *)
Theorem X13_geolocation_round_trip :
  (forall la lo, lacks "," la = true -> lacks "," lo = true ->
     parseGeolocation (Some (la +:+ "," +:+ lo)) = (la, lo))
  /\ (forall g la lo, parseGeolocation g = (la, lo) -> (la, lo) <> ("", "") ->
        g = Some (la +:+ "," +:+ lo) /\ lacks "," la = true /\ lacks "," lo = true).
Proof. split; [apply parseGeolocation_pair|apply parseGeolocation_inv]. Qed.

Lemma X13_geolocation_round_trip_witness :
  parseGeolocation (Some "34.0928,-118.4712") = ("34.0928", "-118.4712").
Proof.
  destruct X13_geolocation_round_trip as [H _].
  apply (H "34.0928" "-118.4712"); reflexivity.
Defined.

(** X14: an address written as street, city, state and zip - street and
    city free of commas, state and zip non-empty and free of commas and white
    space - followed by nothing or by further comma-separated parts, is
    parsed back into the trimmed street, the trimmed city, the state and the
    zip. *)
Theorem X14_address_round_trip (street city state zip tail : string) :
  lacks "," street = true -> lacks "," city = true ->
  lacks "," state = true -> lacks "," zip = true ->
  noSpace state = true -> noSpace zip = true ->
  state <> "" -> zip <> "" ->
  tail = "" \/ (exists more, tail = "," +:+ more) ->
  parseAddress (street +:+ "," +:+ city +:+ ", " +:+ state +:+ " " +:+ zip +:+ tail)
  = (trim street, trim city, state, zip).
Proof.
  intros Hst Hci Hs Hz Hsn Hzn Hsne Hzne Htail.
  pose proof (lacks_third state zip Hs Hz) as Hthird.
  assert (Hsplit : exists rest,
    split "," (street +:+ "," +:+ city +:+ ", " +:+ state +:+ " " +:+ zip +:+ tail)
    = street :: city :: (" " +:+ state +:+ " " +:+ zip) :: rest).
  { change (street +:+ "," +:+ city +:+ ", " +:+ state +:+ " " +:+ zip +:+ tail)
      with (street +:+ String "," (city +:+ String "," (" " +:+ state +:+ " " +:+ zip +:+ tail))).
    rewrite split_app by done. rewrite split_app by done.
    destruct Htail as [-> |[more ->]].
    - exists []. rewrite StringFacts.app_nil_r. by rewrite split_lacks.
    - exists (split "," more).
      replace (" " +:+ state +:+ " " +:+ zip +:+ "," +:+ more)
        with ((" " +:+ state +:+ " " +:+ zip) +:+ String "," more).
      + by rewrite split_app.
      + by rewrite !StringFacts.app_assoc. }
  destruct Hsplit as [rest Hsplit].
  apply (parseAddress_parts _ street city (" " +:+ state +:+ " " +:+ zip) rest); try done.
  - by destruct street.
  - by apply trim_state_zip.
Qed.

(** The address of the end-to-end scenario. *)
Lemma X14_address_round_trip_witness :
  parseAddress "11401 Chalon Rd, Los Angeles, CA 90049, USA"
  = ("11401 Chalon Rd", "Los Angeles", "CA", "90049").
Proof.
  apply (X14_address_round_trip "11401 Chalon Rd" " Los Angeles" "CA" "90049" ", USA");
    try reflexivity; try discriminate.
  right. by exists " USA".
Defined.

(** X15: an address with fewer than two commas yields no city, state or
    zip: without a comma the street is the whole trimmed address, and with
    one comma the street is the trimmed part before it and what follows is
    dropped. *)
Theorem X15_address_too_few_parts :
  (forall address, lacks "," address = true -> parseAddress address = (trim address, "", "", ""))
  /\ (forall street rest, lacks "," street = true -> lacks "," rest = true ->
        parseAddress (street +:+ "," +:+ rest) = (trim street, "", "", "")).
Proof.
  split.
  - intros address H. unfold parseAddress. destruct address as [|c s]; [done|].
    cbn [truthy]. by rewrite split_lacks.
  - intros street rest Hs Hr. unfold parseAddress.
    rewrite truthy_app_r by done.
    change (street +:+ "," +:+ rest) with (street +:+ String "," rest).
    rewrite split_app by done. by rewrite split_lacks.
Qed.

Lemma X15_address_too_few_parts_witness :
  parseAddress "123 Main St" = ("123 Main St", "", "", "").
Proof. destruct X15_address_too_few_parts as [H _]. by apply H. Defined.

End ParserExtras.

(** * Further properties of the derivations *)

Module DerivationFacts.
Import JS Raw FinalWithSheets Cascade Shapes.

Lemma find_app {A} (f : A -> bool) l1 l2 :
  List.find f (l1 ++ l2) =
  match List.find f l1 with
  | Some x => Some x
  | None => List.find f l2
  end.
Proof. induction l1 as [|x l1 IH]; [done|]. simpl. by destruct (f x). Qed.

Lemma find_hasStatus n act :
  hasStatus n act = true ->
  exists e, List.find (fun e => statusIs n (act_StatusId e)) act = Some e.
Proof.
  induction act as [|x act IH]; [done|]. simpl.
  destruct (statusIs n (act_StatusId x)); [by exists x|]. apply IH.
Qed.

Lemma find_noStatus n act :
  hasStatus n act = false ->
  List.find (fun e => statusIs n (act_StatusId e)) act = None.
Proof.
  induction act as [|x act IH]; [done|]. simpl.
  destruct (statusIs n (act_StatusId x)); [done|]. apply IH.
Qed.

Lemma activityEvent_app_l n act more :
  hasStatus n act = true ->
  activityEvent (act ++ more) (inl n) = activityEvent act (inl n).
Proof.
  intros H. unfold activityEvent. rewrite find_app.
  by destruct (find_hasStatus n act H) as [e ->].
Qed.

Lemma activityEvent_app_r n pre act :
  hasStatus n pre = false ->
  activityEvent (pre ++ act) (inl n) = activityEvent act (inl n).
Proof.
  intros H. unfold activityEvent. by rewrite find_app, (find_noStatus n pre H).
Qed.

Lemma firstTruthy_pair_nonempty x y :
  truthy y = true -> firstTruthy [x; y] <> EmptyString.
Proof.
  simpl. destruct x as [[|c s]|]; simpl; destruct y as [[|d t]|]; done.
Qed.

Lemma firstTruthy_single x : firstTruthy [x] = EmptyString \/ truthy x = true.
Proof. destruct x as [[|c s]|]; auto. Qed.

Lemma firstTruthy_nonempty l : firstTruthy l <> EmptyString -> exists x, In x l /\ truthy x = true.
Proof.
  induction l as [|x l IH]; [done|]. simpl. destruct (truthy x) eqn:Hx.
  - intros _. exists x. by split; [left|].
  - intros H. destruct (IH H) as (y & Hy & Ht). exists y. by split; [right|].
Qed.

Lemma firstTruthy_of_truthy l x : In x l -> truthy x = true -> firstTruthy l <> EmptyString.
Proof.
  induction l as [|y l IH]; [done|]. simpl. intros [->|Hin] Hx.
  - rewrite Hx. by destruct x as [[|c s]|].
  - destruct (truthy y) eqn:Hy; [by destruct y as [[|c s]|]|]. by apply IH.
Qed.

Lemma setIfEmpty_nonempty v x : truthy x = true -> setIfEmpty v x <> EmptyString.
Proof.
  intros Hx. unfold setIfEmpty. rewrite Hx.
  destruct v as [|c s]; simpl; [by destruct x as [[|d t]|]|done].
Qed.

(** What a lookup with the default 390 or 395 gives in a table of the two
    entries. *)
Lemma memberOr_twoEntries table key d :
  Lookups.twoEntries table -> d <> EmptyString ->
  memberOr (getProperty table key) d =
  if String.eqb key "1559" then Own "395"
  else if String.eqb key "1560" then Own "390"
  else if inherited key then Inherited key else Own d.
Proof.
  intros Htable Hd. rewrite Htable.
  destruct (String.eqb key "1559"); [done|].
  destruct (String.eqb key "1560"); [done|].
  by destruct (inherited key).
Qed.

Lemma lookup_two table key d :
  Lookups.twoEntries table -> d = "390" \/ d = "395" ->
  (memberOr (getProperty table key) d = Own "390"
   \/ memberOr (getProperty table key) d = Own "395")
  <-> ~ In key objectPrototype.
Proof.
  intros Htable Hd.
  rewrite (memberOr_twoEntries table key d Htable) by (by destruct Hd as [-> | ->]).
  rewrite <- LookupFacts.inherited_false.
  destruct (String.eqb_spec key "1559") as [-> |H59]; [by split; [|right]|].
  destruct (String.eqb_spec key "1560") as [-> |H60]; [by split; [|left]|].
  destruct (inherited key).
  - split; [by intros [?|?]|done].
  - split; [done|]. intros _. destruct Hd as [-> | ->]; [by left|by right].
Qed.

Lemma lookup_inherited table key d :
  Lookups.twoEntries table -> In key objectPrototype ->
  memberOr (getProperty table key) d = Inherited key.
Proof.
  intros Htable Hin. rewrite Htable.
  apply LookupFacts.inherited_true in Hin.
  destruct (String.eqb_spec key "1559") as [-> |H59]; [done|].
  destruct (String.eqb_spec key "1560") as [-> |H60]; [done|].
  by rewrite Hin.
Qed.

(** A text is one of the two codes only when it is the value of an own
    property. *)
Lemma memberText_two m :
  (memberText m = "390" \/ memberText m = "395") <-> (m = Own "390" \/ m = Own "395").
Proof.
  destruct m as [value|key].
  - simpl. split; (intros [H|H]; [left|right]); congruence.
  - destruct (LookupFacts.memberText_inherited key) as [H390 H395].
    split; [by intros [?|?]|by intros [?|?]].
Qed.

(** The response mode of the single-unit serializer: decided by the
    nature, or looked up. *)
Lemma xml_responseMode_cases call :
  (Classification.nonEmergencyNature (Nature call) /\ XmlGenerator.responseMode call = "395")
  \/ (~ Classification.nonEmergencyNature (Nature call)
      /\ XmlGenerator.responseMode call
         = memberText (memberOr (getProperty XmlGenerator.responseModeMap
                                             (XmlGenerator.priorityId call)) "390")).
Proof.
  unfold XmlGenerator.responseMode.
  assert (Hn : truthy (Some (or_empty (or_else (Nature call) (Some EmptyString))))
               && Regex.test Priority.NON_EMERGENCY_RE
                    (or_empty (or_else (Nature call) (Some EmptyString)))
               = truthy (Nature call)
                 && Regex.test Priority.NON_EMERGENCY_RE (or_empty (Nature call))).
  { by destruct (Nature call) as [[|c n]|]. }
  rewrite Hn.
  pose proof (ClassificationFacts.test_NON_EMERGENCY_RE (Nature call)) as Ht.
  destruct (truthy (Nature call)
            && Regex.test Priority.NON_EMERGENCY_RE (or_empty (Nature call))).
  - left. split; [by apply Ht|done].
  - right. split; [|done]. intros H. apply Ht in H. discriminate H.
Qed.

Lemma match_1559 (s a b : string) :
  match s with
  | "1559" => a
  | _ => b
  end = a
  \/ match s with
     | "1559" => a
     | _ => b
     end = b.
Proof.
  repeat (destruct s as [|[[] [] [] [] [] [] [] []] s]; try (by right)).
  by left.
Qed.

(** Lines of text put together with line feeds come apart again. *)
Lemma split_join sep (parts : list string) :
  parts <> [] -> Forall (fun p => TextShape.lacks sep p = true) parts ->
  split sep (join (String sep EmptyString) parts) = parts.
Proof.
  intros Hne Hall. induction Hall as [|p ps Hp Hps IH]; [done|].
  destruct ps as [|q qs]; [by apply TextFacts.split_lacks|].
  rewrite TextFacts.join_cons.
  change (p +:+ String sep EmptyString +:+ join (String sep EmptyString) (q :: qs))
    with (p +:+ String sep (join (String sep EmptyString) (q :: qs))).
  rewrite TextFacts.split_app by done. by rewrite IH.
Qed.

(** Head of a filter and find over the names. *)
Lemma validUnits_find ds :
  default EmptyString
    (List.find validUnitName
       ((fun d => or_empty (disp_Name d))
          <$> List.filter (fun d => strictEq (disp_Type d) "Unit" && truthy (disp_Name d)) ds))
  = match validUnits ds with
    | d :: _ => or_empty (disp_Name d)
    | [] => EmptyString
    end.
Proof.
  unfold validUnits. induction ds as [|d ds IH]; [done|]. simpl.
  destruct (strictEq (disp_Type d) "Unit" && truthy (disp_Name d)); simpl; [|done].
  by destruct (validUnitName (or_empty (disp_Name d))).
Qed.

Lemma find_valid_nonempty l v : List.find validUnitName l = Some v -> truthy (Some v) = true.
Proof.
  intros H. apply find_some in H as [_ Hv].
  apply SelectionFacts.validUnitName_spec in Hv as (_ & Hne & _). by destruct v.
Qed.

Lemma selectUnit_first call extra :
  unitName (selectUnit call extra)
  = default EmptyString (List.find validUnitName (candidates call extra)).
Proof.
  unfold selectUnit, candidates, unitFromCsv. rewrite find_app.
  destruct (truthy (UnitsCsv call)).
  - destruct (List.find validUnitName (trim <$> split "," (or_empty (UnitsCsv call))))
      as [v|] eqn:Hf.
    + pose proof (find_valid_nonempty _ _ Hf) as Hv. cbn beta iota. rewrite Hv.
      destruct (Dispatches extra); [|done]. cbn [unitName default]. by rewrite Hv.
    + destruct (Dispatches extra) as [ds|]; [|done]. cbn [unitName truthy negb default].
      rewrite validUnits_find. by destruct (validUnits ds).
  - destruct (Dispatches extra) as [ds|]; [|done]. cbn [unitName truthy negb default app].
    change (List.find validUnitName []) with (@None string). cbn iota.
    rewrite validUnits_find. by destruct (validUnits ds).
Qed.

End DerivationFacts.

Section DerivationExtras.
Import JS Raw FinalWithSheets Cascade Shapes DerivationFacts.

(** X16: the first entry with a status id decides.  Entries appended to an
    activity log that already has an entry with status [n] do not change
    what [activityEvent] finds for [n], and entries put in front that do not
    have status [n] do not either; so the en-route and on-scene times of
    both outputs stay what the first status-5 and status-6 entries give. *)
Theorem X16_first_entry_wins (n : Z) (act other : list Activity) :
  (hasStatus n act = true ->
     activityEvent (act ++ other) (inl n) = activityEvent act (inl n))
  /\ (hasStatus n other = false ->
      activityEvent (other ++ act) (inl n) = activityEvent act (inl n))
  /\ (hasStatus 5 act = true -> hasStatus 6 act = true ->
      forall call,
        enRoute (generateXML_times call (act ++ other)) = enRoute (generateXML_times call act)
        /\ onScene (generateXML_times call (act ++ other)) = onScene (generateXML_times call act)
        /\ enRoute (logCallData_times call (act ++ other)) = enRoute (logCallData_times call act)
        /\ onScene (logCallData_times call (act ++ other))
           = onScene (logCallData_times call act)).
Proof.
  split; [apply activityEvent_app_l|]. split; [apply activityEvent_app_r|].
  intros H5 H6 call. unfold generateXML_times, logCallData_times. cbn [enRoute onScene].
  by rewrite !(activityEvent_app_l 5 act other H5), !(activityEvent_app_l 6 act other H6).
Qed.

Lemma X16_first_entry_wins_witness :
  activityEvent (Samples.cascade "T1" "T2" "T3" ++ Samples.returned) (inl 5)
  = activityEvent (Samples.cascade "T1" "T2" "T3") (inl 5).
Proof.
  destruct (X16_first_entry_wins 5 (Samples.cascade "T1" "T2" "T3") Samples.returned)
    as [H _].
  by apply H.
Defined.

(** X17: in [final-with-sheets-fix.js] the XML document and the sheet row
    always carry the same en-route, on-scene and at-patient times; in both,
    an on-scene time brings an at-patient time with it; and in the XML
    document a back-in-service time is never present without a cleared
    time. *)
Theorem X17_times_invariants (call : Call) (act : list Activity) :
  let x := generateXML_times call act in
  let l := logCallData_times call act in
  enRoute x = enRoute l /\ onScene x = onScene l /\ atPatient x = atPatient l
  /\ (onScene x <> "" -> atPatient x <> "")
  /\ (backInService x <> "" -> cleared x <> "").
Proof.
  cbn zeta. split; [done|]. split; [done|]. split; [done|]. split.
  - unfold generateXML_times. cbn [onScene atPatient]. intros H.
    apply firstTruthy_pair_nonempty.
    by destruct (firstTruthy_single (act_Timestamp (activityEvent act (inl 6)))).
  - unfold generateXML_times. cbn [backInService cleared]. intros H.
    apply firstTruthy_nonempty in H as (x & Hin & Hx).
    apply (firstTruthy_of_truthy _ x); [|done]. simpl in *. tauto.
Qed.

Lemma X17_times_invariants_witness :
  atPatient (generateXML_times emptyCall (Samples.cascade "T1" "T2" "T3")) <> "".
Proof.
  destruct (X17_times_invariants emptyCall (Samples.cascade "T1" "T2" "T3"))
    as (_ & _ & _ & H & _).
  apply H. discriminate.
Defined.

(** X18: in the single-unit variants a cleared time is never left without
    a back-in-service time: when nothing else supplied one, the cleared time
    is used. *)
Theorem X18_cleared_implies_back_in_service (call extra : Call) :
  unitClearedTime (deriveUnit call extra) <> "" ->
  unitBackInServiceTime (deriveUnit call extra) <> "".
Proof.
  unfold deriveUnit, applyCallTimes. cbn [unitClearedTime unitBackInServiceTime].
  intros H. apply setIfEmpty_nonempty.
  by destruct (setIfEmpty _ (UnitClearedTime call)).
Qed.

Lemma X18_cleared_implies_back_in_service_witness :
  unitBackInServiceTime
    (deriveUnit emptyCall
       (Samples.extra
          (Some [mkDispatch (Some "Unit") (Some "STN1") None None None None
                   (Some "2025-05-06T11:20:12")]) None)) <> "".
Proof.
  apply X18_cleared_implies_back_in_service. vm_compute. discriminate.
Defined.

(** X19: when no activity entry is of type "Unit" and the call has no
    dispatch of type "Unit" with a name, [final-with-sheets-fix.js] writes
    the marker "No Units" both into the [EmsUnitCallSign] element and into
    the "Unit Name" column. *)
Theorem X19_no_units_marker (call : Call) (activity : list Activity) :
  (forall a, a ∈ activity -> act_Type a <> Some "Unit") ->
  (forall ds d, Dispatches call = Some ds -> d ∈ ds ->
                ~ (disp_Type d = Some "Unit" /\ truthy (disp_Name d) = true)) ->
  uniqueUnits call activity = []
  /\ (forall parseAddress lastUpdated,
        Xml.field "EmsUnitCallSign" (generateXML parseAddress call activity)
        = Some (Some "No Units")
        /\ logCallData_rowData parseAddress call activity lastUpdated !! 11%nat
           = Some (Some "No Units")).
Proof.
  intros Hact Hdisp.
  assert (Ha : activityUnits activity = []).
  { destruct (activityUnits activity) as [|x l] eqn:E; [done|].
    assert (Hx : x ∈ activityUnits activity) by (rewrite E; left).
    apply RosterFacts.activityUnits_elem in Hx as (a & Hin & Ht & _). by destruct (Hact a Hin). }
  assert (Hd : dispatchUnits call = []).
  { destruct (dispatchUnits call) as [|x l] eqn:E; [done|].
    assert (Hx : x ∈ dispatchUnits call) by (rewrite E; left).
    apply RosterFacts.dispatchUnits_elem in Hx as (ds & d & Hds & Hin & Ht & Hn & Htr).
    destruct (Hdisp ds d Hds Hin). split; [done|]. by rewrite Hn. }
  assert (Hu : uniqueUnits call activity = []).
  { unfold uniqueUnits. by rewrite Ha, Hd. }
  split; [done|]. intros parseAddress lastUpdated.
  assert (Hcsv : unitsCsv call activity = "No Units") by (unfold unitsCsv; by rewrite Hu).
  split.
  - destruct (OutputFacts.generateXML_fields parseAddress call activity) as (_ & -> & _).
    by rewrite Hcsv.
  - destruct (OutputFacts.logCallData_columns parseAddress call activity lastUpdated)
      as (_ & -> & _).
    by rewrite Hcsv.
Qed.

Lemma X19_no_units_marker_witness :
  uniqueUnits Samples.personDown Samples.personnelLog = [].
Proof.
  destruct (X19_no_units_marker Samples.personDown Samples.personnelLog) as [H _].
  - intros a Ha. apply list_elem_of_In in Ha. simpl in Ha. destruct Ha as [<-|[]]. discriminate.
  - intros ds d [= <-] Hd. by apply not_elem_of_nil in Hd.
  - exact H.
Defined.

(** X20: [mapPriorityToEsoCode] and [logCallData] answer one of the two
    codes 390 and 395 for every input.  The three computations that look
    the priority up in an object literal do so exactly when the key they
    use is not the name of a property every object inherits (or, in the
    single-unit serializer, when the nature decides): for a priority that
    reads, say, "constructor" they yield the inherited member, whose text
    is neither code. *)
Theorem X20_response_mode_codes (priorityId : prim) (nature : option string)
    (call : Call) :
  let two (code : string) := code = "390" \/ code = "395" in
  two (Priority.mapPriorityToEsoCode priorityId nature)
  /\ two (logCallData_responseMode call)
  /\ (two (XmlGenerator.responseMode call)
      <-> Classification.nonEmergencyNature (Nature call)
          \/ ~ In (XmlGenerator.priorityId call) objectPrototype)
  /\ (two (memberText (SheetsLogger.responseMode call))
      <-> ~ In (SheetsLogger.priorityId call) objectPrototype)
  /\ (two (generateXML_responseMode call)
      <-> ~ In (priorityKey (Priority call)) objectPrototype)
  /\ (In (priorityKey (Priority call)) objectPrototype ->
      generateXML_responseMode call = memberText (Inherited (priorityKey (Priority call)))).
Proof.
  cbn zeta. split; [|split; [|split; [|split; [|split]]]].
  - unfold Priority.mapPriorityToEsoCode.
    destruct (truthy nature && _); [by right|].
    destruct (String.eqb (toString priorityId) "1559"); [by right|].
    destruct (String.eqb (toString priorityId) "1560"); by left.
  - unfold logCallData_responseMode. cbn zeta.
    set (byNature := if truthy (Nature call) && _ then "390" else "395").
    assert (Hn : byNature = "390" \/ byNature = "395").
    { subst byNature. destruct (truthy (Nature call) && _); [by left|by right]. }
    destruct (Priority call) as [[| |n|s]|Id Name]; try exact Hn.
    destruct (match_1559 s "390" byNature) as [-> | ->]; [by left|exact Hn].
  - destruct (xml_responseMode_cases call) as [[Hn ->]|[Hn ->]].
    + split; [by left|by right].
    + rewrite memberText_two, (lookup_two _ _ "390" LookupFacts.getProperty_xml) by by left.
      split; [by right|]. by intros [?|?].
  - unfold SheetsLogger.responseMode.
    rewrite memberText_two. apply (lookup_two _ _ "390" LookupFacts.getProperty_sheet).
    by left.
  - unfold generateXML_responseMode.
    rewrite memberText_two. apply (lookup_two _ _ "395" LookupFacts.getProperty_priorityMap).
    by right.
  - intros Hin. unfold generateXML_responseMode.
    by rewrite (lookup_inherited _ _ "395" LookupFacts.getProperty_priorityMap Hin).
Qed.

(** A priority that reads "constructor" puts the text of a function into
    [ResponseModeToScene]. *)
Lemma X20_response_mode_codes_witness :
  generateXML_responseMode (Samples.call None None (PPrim (Str "constructor")) None None)
  = "function Object() { [native code] }".
Proof.
  destruct (X20_response_mode_codes Undefined None
              (Samples.call None None (PPrim (Str "constructor")) None None))
    as (_ & _ & _ & _ & _ & H).
  rewrite H; [reflexivity|]. simpl. tauto.
Defined.

(** X21: the single-unit XML generator and sheet writer agree on the
    response mode whenever the nature holds no non-emergency word and the
    priority is not an object without a name whose id reads 1559 or names
    an inherited property.  The label written to the sheet stands for the
    value the writer looked up exactly when the priority id it read is not
    the name of an inherited property. *)
Theorem X21_single_unit_modes_agree (call : Call) :
  (~ Classification.nonEmergencyNature (Nature call) ->
   (forall Id Name, Priority call = PObj Id Name -> truthy_prim Name = false ->
                    truthy_prim Id = true ->
                    toString Id <> "1559" /\ ~ In (toString Id) objectPrototype) ->
   XmlGenerator.responseMode call = memberText (SheetsLogger.responseMode call))
  /\ (SheetsLogger.codeOfLabel (SheetsLogger.responseModeText call)
      = Some (memberText (SheetsLogger.responseMode call))
      <-> ~ In (SheetsLogger.priorityId call) objectPrototype).
Proof.
  split.
  - intros Hn Hobj.
    destruct (xml_responseMode_cases call) as [[Hn' _]|[_ ->]]; [contradiction|].
    unfold SheetsLogger.responseMode.
    rewrite (memberOr_twoEntries _ _ "390" LookupFacts.getProperty_xml) by done.
    rewrite (memberOr_twoEntries _ _ "390" LookupFacts.getProperty_sheet) by done.
    unfold XmlGenerator.priorityId, SheetsLogger.priorityId.
    destruct (Priority call) as [v|Id Name] eqn:Hp; [done|]. cbn [truthy_priority].
    destruct (truthy_prim Name) eqn:HName; destruct (truthy_prim Id) eqn:HId; try done.
    destruct (Hobj Id Name eq_refl HName HId) as [H59 Hinh].
    apply LookupFacts.inherited_false in Hinh. rewrite Hinh.
    destruct (String.eqb_spec (toString Id) "1559"); [done|].
    by destruct (String.eqb (toString Id) "1560").
  - rewrite <- (lookup_two _ _ "390" LookupFacts.getProperty_sheet) by by left.
    unfold SheetsLogger.responseModeText. fold (SheetsLogger.responseMode call).
    destruct (SheetsLogger.responseMode call) as [value|key]; cbn [memberIs].
    + cbn [memberText]. destruct (String.eqb_spec value "390") as [-> |Hne].
      * split; [by left|done].
      * change (SheetsLogger.codeOfLabel "No Lights & Sirens") with (Some "395"). split.
        -- intros [= <-]. by right.
        -- intros [[= ->]|[= ->]]; done.
    + destruct (LookupFacts.memberText_inherited key) as [_ H395].
      change (SheetsLogger.codeOfLabel "No Lights & Sirens") with (Some "395"). split.
      * intros H. destruct H395. congruence.
      * by intros [?|?].
Qed.

Lemma X21_single_unit_modes_agree_witness :
  XmlGenerator.responseMode Samples.personDown
  = memberText (SheetsLogger.responseMode Samples.personDown).
Proof.
  destruct (X21_single_unit_modes_agree Samples.personDown) as [H _].
  apply H.
  - intros Hn. apply ClassificationFacts.test_NON_EMERGENCY_RE in Hn. vm_compute in Hn.
    discriminate Hn.
  - intros Id Name Hp. discriminate Hp.
Defined.

(** X22: the unit written by the single-unit variants is the first valid
    name among the candidates - the pieces of [UnitsCsv] in order, then the
    unit dispatches in order - and empty when there is none. *)
Theorem X22_first_valid_candidate (callData : callInput) (extraData : extraInput) :
  let call := callGetData callData in
  let extra := extraGetData callData extraData in
  unitName (deriveUnit call extra)
  = default "" (List.find validUnitName (candidates call extra)).
Proof. cbn zeta. rewrite SelectionFacts.deriveUnit_name. apply selectUnit_first. Qed.

(** X23: the lines of the document of [src/xml-generator.js].  Split at
    the line feeds, the document is the XML declaration, the root tag, one
    line [  <name>value</name>] for each of the 23 fields in their fixed
    order, and the closing root tag - 26 lines - exactly when no
    interpolated value holds a line feed; the values are written as they
    are, so a line feed in one of them breaks a line in two. *)
Theorem X23_xml_lines (isoDate : string -> option string)
    (callData : callInput) (extraData : extraInput) :
  let fields := XmlGenerator.fields isoDate callData extraData in
  let document := XmlGenerator.generateXML isoDate callData extraData in
  let lines :=
    XmlGenerator.header ++ ((fun f => XmlGenerator.line f.1 f.2) <$> fields)
      ++ ["</CadIncident>"] in
  fields.*1
  = ["IncidentNumber"; "IncidentOrOnset"; "DispatchNotified"; "IncidentAddress1";
     "IncidentCity"; "IncidentState"; "IncidentZip"; "CadDispatchText"; "EmsUnitCallSign";
     "UnitNotifiedByDispatch"; "ResponseModeToScene"; "CallNature"; "CallNatureDescription";
     "UnitEnRoute"; "UnitArrivedOnScene"; "UnitAtPatient"; "UnitCleared"; "UnitBackInService";
     "SceneGpsLocationLat"; "SceneGpsLocationLong"; "PatientFirstName"; "PatientLastName";
     "PatientDOB"]
  /\ length lines = 26%nat
  /\ (split "010" document = lines
      <-> Forall (fun f => TextShape.lacks "010" f.2 = true) fields).
Proof.
  cbn zeta.
  set (fields := XmlGenerator.fields isoDate callData extraData).
  assert (Hnames : fields.*1
    = ["IncidentNumber"; "IncidentOrOnset"; "DispatchNotified"; "IncidentAddress1";
     "IncidentCity"; "IncidentState"; "IncidentZip"; "CadDispatchText"; "EmsUnitCallSign";
     "UnitNotifiedByDispatch"; "ResponseModeToScene"; "CallNature"; "CallNatureDescription";
     "UnitEnRoute"; "UnitArrivedOnScene"; "UnitAtPatient"; "UnitCleared"; "UnitBackInService";
     "SceneGpsLocationLat"; "SceneGpsLocationLong"; "PatientFirstName"; "PatientLastName";
     "PatientDOB"]).
  { subst fields. unfold XmlGenerator.fields. OutputFacts.split_pairs. reflexivity. }
  assert (Hname : Forall (fun f => TextShape.lacks "010" f.1 = true) fields).
  { apply (Forall_fmap fst (fun name => TextShape.lacks "010" name = true)).
    rewrite Hnames. by repeat constructor. }
  assert (Hline : forall name value,
            TextShape.lacks "010" name = true ->
            TextShape.lacks "010" (XmlGenerator.line name value) = TextShape.lacks "010" value).
  { intros name value Hn. unfold XmlGenerator.line.
    rewrite !ParserFacts.lacks_app, Hn. cbn. by rewrite andb_true_r. }
  assert (Hdoc : XmlGenerator.generateXML isoDate callData extraData
                 = join (String "010" EmptyString)
                     (XmlGenerator.header ++ ((fun f => XmlGenerator.line f.1 f.2) <$> fields)
                        ++ ["</CadIncident>"])).
  { unfold XmlGenerator.generateXML, XmlGenerator.newline. fold fields. do 3 f_equal.
    apply list_fmap_ext. by intros _ [name value] _. }
  split; [done|]. split.
  - rewrite !length_app, length_fmap, <- (length_fmap fst fields), Hnames. reflexivity.
  - rewrite Hdoc. split.
    + intros Hsplit.
      pose proof (ParserFacts.split_all_lack "010"
                    (join (String "010" EmptyString)
                       (XmlGenerator.header
                          ++ ((fun f => XmlGenerator.line f.1 f.2) <$> fields)
                          ++ ["</CadIncident>"]))) as Hall.
      rewrite Hsplit in Hall.
      apply Forall_app in Hall as [_ Hall]. apply Forall_app in Hall as [Hall _].
      apply Forall_fmap in Hall.
      eapply Forall_impl; [apply Forall_and; split; [exact Hname|exact Hall]|].
      intros [name value] [Hn Hl]. simpl in *. by rewrite Hline in Hl.
    + intros Hvalues. apply split_join; [done|].
      apply Forall_app. split; [by repeat constructor|].
      apply Forall_app. split; [|by repeat constructor].
      apply Forall_fmap.
      eapply Forall_impl; [apply Forall_and; split; [exact Hname|exact Hvalues]|].
      intros [name value] [Hn Hv]. simpl in *. by rewrite Hline.
Qed.

(** The end-to-end incident of the specification has no line feed in its
    values. *)
Lemma X23_xml_lines_witness :
  length (split "010" (XmlGenerator.generateXML (fun _ => None)
                         (Shapes.Direct Samples.personDown) Shapes.noExtra)) = 26%nat.
Proof.
  destruct (X23_xml_lines (fun _ => None) (Shapes.Direct Samples.personDown) Shapes.noExtra)
    as (_ & Hlen & Hsplit).
  rewrite (proj2 Hsplit); [exact Hlen|].
  vm_compute. by repeat constructor.
Defined.

End DerivationExtras.
